(** * bgp-dashboard: the looking-glass core of [flask/app/hello.py]

    A shallow embedding of the prefix resolver ([find_network]), the AS-name
    resolver ([asn_name_query]), the statistics aggregators and the [Stats]
    cache with its two refresh tasks, followed by the properties of the
    design document that concern them.

    The program talks to three outside parties: the MongoDB collection
    [db.bgp], the DNS resolver and the system clock.  Calls to the first
    two are recorded in a log that is threaded through every computation,
    so that "which lookups were made, and in which order" is a statement
    about a value.  Python exceptions are a constructor of the result type
    and [try: ... except: ...] is an operation of the monad. *)

From Stdlib Require Import ZArith List String Ascii Lia Bool SpecFloat Sorted.
From stdpp Require Import base list gmap strings pretty.

Open Scope string_scope.
Open Scope list_scope.
Open Scope Z_scope.

(** ** The Python runtime: exceptions, outside calls, the monad *)

Module Py.

(** The exceptions that the modelled code can meet.  [LibraryError] stands
    for whatever a driver raises (pymongo's [ServerSelectionTimeoutError],
    dnspython's [NXDOMAIN], [Timeout], ...); the program never looks at the
    exception it catches, so the names carry no behaviour. *)
Inductive exn : Type :=
  | ValueError
  | TypeError
  | IndexError
  | ZeroDivisionError
  | OverflowError
  | LibraryError (name : string).

(** What a library function hands back: a value or an exception. *)
Inductive res (A : Type) : Type :=
  | Ok (a : A)
  | Err (e : exn).
Arguments Ok {A} a.
Arguments Err {A} e.

(** What running a piece of the program yields.  [OutOfFuel] is not a
    Python outcome: it marks a recursion that the model cut short, and no
    [except:] clause catches it. *)
Inductive outcome (A : Type) : Type :=
  | Return (a : A)
  | Raise (e : exn)
  | OutOfFuel.
Arguments Return {A} a.
Arguments Raise {A} e.
Arguments OutOfFuel {A}.

(** Calls that leave the process. *)
Inductive call : Type :=
  | DbFindOne (key : string)           (* db.bgp.find_one({'prefix': key}) *)
  | DnsQuery (qname rdtype : string).  (* resolver.query(qname, rdtype) *)

(** The part of the outside world a computation can observe or change: the
    log of the calls made so far and the reading of [time.time()], in whole
    seconds since the epoch. *)
Record world : Type := World { calls : list call; clock : Z }.

Definition log (c : call) (w : world) : world :=
  {| calls := calls w ++ [c]; clock := clock w |}.

Definition M (A : Type) : Type := world -> outcome A * world.

Definition ret {A} (a : A) : M A := fun w => (Return a, w).

Definition bind {A B} (m : M A) (k : A -> M B) : M B :=
  fun w =>
    match m w with
    | (Return a, w') => k a w'
    | (Raise e, w') => (Raise e, w')
    | (OutOfFuel, w') => (OutOfFuel, w')
    end.

Definition raise {A} (e : exn) : M A := fun w => (Raise e, w).

Definition out_of_fuel {A} : M A := fun w => (OutOfFuel, w).

(** [try: body except: handler] with a bare [except:], which catches every
    exception.  What [body] did to the world before raising stays done. *)
Definition try_except {A} (body : M A) (handler : M A) : M A :=
  fun w =>
    match body w with
    | (Raise _, w') => handler w'
    | r => r
    end.

(** A library call that stays inside the process. *)
Definition lift {A} (r : res A) : M A :=
  match r with
  | Ok a => ret a
  | Err e => raise e
  end.

(** A library call that leaves the process: it is logged, whether it
    answers or raises. *)
Definition external {A} (c : call) (r : res A) : M A :=
  fun w => lift r (log c w).

(** [time.time()], truncated to whole seconds as [time.gmtime] does. *)
Definition time_time : M Z := fun w => (Return (clock w), w).

#[global] Instance M_ret : MRet M := @ret.
#[global] Instance M_bind : MBind M := fun A B k m => bind m k.

(** [for x in xs: acc = body(acc, x)], the loop carrying its variables. *)
Fixpoint for_each {A S} (xs : list A) (body : S -> A -> M S) (acc : S) : M S :=
  match xs with
  | [] => ret acc
  | x :: xs' => bind (body acc x) (for_each xs' body)
  end.

(** A list comprehension [[f(x) for x in xs]], evaluated left to right. *)
Fixpoint comprehension {A B} (f : A -> M B) (xs : list A) : M (list B) :=
  match xs with
  | [] => ret []
  | x :: xs' => bind (f x) (fun y => bind (comprehension f xs') (fun ys => ret (y :: ys)))
  end.

(** *** Strings *)

(** [str(n)] for an integer. *)
Definition str_int (n : Z) : string := pretty n.

(** [s.split(sep)] and [s.split(sep, maxsplit)] for a one-character
    separator; [maxsplit = None] is the one-argument form. *)
Fixpoint split (sep : ascii) (maxsplit : option nat) (s : string) : list string :=
  match s with
  | EmptyString => [EmptyString]
  | String c s' =>
      if Ascii.eqb c sep && negb (bool_decide (maxsplit = Some O)) then
        EmptyString :: split sep (Nat.pred <$> maxsplit) s'
      else
        match split sep maxsplit s' with
        | piece :: pieces => String c piece :: pieces
        | [] => [String c EmptyString]
        end
  end.

(** [xs[i]] for a non-negative index, [xs[-1]]. *)
Definition index {A} (xs : list A) (i : nat) : res A :=
  match nth_error xs i with
  | Some x => Ok x
  | None => Err IndexError
  end.

Definition index_last {A} (xs : list A) : res A :=
  match List.rev xs with
  | x :: _ => Ok x
  | [] => Err IndexError
  end.

(** [c.isspace()] on the ASCII range: tab to carriage return, the four
    separators 0x1c-0x1f, and the space. *)
Definition isspace (c : ascii) : bool :=
  let n := nat_of_ascii c in
  ((9 <=? n) && (n <=? 13) || (28 <=? n) && (n <=? 32))%nat.

Fixpoint lstrip (s : string) : string :=
  match s with
  | String c s' => if isspace c then lstrip s' else s
  | EmptyString => EmptyString
  end.

Fixpoint rstrip (s : string) : string :=
  match s with
  | EmptyString => EmptyString
  | String c s' =>
      match rstrip s' with
      | EmptyString => if isspace c then EmptyString else String c EmptyString
      | t => String c t
      end
  end.

Definition strip (s : string) : string := rstrip (lstrip s).

(** [needle in haystack] for strings. *)
Fixpoint contains (needle haystack : string) : bool :=
  String.prefix needle haystack ||
  match haystack with
  | EmptyString => false
  | String _ rest => contains needle rest
  end.

(** [int(s)] for a string: surrounding whitespace, an optional sign, decimal
    digits, single underscores allowed between digits. *)
Definition digit (c : ascii) : option Z :=
  let n := nat_of_ascii c in
  if ((48 <=? n) && (n <=? 57))%nat then Some (Z.of_nat n - 48) else None.

Fixpoint int_digits (acc : Z) (after_digit : bool) (s : string) : res Z :=
  match s with
  | EmptyString => if after_digit then Ok acc else Err ValueError
  | String c s' =>
      match digit c with
      | Some d => int_digits (10 * acc + d) true s'
      | None =>
          if Ascii.eqb c "_" && after_digit then int_digits acc false s'
          else Err ValueError
      end
  end.

Definition int (s : string) : res Z :=
  match strip s with
  | String "-" s' => match int_digits 0 false s' with Ok n => Ok (- n) | Err e => Err e end
  | String "+" s' => int_digits 0 false s'
  | s' => int_digits 0 false s'
  end.

End Py.

(** *** Floats

    Python's [float] is IEEE 754 binary64.  [SpecFloat] gives its
    operations on the triple sign, mantissa, exponent, round to nearest
    even, with nothing assumed. *)

Module PyFloat.
Import Py.

Definition float : Type := spec_float.
Definition prec : Z := 53.
Definition emax : Z := 1024.

(** [float(n)] for an integer: the nearest float, or [OverflowError] when
    that is beyond the largest finite one. *)
Definition of_int (n : Z) : res float :=
  match binary_normalize prec emax n 0 false with
  | S754_infinity _ => Err OverflowError
  | f => Ok f
  end.

(** The literal [1.0]. *)
Definition one : float := S754_finite false 4503599627370496 (-52).

Definition is_zero (x : float) : bool :=
  match x with
  | S754_zero _ => true
  | _ => false
  end.

(** [n * y] for an integer [n] and a float [y]. *)
Definition int_mul (n : Z) (y : float) : res float :=
  match of_int n with
  | Ok x => Ok (SFmul prec emax x y)
  | Err e => Err e
  end.

(** [n / y] for an integer [n] and a float [y]: the integer is converted
    first, then a zero divisor is refused. *)
Definition int_truediv (n : Z) (y : float) : res float :=
  match of_int n with
  | Ok x => if is_zero y then Err ZeroDivisionError else Ok (SFdiv prec emax x y)
  | Err e => Err e
  end.

(** The integer nearest to [num * 2^e], ties to even. *)
Definition nearest_even (num e : Z) : Z :=
  if 0 <=? e then num * 2 ^ e
  else
    let den := 2 ^ (- e) in
    let q := num / den in
    let r := num mod den in
    if 2 * r <? den then q
    else if den <? 2 * r then q + 1
    else if Z.even q then q else q + 1.

(** [round(x, ndigits)] for [ndigits >= 0]: the exact value of [x] is
    rounded to [ndigits] decimals, ties to even, and the decimal obtained
    is converted back to the nearest float.  Beyond 323 digits, and for
    zeros, infinities and NaN, [x] comes back as it is. *)
Definition round (x : float) (ndigits : nat) : float :=
  match x with
  | S754_finite s m e =>
      if (323 <? ndigits)%nat then x
      else
        let scale := 10 ^ Z.of_nat ndigits in
        match nearest_even (Zpos m * scale) e with
        | Zpos p => SFdiv prec emax (S754_finite s p 0) (S754_finite false (Z.to_pos scale) 0)
        | _ => S754_zero s
        end
  | _ => x
  end.

End PyFloat.

(** *** Time *)

Module PyTime.
Import Py.

(** Year, month and day of a day count since 1970-01-01, in the proleptic
    Gregorian calendar, as [time.gmtime] computes them. *)
Definition civil_from_days (days : Z) : Z * Z * Z :=
  let z := days + 719468 in
  let era := z / 146097 in
  let doe := z - era * 146097 in
  let yoe := (doe - doe / 1460 + doe / 36524 - doe / 146096) / 365 in
  let doy := doe - (365 * yoe + yoe / 4 - yoe / 100) in
  let mp := (5 * doy + 2) / 153 in
  let d := doy - (153 * mp + 2) / 5 + 1 in
  let m := if mp <? 10 then mp + 3 else mp - 9 in
  let y := yoe + era * 400 + (if m <=? 2 then 1 else 0) in
  (y, m, d).

(** A field of [strftime] padded with a zero to two digits. *)
Definition two_digits (n : Z) : string :=
  if n <? 10 then "0" +:+ str_int n else str_int n.

(** [time.strftime('%Y-%m-%d %H:%M:%S %Z', time.gmtime(epoch))]; what [%Z]
    prints depends on the platform and is the parameter [zone]. *)
Definition strftime_gmtime (zone : string) (epoch : Z) : string :=
  let '(y, m, d) := civil_from_days (epoch / 86400) in
  let secs := epoch mod 86400 in
  str_int y +:+ "-" +:+ two_digits m +:+ "-" +:+ two_digits d +:+ " " +:+
  two_digits (secs / 3600) +:+ ":" +:+ two_digits (secs mod 3600 / 60) +:+ ":" +:+
  two_digits (secs mod 60) +:+ " " +:+ zone.

End PyTime.

(** ** The data model: one document of [db.bgp] *)

Module Route.

(** A field that may be null (or missing) in the document is an option. *)
Record entry : Type := Entry {
  prefix : string;
  ip_version : Z;
  origin_as : option Z;
  next_hop_asn : option Z;
  nexthop : string;
  as_path : option (list Z);
  communities : list string;
  med : Z;
  local_pref : Z;
  timestamp : Z
}.

End Route.

(** ** The [ipaddress] module: addresses, networks, [supernet] *)

Module ipaddress.
Import Py.

Inductive address : Type :=
  | IPv4Address (n : Z)
  | IPv6Address (n : Z).

Definition version (a : address) : Z :=
  match a with
  | IPv4Address _ => 4
  | IPv6Address _ => 6
  end.

Definition int_of (a : address) : Z :=
  match a with
  | IPv4Address n => n
  | IPv6Address n => n
  end.

Definition max_prefixlen (v : Z) : Z := if v =? 4 then 32 else 128.

Definition ALL_ONES (v : Z) : Z := 2 ^ max_prefixlen v - 1.

Record network : Type := Network {
  net_version : Z;
  network_address : Z;
  prefixlen : Z
}.

(** [int(self.netmask)]: the [prefixlen] leading bits set. *)
Definition netmask (self : network) : Z :=
  Z.lxor (ALL_ONES (net_version self))
         (Z.shiftr (ALL_ONES (net_version self)) (prefixlen self)).

(** [ip_network(a)] for an address object: the network of that one host. *)
Definition ip_network (a : address) : network :=
  {| net_version := version a;
     network_address := int_of a;
     prefixlen := max_prefixlen (version a) |}.

(** [self.supernet(new_prefix=new_prefix)]. *)
Definition supernet (self : network) (new_prefix : Z) : res network :=
  if prefixlen self =? 0 then Ok self
  else if prefixlen self <? new_prefix then Err ValueError
  else
    let prefixlen_diff := prefixlen self - new_prefix in
    let new_prefixlen := prefixlen self - prefixlen_diff in
    if new_prefixlen <? 0 then Err ValueError
    else Ok {| net_version := net_version self;
               network_address :=
                 Z.land (network_address self) (Z.shiftl (netmask self) prefixlen_diff);
               prefixlen := new_prefixlen |}.

End ipaddress.

(** ** PrefixResolver: [find_network] *)

Section PrefixResolver.
Import Py ipaddress.

(** The two ends of the [ipaddress] module that are text: parsing an
    address ([ValueError] on anything else) and printing a network.  The
    properties below hold whatever these two do. *)
Variable ip_address : string -> res address.
Variable str_network : network -> string.

(** The collection behind [db.bgp.find_one({'prefix': key})]: for every key
    the document found, [None], or the driver's exception. *)
Variable find_one : string -> res (option Route.entry).

Definition db_find_one (key : string) : M (option Route.entry) :=
  external (DbFindOne key) (find_one key).

(** [find_network(ip, netmask)].  [db_connect()] builds a client object and
    sends nothing, so it leaves no trace here.  The recursion of the source
    is on an integer; [fuel] bounds its depth and [find_network] below gives
    it what it needs. *)
Fixpoint find_network_fuel (fuel : nat) (ip : string) (netmask : Z)
  : M (option Route.entry) :=
  match fuel with
  | O => out_of_fuel
  | S fuel' =>
      try_except
        (a ← lift (ip_address ip);
         if version a =? 4 then
           a ← lift (ip_address ip);
           net ← lift (supernet (ip_network a) netmask);
           let network := str_network net in
           result ← db_find_one network;
           match result with
           | Some r => ret (Some r)
           | None =>
               if netmask =? 0 then ret None
               else find_network_fuel fuel' ip (netmask - 1)
           end
         else
           a ← lift (ip_address ip);
           if version a =? 6 then
             a ← lift (ip_address ip);
             net ← lift (supernet (ip_network a) (netmask + 32));
             let network := str_network net in
             result ← db_find_one network;
             match result with
             | Some r => ret (Some r)
             | None =>
                 if netmask =? 0 then ret None
                 else find_network_fuel fuel' ip (netmask - 1)
             end
           else ret None)
        (ret None)
  end.

(** Depth enough for every [netmask]: the recursion stops at [netmask = 0],
    and below zero [supernet] raises at the latest when [netmask + 32]
    turns negative. *)
Definition find_network_depth (netmask : Z) : nat := S (Z.to_nat (netmask + 33)).

Definition find_network (ip : string) (netmask : Z) : M (option Route.entry) :=
  find_network_fuel (find_network_depth netmask) ip netmask.

(** The entry point of both routes ([/bgp/api/v1.0/ip/<ip>] and
    [/search/<query>]): [find_network(ip, netmask=32)]. *)
Definition resolve (ip : string) : M (option Route.entry) := find_network ip 32.

End PrefixResolver.

(** [find_one] against a table that answers: the first document, in the
    collection's order, whose [prefix] is the key, byte for byte. *)
Definition find_one_in (docs : list Route.entry) (key : string)
  : Py.res (option Route.entry) :=
  Py.Ok (List.find (fun e => String.eqb (Route.prefix e) key) docs).

(** *** A reference implementation of the textual ends of [ipaddress]

    Dotted quads and colon-separated hextets with one optional [::], read
    and printed as CPython does.  (An embedded dotted quad and a zone
    suffix in an IPv6 address are not read.)  It serves to run the resolver
    on concrete addresses. *)

Module IpText.
Import Py ipaddress.

Definition all_chars (p : ascii -> bool) (s : string) : bool :=
  forallb p (list_ascii_of_string s).

Definition is_digit (c : ascii) : bool :=
  match digit c with Some _ => true | None => false end.

Definition hex_digit (c : ascii) : option Z :=
  let n := nat_of_ascii c in
  if ((48 <=? n) && (n <=? 57))%nat then Some (Z.of_nat n - 48)
  else if ((97 <=? n) && (n <=? 102))%nat then Some (Z.of_nat n - 87)
  else if ((65 <=? n) && (n <=? 70))%nat then Some (Z.of_nat n - 55)
  else None.

(** One octet: one to three digits, no leading zero, at most 255. *)
Definition parse_octet (s : string) : res Z :=
  if negb (all_chars is_digit s) then Err ValueError
  else if (3 <? String.length s)%nat || (String.length s =? 0)%nat then Err ValueError
  else if (1 <? String.length s)%nat && String.prefix "0" s then Err ValueError
  else match int_digits 0 false s with
       | Ok n => if 255 <? n then Err ValueError else Ok n
       | Err e => Err e
       end.

(** One hextet: one to four hexadecimal digits. *)
Definition parse_hextet (s : string) : res Z :=
  if (4 <? String.length s)%nat || (String.length s =? 0)%nat then Err ValueError
  else
    fold_left
      (fun acc c =>
         match acc, hex_digit c with
         | Ok n, Some d => Ok (16 * n + d)
         | _, _ => Err ValueError
         end)
      (list_ascii_of_string s) (Ok 0).

(** Big-endian value of a list of fields of [width] bits each. *)
Fixpoint pack (parse : string -> res Z) (width : Z) (acc : Z) (fields : list string) : res Z :=
  match fields with
  | [] => Ok acc
  | f :: fields' =>
      match parse f with
      | Ok n => pack parse width (Z.shiftl acc width + n) fields'
      | Err e => Err e
      end
  end.

Definition parse_v4 (s : string) : res Z :=
  let octets := split "." None s in
  if negb (List.length octets =? 4)%nat then Err ValueError
  else pack parse_octet 8 0 octets.

(** The position of the one empty field that [::] leaves among the inner
    fields, when there is exactly one; [Err] when there are several. *)
Fixpoint skip_index (i : nat) (inner : list string) : res (option nat) :=
  match inner with
  | [] => Ok None
  | f :: inner' =>
      match skip_index (S i) inner' with
      | Err e => Err e
      | Ok found =>
          if String.eqb f "" then
            match found with
            | Some _ => Err ValueError
            | None => Ok (Some i)
            end
          else Ok found
      end
  end.

Definition parse_v6 (s : string) : res Z :=
  let parts := split ":" None s in
  let n := List.length parts in
  if (n <? 3)%nat || (9 <? n)%nat then Err ValueError
  else
    let first := nth O parts "" in
    let last := nth (n - 1) parts "" in
    match skip_index 1 (firstn (n - 2) (skipn 1 parts)) with
    | Err e => Err e
    | Ok (Some k) =>
        let hi := if String.eqb first "" then (k - 1)%nat else k in
        let lo := if String.eqb last "" then (n - k - 2)%nat else (n - k - 1)%nat in
        if String.eqb first "" && negb (hi =? 0)%nat then Err ValueError
        else if String.eqb last "" && negb (lo =? 0)%nat then Err ValueError
        else if (8 <=? hi + lo)%nat then Err ValueError
        else
          match pack parse_hextet 16 0 (firstn hi parts) with
          | Err e => Err e
          | Ok high =>
              pack parse_hextet 16
                   (Z.shiftl high (16 * Z.of_nat (8 - (hi + lo))))
                   (skipn (n - lo) parts)
          end
    | Ok None =>
        if negb (n =? 8)%nat then Err ValueError
        else pack parse_hextet 16 0 parts
    end.

(** [ipaddress.ip_address(s)]: an IPv4 address if it reads as one, else an
    IPv6 address, else [ValueError]. *)
Definition ip_address (s : string) : res address :=
  match parse_v4 s with
  | Ok n => Ok (IPv4Address n)
  | Err _ =>
      match parse_v6 s with
      | Ok n => Ok (IPv6Address n)
      | Err e => Err e
      end
  end.

(** The fields of an address, most significant first. *)
Fixpoint fields (count : nat) (width : Z) (n : Z) : list Z :=
  match count with
  | O => []
  | S count' =>
      Z.land (Z.shiftr n (width * Z.of_nat count')) (2 ^ width - 1)
      :: fields count' width n
  end.

Definition join (sep : string) (pieces : list string) : string :=
  match pieces with
  | [] => ""
  | p :: ps => fold_left (fun acc q => acc +:+ sep +:+ q) ps p
  end.

Definition hex_char (d : Z) : string :=
  String (ascii_of_nat (Z.to_nat (if d <? 10 then d + 48 else d + 87))) "".

Fixpoint drop_zeros (ds : list Z) : list Z :=
  match ds with
  | d :: ds' => if d =? 0 then drop_zeros ds' else ds
  | [] => []
  end.

(** [%x] of a hextet: lower case, no leading zero. *)
Definition hex (n : Z) : string :=
  match drop_zeros (fields 4 4 n) with
  | [] => "0"
  | ds => join "" (hex_char <$> ds)
  end.

(** The first longest run of zero hextets: its start and its length. *)
Fixpoint best_run (i : nat) (cur_start cur_len : nat) (best : nat * nat) (hs : list Z)
  : nat * nat :=
  match hs with
  | [] => best
  | h :: hs' =>
      if h =? 0 then
        let cur_start := if (cur_len =? 0)%nat then i else cur_start in
        let cur_len := S cur_len in
        let best := if (snd best <? cur_len)%nat then (cur_start, cur_len) else best in
        best_run (S i) cur_start cur_len best hs'
      else best_run (S i) cur_start O best hs'
  end.

Definition str_v6 (n : Z) : string :=
  let hs := fields 8 16 n in
  let '(start, len) := best_run 0 0 0 (O, O) hs in
  if (1 <? len)%nat then
    join ":" (hex <$> firstn start hs) +:+ "::" +:+
    join ":" (hex <$> skipn (start + len) hs)
  else join ":" (hex <$> hs).

Definition str_v4 (n : Z) : string := join "." (str_int <$> fields 4 8 n).

(** [str(net)] for a network: the address, a slash, the prefix length. *)
Definition str_network (net : network) : string :=
  (if net_version net =? 4 then str_v4 (network_address net)
   else str_v6 (network_address net)) +:+ "/" +:+ str_int (prefixlen net).

End IpText.

(** ** NameResolver: [asn_name_query] *)

Definition _DEFAULT_ASN : Z := 3701.
Definition _CUSTOMER_BGP_COMMUNITY : string := "3701:370".

Section NameResolver.
Import Py.

(** [dns.resolver.Resolver().query(qname, rdtype)]: the records of the
    answer, each as [str(rdata)] prints it, or the resolver's exception. *)
Variable resolver_query : string -> string -> res (list string).

Definition dns_query (qname rdtype : string) : M (list string) :=
  external (DnsQuery qname rdtype) (resolver_query qname rdtype).

(** [asn_name_query(asn)].  [None] is what a Python function returns when
    it falls off its end. *)
Definition asn_name_query (asn : option Z) : M (option string) :=
  let asn := match asn with None => _DEFAULT_ASN | Some n => n end in
  if (64512 <=? asn) && (asn <=? 65534) then
    ret (Some "RFC6996 - Private Use ASN")
  else
    try_except
      (let query := "as" +:+ str_int asn +:+ ".asn.cymru.com" in
       answers ← dns_query query "TXT";
       match answers with
       | rdata :: _ =>
           last ← lift (index_last (split "|" None rdata));
           first ← lift (index (split "," (Some 2%nat) last) 0);
           ret (Some (strip first))
       | [] => ret None
       end)
      (ret (Some "(DNS Error)")).

End NameResolver.

(** ** The queries made on the collection

    The aggregators read the collection through [find], [count] and
    [distinct].  They are answered here from the documents it holds, in
    their natural order. *)

Module Mongo.

Definition find (query : Route.entry -> bool) (docs : list Route.entry)
  : list Route.entry :=
  List.filter query docs.

(** [cursor.count()], as pymongo 3 has it: the number of documents of the
    query, whether or not the cursor was iterated. *)
Definition count (cursor : list Route.entry) : Z := Z.of_nat (List.length cursor).

(** [distinct(field)]: the values of the field over all documents, the
    elements of an array field taken one by one, without repetition.
    MongoDB promises no order. *)
Definition distinct {A} `{EqDecision A} (field : Route.entry -> list A)
    (docs : list Route.entry) : list A :=
  remove_dups (concat (field <$> docs)).

End Mongo.

(** ** StatsAggregator *)

(** The rows of the JSON lists. *)
Record PeerRow : Type := {
  peer_asn : Z;
  peer_name : option string;
  peer_ipv4_count : Z;
  peer_ipv6_count : Z
}.

Record TopPeerRow : Type := {
  top_asn : option Z;
  top_count : Z;
  top_name : option string
}.

Record CidrRow : Type := {
  cidr_mask : Z;
  cidr_count : Z;
  cidr_ip_version : Z
}.

Record CommunityRow : Type := {
  comm_community : string;
  comm_count : Z
}.

(** [sorted(items, key=key, reverse=True)]: descending, and stable, so
    items of equal key keep their order. *)
Fixpoint insert_desc {A} (key : A -> Z) (x : A) (sorted : list A) : list A :=
  match sorted with
  | [] => [x]
  | y :: ys => if key y <=? key x then x :: sorted else y :: insert_desc key x ys
  end.

Definition sorted_reverse {A} (key : A -> Z) (items : list A) : list A :=
  fold_right (insert_desc key) [] items.

(** [take(n, iterable)]. *)
Definition take {A} (n : nat) (iterable : list A) : list A := firstn n iterable.

(** [list(Counter(xs).items())]: a dictionary from each value to its
    number of occurrences, listed in the order of first insertion. *)
Fixpoint Counter_add (x : Z) (counts : list (Z * Z)) : list (Z * Z) :=
  match counts with
  | [] => [(x, 1)]
  | (y, n) :: rest =>
      if x =? y then (y, n + 1) :: rest else (y, n) :: Counter_add x rest
  end.

Definition Counter_items (xs : list Z) : list (Z * Z) :=
  fold_left (fun counts x => Counter_add x counts) xs [].

Section StatsAggregator.
Import Py.

(** The documents of [db.bgp] while the aggregators run. *)
Variable docs : list Route.entry.

(** The DNS resolver, as in [NameResolver]. *)
Variable resolver_query : string -> string -> res (list string).

(** The server's regular-expression engine, for [{'$regex': pattern}]: a
    pattern that compiles gives a test on strings (an unanchored search),
    one that does not makes the query fail. *)
Variable regex : string -> res (string -> bool).

(** What [%Z] prints on the platform. *)
Variable zone : string.

(** [peer_count()]. *)
Definition peer_count : M Z :=
  ret (Z.of_nat (List.length (Mongo.distinct (fun e => [Route.next_hop_asn e]) docs))).

(** [prefix_count(version)]. *)
Definition prefix_count (version : Z) : M Z :=
  ret (Mongo.count (Mongo.find (fun e => Route.ip_version e =? version) docs)).

(** [nexthop_ip_count()]. *)
Definition nexthop_ip_count : M Z :=
  ret (Z.of_nat (List.length (Mongo.distinct (fun e => [Route.nexthop e]) docs))).

(** [epoch_to_date(epoch)]. *)
Definition epoch_to_date (epoch : Z) : string := PyTime.strftime_gmtime zone epoch.

(** [prefix['as_path']] handed to [set(...)]: a missing or null field
    raises. *)
Definition as_path_of (prefix : Route.entry) : res (list Z) :=
  match Route.as_path prefix with
  | Some path => Ok path
  | None => Err TypeError
  end.

(** [avg_as_path_length()]. *)
Definition avg_as_path_length : M PyFloat.float :=
  let all_prefixes := Mongo.find (fun _ => true) docs in
  as_path_counter ←
    for_each all_prefixes
      (fun as_path_counter prefix =>
         try_except
           (path ← lift (as_path_of prefix);
            ret (as_path_counter + Z.of_nat (size (list_to_set path : gset Z))))
           (ret as_path_counter))
      0;
  divisor ← lift (PyFloat.int_mul (Mongo.count all_prefixes) PyFloat.one);
  quotient ← lift (PyFloat.int_truediv as_path_counter divisor);
  ret (PyFloat.round quotient 3).

(** The documents of one peer: [{'next_hop_asn': asn}]. *)
Definition of_peer (asn : option Z) (e : Route.entry) : bool :=
  bool_decide (Route.next_hop_asn e = asn).

(** [top_peers(count)]. *)
Definition top_peers (count : nat) : M (list TopPeerRow) :=
  let peers :=
    (fun peer => (peer, Mongo.count (Mongo.find (of_peer peer) docs)))
      <$> Mongo.distinct (fun e => [Route.next_hop_asn e]) docs in
  comprehension
    (fun asn : option Z * Z =>
       name ← asn_name_query resolver_query (fst asn);
       ret {| top_asn := fst asn; top_count := snd asn; top_name := name |})
    (take count (sorted_reverse snd peers)).

(** The loop shared by [peers()] and [customers()]: one row per peer of
    [myset], and the running totals that [customers()] keeps. *)
Definition peer_rows (myset : gset (option Z)) : M (list PeerRow * Z * Z) :=
  for_each (elements myset)
    (fun '(json_data, ipv4_prefix_counter, ipv6_prefix_counter) asn =>
       let ipv4_count :=
         Mongo.count (Mongo.find (fun e => of_peer asn e && (Route.ip_version e =? 4)) docs) in
       let ipv6_count :=
         Mongo.count (Mongo.find (fun e => of_peer asn e && (Route.ip_version e =? 6)) docs) in
       let asn := match asn with None => _DEFAULT_ASN | Some n => n end in
       name ← asn_name_query resolver_query (Some asn);
       ret (json_data ++ [{| peer_asn := asn; peer_name := name;
                             peer_ipv4_count := ipv4_count;
                             peer_ipv6_count := ipv6_count |}],
            ipv4_prefix_counter + ipv4_count,
            ipv6_prefix_counter + ipv6_count))
    ([], 0, 0).

(** The first loop of both: [myset.add(prefix['next_hop_asn'])]. *)
Definition next_hop_set (cursor : list Route.entry) : gset (option Z) :=
  fold_left (fun myset prefix => myset ∪ {[Route.next_hop_asn prefix]}) cursor ∅.

(** [peers()]. *)
Definition peers : M (list PeerRow) :=
  let peers_list := Mongo.find (fun _ => true) docs in
  '(json_data, _, _) ← peer_rows (next_hop_set peers_list);
  ret json_data.

(** [customers()]: the peers that announce a route tagged ['3701:370']. *)
Definition customers : M (list PeerRow * Z * Z) :=
  let customers_list :=
    Mongo.find (fun e => bool_decide ("3701:370" ∈ Route.communities e)) docs in
  peer_rows (next_hop_set customers_list).

(** [int(prefix['prefix'].split('/', 1)[1])]. *)
Definition mask_of (prefix : Route.entry) : res Z :=
  match index (split "/" (Some 1%nat) (Route.prefix prefix)) 1 with
  | Ok text => int text
  | Err e => Err e
  end.

(** [int(prefix['origin_as'])]. *)
Definition int_origin_as (prefix : Route.entry) : res Z :=
  match Route.origin_as prefix with
  | Some n => Ok n
  | None => Err TypeError
  end.

(** [cidr_breakdown()].  The list of too-specific IPv4 routes is built and
    then dropped, as in the source; building it can raise. *)
Definition cidr_breakdown : M (list CidrRow) :=
  let all_prefixes := Mongo.find (fun _ => true) docs in
  '(ipv4_list, ipv6_list, bads_list) ←
    for_each all_prefixes
      (fun '(ipv4_list, ipv6_list, bads_list) prefix =>
         '(ipv4_list, bads_list) ←
           (if Route.ip_version prefix =? 4 then
              mask ← lift (mask_of prefix);
              let ipv4_list := ipv4_list ++ [mask] in
              mask ← lift (mask_of prefix);
              if 24 <? mask then
                origin ← lift (int_origin_as prefix);
                ret (ipv4_list, bads_list ++ [(origin, Route.prefix prefix)])
              else ret (ipv4_list, bads_list)
            else ret (ipv4_list, bads_list));
         if Route.ip_version prefix =? 6 then
           mask ← lift (mask_of prefix);
           ret (ipv4_list, ipv6_list ++ [mask], bads_list)
         else ret (ipv4_list, ipv6_list, bads_list))
      ([], [], []);
  let ipv4_count := Counter_items ipv4_list in
  let ipv6_count := Counter_items ipv6_list in
  let json_data :=
    (fun '(mask, count) =>
       {| cidr_mask := mask; cidr_count := count; cidr_ip_version := 4 |}) <$> ipv4_count in
  let json_data :=
    json_data ++
    ((fun '(mask, count) =>
        {| cidr_mask := mask; cidr_count := count; cidr_ip_version := 6 |}) <$> ipv6_count) in
  ret json_data.

(** The documents that [{'communities': {'$regex': comm}}] selects: those
    with a community in which the pattern is found. *)
Definition matching (matcher : string -> bool) (e : Route.entry) : bool :=
  existsb matcher (Route.communities e).

(** [communities_count()]. *)
Definition communities_count : M (list CommunityRow) :=
  let communities := Mongo.distinct Route.communities docs in
  for_each communities
    (fun json_data comm =>
       matcher ← lift (regex comm);
       ret (json_data ++
            [{| comm_community := comm;
                comm_count := Mongo.count (Mongo.find (matching matcher) docs) |}]))
    [].

End StatsAggregator.

(** ** StatsCache: the class [Stats] *)

(** [avg_as_path_length] starts as the integer [0] and is a float after the
    first slow refresh. *)
Inductive number : Type :=
  | Int (n : Z)
  | Float (f : PyFloat.float).

Module Stats.

(** The attributes of the one object [myStats]. *)
Record t : Type := Make {
  peer_counter : Z;
  ipv4_table_size : Z;
  ipv6_table_size : Z;
  nexthop_ip_counter : Z;
  avg_as_path_length : number;
  top_n_peers : option (list TopPeerRow);
  cidr_breakdown : option (list CidrRow);
  communities : option (list CommunityRow);
  peers : option (list PeerRow);
  customers : option (list PeerRow);
  customer_count : Z;
  customer_ipv4_prefixes : Z;
  customer_ipv6_prefixes : Z;
  timestamp : string
}.

(** [self.attribute = v], one per attribute. *)
Definition set_peer_counter (v : Z) (self : t) : t :=
  let 'Make _ a2 a3 a4 a5 a6 a7 a8 a9 a10 a11 a12 a13 a14 := self in
  Make v a2 a3 a4 a5 a6 a7 a8 a9 a10 a11 a12 a13 a14.
Definition set_ipv4_table_size (v : Z) (self : t) : t :=
  let 'Make a1 _ a3 a4 a5 a6 a7 a8 a9 a10 a11 a12 a13 a14 := self in
  Make a1 v a3 a4 a5 a6 a7 a8 a9 a10 a11 a12 a13 a14.
Definition set_ipv6_table_size (v : Z) (self : t) : t :=
  let 'Make a1 a2 _ a4 a5 a6 a7 a8 a9 a10 a11 a12 a13 a14 := self in
  Make a1 a2 v a4 a5 a6 a7 a8 a9 a10 a11 a12 a13 a14.
Definition set_nexthop_ip_counter (v : Z) (self : t) : t :=
  let 'Make a1 a2 a3 _ a5 a6 a7 a8 a9 a10 a11 a12 a13 a14 := self in
  Make a1 a2 a3 v a5 a6 a7 a8 a9 a10 a11 a12 a13 a14.
Definition set_avg_as_path_length (v : number) (self : t) : t :=
  let 'Make a1 a2 a3 a4 _ a6 a7 a8 a9 a10 a11 a12 a13 a14 := self in
  Make a1 a2 a3 a4 v a6 a7 a8 a9 a10 a11 a12 a13 a14.
Definition set_top_n_peers (v : option (list TopPeerRow)) (self : t) : t :=
  let 'Make a1 a2 a3 a4 a5 _ a7 a8 a9 a10 a11 a12 a13 a14 := self in
  Make a1 a2 a3 a4 a5 v a7 a8 a9 a10 a11 a12 a13 a14.
Definition set_cidr_breakdown (v : option (list CidrRow)) (self : t) : t :=
  let 'Make a1 a2 a3 a4 a5 a6 _ a8 a9 a10 a11 a12 a13 a14 := self in
  Make a1 a2 a3 a4 a5 a6 v a8 a9 a10 a11 a12 a13 a14.
Definition set_communities (v : option (list CommunityRow)) (self : t) : t :=
  let 'Make a1 a2 a3 a4 a5 a6 a7 _ a9 a10 a11 a12 a13 a14 := self in
  Make a1 a2 a3 a4 a5 a6 a7 v a9 a10 a11 a12 a13 a14.
Definition set_peers (v : option (list PeerRow)) (self : t) : t :=
  let 'Make a1 a2 a3 a4 a5 a6 a7 a8 _ a10 a11 a12 a13 a14 := self in
  Make a1 a2 a3 a4 a5 a6 a7 a8 v a10 a11 a12 a13 a14.
Definition set_customers (v : option (list PeerRow)) (self : t) : t :=
  let 'Make a1 a2 a3 a4 a5 a6 a7 a8 a9 _ a11 a12 a13 a14 := self in
  Make a1 a2 a3 a4 a5 a6 a7 a8 a9 v a11 a12 a13 a14.
Definition set_customer_count (v : Z) (self : t) : t :=
  let 'Make a1 a2 a3 a4 a5 a6 a7 a8 a9 a10 _ a12 a13 a14 := self in
  Make a1 a2 a3 a4 a5 a6 a7 a8 a9 a10 v a12 a13 a14.
Definition set_customer_ipv4_prefixes (v : Z) (self : t) : t :=
  let 'Make a1 a2 a3 a4 a5 a6 a7 a8 a9 a10 a11 _ a13 a14 := self in
  Make a1 a2 a3 a4 a5 a6 a7 a8 a9 a10 a11 v a13 a14.
Definition set_customer_ipv6_prefixes (v : Z) (self : t) : t :=
  let 'Make a1 a2 a3 a4 a5 a6 a7 a8 a9 a10 a11 a12 _ a14 := self in
  Make a1 a2 a3 a4 a5 a6 a7 a8 a9 a10 a11 a12 v a14.
Definition set_timestamp (v : string) (self : t) : t :=
  let 'Make a1 a2 a3 a4 a5 a6 a7 a8 a9 a10 a11 a12 a13 _ := self in
  Make a1 a2 a3 a4 a5 a6 a7 a8 a9 a10 a11 a12 a13 v.

End Stats.

(** The dictionary that [get_data] returns and [get_json] serialises, key
    by key. *)
Module Snapshot.

Record t : Type := Make {
  peer_count : Z;
  ipv4_table_size : Z;
  ipv6_table_size : Z;
  nexthop_ip_count : Z;
  avg_as_path_length : number;
  top_n_peers : option (list TopPeerRow);
  cidr_breakdown : option (list CidrRow);
  communities : option (list CommunityRow);
  peers : option (list PeerRow);
  customers : option (list PeerRow);
  customer_count : Z;
  customer_ipv4_prefixes : Z;
  customer_ipv6_prefixes : Z;
  timestamp : string
}.

End Snapshot.

Section StatsCache.
Import Py.

Variable docs : list Route.entry.
Variable resolver_query : string -> string -> res (list string).
Variable regex : string -> res (string -> bool).
Variable zone : string.

(** [flask.jsonify]: some function from the dictionary to the bytes sent. *)
Variable jsonify : Snapshot.t -> string.

(** [Stats.__init__]: the defaults, and the time of creation. *)
Definition Stats_new (timestamp : string) : Stats.t :=
  {| Stats.peer_counter := 0;
     Stats.ipv4_table_size := 0;
     Stats.ipv6_table_size := 0;
     Stats.nexthop_ip_counter := 0;
     Stats.avg_as_path_length := Int 0;
     Stats.top_n_peers := None;
     Stats.cidr_breakdown := None;
     Stats.communities := None;
     Stats.peers := None;
     Stats.customers := None;
     Stats.customer_count := 0;
     Stats.customer_ipv4_prefixes := 0;
     Stats.customer_ipv6_prefixes := 0;
     Stats.timestamp := timestamp |}.

Definition Stats_init : M Stats.t :=
  now ← time_time;
  ret (Stats_new (epoch_to_date zone now)).

(** [Stats.get_data]. *)
Definition get_data (self : Stats.t) : Snapshot.t :=
  {| Snapshot.peer_count := Stats.peer_counter self;
     Snapshot.ipv6_table_size := Stats.ipv6_table_size self;
     Snapshot.ipv4_table_size := Stats.ipv4_table_size self;
     Snapshot.nexthop_ip_count := Stats.nexthop_ip_counter self;
     Snapshot.avg_as_path_length := Stats.avg_as_path_length self;
     Snapshot.top_n_peers := Stats.top_n_peers self;
     Snapshot.cidr_breakdown := Stats.cidr_breakdown self;
     Snapshot.communities := Stats.communities self;
     Snapshot.peers := Stats.peers self;
     Snapshot.customers := Stats.customers self;
     Snapshot.customer_count := Stats.customer_count self;
     Snapshot.customer_ipv4_prefixes := Stats.customer_ipv4_prefixes self;
     Snapshot.customer_ipv6_prefixes := Stats.customer_ipv6_prefixes self;
     Snapshot.timestamp := Stats.timestamp self |}.

(** [Stats.get_json]. *)
Definition get_json (self : Stats.t) : string :=
  jsonify
    {| Snapshot.peer_count := Stats.peer_counter self;
       Snapshot.ipv4_table_size := Stats.ipv4_table_size self;
       Snapshot.ipv6_table_size := Stats.ipv6_table_size self;
       Snapshot.nexthop_ip_count := Stats.nexthop_ip_counter self;
       Snapshot.avg_as_path_length := Stats.avg_as_path_length self;
       Snapshot.top_n_peers := Stats.top_n_peers self;
       Snapshot.cidr_breakdown := Stats.cidr_breakdown self;
       Snapshot.communities := Stats.communities self;
       Snapshot.peers := Stats.peers self;
       Snapshot.customers := Stats.customers self;
       Snapshot.customer_count := Stats.customer_count self;
       Snapshot.customer_ipv4_prefixes := Stats.customer_ipv4_prefixes self;
       Snapshot.customer_ipv6_prefixes := Stats.customer_ipv6_prefixes self;
       Snapshot.timestamp := Stats.timestamp self |}.

(** One statement [self.attribute = expression]: the expression is
    evaluated, which may call out and may raise, and then the attribute is
    stored.  No expression of the two refresh methods reads [self]. *)
Definition statement : Type := M (Stats.t -> Stats.t).

Definition assign {A} (expression : M A) (store : A -> Stats.t -> Stats.t) : statement :=
  v ← expression;
  ret (store v).

(** The body of [update_stats], statement by statement. *)
Definition update_stats_body : list statement :=
  [ assign (peer_count docs) Stats.set_peer_counter;
    assign (prefix_count docs 4) Stats.set_ipv4_table_size;
    assign (prefix_count docs 6) Stats.set_ipv6_table_size;
    assign (nexthop_ip_count docs) Stats.set_nexthop_ip_counter;
    assign (now ← time_time; ret (epoch_to_date zone now)) Stats.set_timestamp;
    assign ('(json_data, _, _) ← customers docs resolver_query;
            ret (Z.of_nat (List.length json_data)))
           Stats.set_customer_count;
    assign ('(_, ipv4_prefix_counter, _) ← customers docs resolver_query;
            ret ipv4_prefix_counter)
           Stats.set_customer_ipv4_prefixes;
    assign ('(_, _, ipv6_prefix_counter) ← customers docs resolver_query;
            ret ipv6_prefix_counter)
           Stats.set_customer_ipv6_prefixes ].

(** The body of [update_advanced_stats]. *)
Definition update_advanced_stats_body : list statement :=
  [ assign (f ← avg_as_path_length docs; ret (Float f)) Stats.set_avg_as_path_length;
    assign (rows ← top_peers docs resolver_query 5; ret (Some rows)) Stats.set_top_n_peers;
    assign (rows ← cidr_breakdown docs; ret (Some rows)) Stats.set_cidr_breakdown;
    assign (rows ← peers docs resolver_query; ret (Some rows)) Stats.set_peers;
    assign ('(json_data, _, _) ← customers docs resolver_query; ret (Some json_data))
           Stats.set_customers;
    assign (rows ← communities_count docs regex; ret (Some rows)) Stats.set_communities;
    assign (now ← time_time; ret (epoch_to_date zone now)) Stats.set_timestamp ].

End StatsCache.

(** Running a method body on the object.  The object is shared with the
    request handlers and every store lands in it at once, so when a
    statement raises, the stores made before it stay. *)
Fixpoint run_body (body : list statement) (self : Stats.t) (w : Py.world)
  : Py.outcome unit * Stats.t * Py.world :=
  match body with
  | [] => (Py.Return tt, self, w)
  | stmt :: rest =>
      match stmt w with
      | (Py.Return store, w') => run_body rest (store self) w'
      | (Py.Raise e, w') => (Py.Raise e, self, w')
      | (Py.OutOfFuel, w') => (Py.OutOfFuel, self, w')
      end
  end.

Definition update_stats docs resolver_query zone :=
  run_body (update_stats_body docs resolver_query zone).

Definition update_advanced_stats docs resolver_query regex zone :=
  run_body (update_advanced_stats_body docs resolver_query regex zone).

(** ** The properties, in the design document's words

    The definitions of this part are not taken from the program: they say
    what the design document expects, to be compared with the program. *)

(** *** Resolution as a scan over a list of keys *)

Section Probing.
Import Py ipaddress.

Variable str_network : network -> string.
Variable find_one : string -> res (option Route.entry).

(** The network of length [len] around an address. *)
Definition covering (a : address) (len : Z) : network :=
  {| net_version := version a;
     network_address :=
       Z.land (int_of a)
              (Z.shiftl (netmask (ip_network a)) (max_prefixlen (version a) - len));
     prefixlen := len |}.

(** The key under which that network would be stored. *)
Definition probe_key (a : address) (len : Z) : string := str_network (covering a len).

(** [count] lengths from [hi] downwards: [hi, hi - 1, ...]. *)
Definition lengths_down (hi : Z) (count : nat) : list Z :=
  (fun i => hi - Z.of_nat i) <$> seq 0 count.

(** Looking the keys up one after the other until one is stored, or one
    lookup fails: what was found, and the keys that were looked up. *)
Fixpoint scan (keys : list string) : option Route.entry * list string :=
  match keys with
  | [] => (None, [])
  | key :: keys' =>
      match find_one key with
      | Ok (Some r) => (Some r, [key])
      | Err _ => (None, [key])
      | Ok None => let '(r, probed) := scan keys' in (r, key :: probed)
      end
  end.

(** The length asked of [supernet] for a given [netmask]. *)
Definition offset (a : address) : Z := if version a =? 4 then 0 else 32.

(** The world after the lookups of [keys]. *)
Definition logged (w : world) (keys : list string) : world :=
  {| calls := calls w ++ (DbFindOne <$> keys); clock := clock w |}.

(** The lengths the design document names: from the longest mask of the
    family, 32 or 128, down to 0. *)
Definition specified_lengths (a : address) : list Z :=
  lengths_down (max_prefixlen (version a))
               (S (Z.to_nat (max_prefixlen (version a)))).

(** The lengths [find_network(ip, netmask=32)] goes through: [netmask]
    runs from 32 to 0, and stands for itself in IPv4 and for
    [netmask + 32] in IPv6. *)
Definition probed_lengths (a : address) : list Z :=
  lengths_down (if version a =? 4 then 32 else 64) 33.

(** Resolution as the design document describes it. *)
Definition specified_resolve (a : address) : option Route.entry * list string :=
  scan (probe_key a <$> specified_lengths a).

End Probing.

(** The calls a computation added to the log. *)
Definition new_calls (before after : Py.world) : list Py.call :=
  skipn (List.length (Py.calls before)) (Py.calls after).

(** *** The average path length, as a formula *)

(** The number of distinct AS numbers of an entry's path, 0 without path. *)
Definition distinct_as_count (e : Route.entry) : Z :=
  match Route.as_path e with
  | Some path => Z.of_nat (List.length (remove_dups path))
  | None => 0
  end.

Definition sum_Z (xs : list Z) : Z := fold_right Z.add 0 xs.

(** [round(total / (count * 1.0), 3)] in Python's arithmetic. *)
Definition rounded_quotient (total count : Z) : Py.res PyFloat.float :=
  match PyFloat.int_mul count PyFloat.one with
  | Py.Ok divisor =>
      match PyFloat.int_truediv total divisor with
      | Py.Ok quotient => Py.Ok (PyFloat.round quotient 3)
      | Py.Err e => Py.Err e
      end
  | Py.Err e => Py.Err e
  end.

(** *** Community counts *)

(** [c] occurs inside [s]. *)
Definition substring_of (c s : string) : Prop :=
  exists before after, s = before +:+ c +:+ after.

(** The entries with a community in which [c] occurs, and those with the
    community [c] itself. *)
Definition substring_count (docs : list Route.entry) (c : string) : Z :=
  Z.of_nat (List.length
    (List.filter (fun e => existsb (Py.contains c) (Route.communities e)) docs)).

Definition exact_count (docs : list Route.entry) (c : string) : Z :=
  Z.of_nat (List.length
    (List.filter (fun e => bool_decide (c ∈ Route.communities e)) docs)).

(** The row expected for a community. *)
Definition community_row (docs : list Route.entry) (c : string) : CommunityRow :=
  {| comm_community := c; comm_count := substring_count docs c |}.

(** The characters with a meaning of their own in a regular expression. *)
Definition metacharacter (c : ascii) : bool :=
  bool_decide (c ∈ list_ascii_of_string "\^$.|?*+()[]{}").

Definition plain (pattern : string) : bool :=
  forallb (fun c => negb (metacharacter c)) (list_ascii_of_string pattern).

(** What is known of the server's engine: a pattern without metacharacter
    compiles, and is found in a string when it occurs in it. *)
Definition searches_plain_patterns (regex : string -> Py.res (string -> bool)) : Prop :=
  forall pattern, plain pattern = true ->
    exists matcher, regex pattern = Py.Ok matcher /\
      forall s, matcher s = Py.contains pattern s.

(** *** Refreshes seen from outside *)

(** The object after the first [k] statements of a method body: what a
    reader finds when it looks at that moment.  The refreshes run in
    threads of their own, the request handlers in others; the interpreter
    can switch between two statements, and storing or loading one
    attribute is a single step. *)
Definition sampled (body : list statement) (k : nat) (self : Stats.t) (w : Py.world)
  : Stats.t :=
  snd (fst (run_body (firstn k body) self w)).

(** The object when the method is left, by its end or by an exception. *)
Definition refreshed (body : list statement) (self : Stats.t) (w : Py.world) : Stats.t :=
  snd (fst (run_body body self w)).

(** Every attribute of [seen] is the one of [old] or the one of [new]. *)
Definition old_or_new (old new seen : Stats.t) : Prop :=
  (Stats.peer_counter seen = Stats.peer_counter old \/
   Stats.peer_counter seen = Stats.peer_counter new) /\
  (Stats.ipv4_table_size seen = Stats.ipv4_table_size old \/
   Stats.ipv4_table_size seen = Stats.ipv4_table_size new) /\
  (Stats.ipv6_table_size seen = Stats.ipv6_table_size old \/
   Stats.ipv6_table_size seen = Stats.ipv6_table_size new) /\
  (Stats.nexthop_ip_counter seen = Stats.nexthop_ip_counter old \/
   Stats.nexthop_ip_counter seen = Stats.nexthop_ip_counter new) /\
  (Stats.avg_as_path_length seen = Stats.avg_as_path_length old \/
   Stats.avg_as_path_length seen = Stats.avg_as_path_length new) /\
  (Stats.top_n_peers seen = Stats.top_n_peers old \/
   Stats.top_n_peers seen = Stats.top_n_peers new) /\
  (Stats.cidr_breakdown seen = Stats.cidr_breakdown old \/
   Stats.cidr_breakdown seen = Stats.cidr_breakdown new) /\
  (Stats.communities seen = Stats.communities old \/
   Stats.communities seen = Stats.communities new) /\
  (Stats.peers seen = Stats.peers old \/
   Stats.peers seen = Stats.peers new) /\
  (Stats.customers seen = Stats.customers old \/
   Stats.customers seen = Stats.customers new) /\
  (Stats.customer_count seen = Stats.customer_count old \/
   Stats.customer_count seen = Stats.customer_count new) /\
  (Stats.customer_ipv4_prefixes seen = Stats.customer_ipv4_prefixes old \/
   Stats.customer_ipv4_prefixes seen = Stats.customer_ipv4_prefixes new) /\
  (Stats.customer_ipv6_prefixes seen = Stats.customer_ipv6_prefixes old \/
   Stats.customer_ipv6_prefixes seen = Stats.customer_ipv6_prefixes new) /\
  (Stats.timestamp seen = Stats.timestamp old \/
   Stats.timestamp seen = Stats.timestamp new).

(** The object leaving a refresh agrees with another in everything but the
    timestamp. *)
Definition same_but_timestamp (s s' : Stats.t) : Prop :=
  Stats.set_timestamp "" s = Stats.set_timestamp "" s'.

(** *** How the statements of a refresh treat one attribute *)

(** A computation whose outcome is the same in every world. *)
Definition timeless {A} (m : Py.M A) : Prop := forall w w', fst (m w) = fst (m w').

(** A computation that ends the same way in every world: by a value, by
    an exception, or cut short. *)
Definition same_kind {A} (m : Py.M A) : Prop :=
  forall w w',
    match fst (m w), fst (m w') with
    | Py.Return _, Py.Return _
    | Py.Raise _, Py.Raise _
    | Py.OutOfFuel, Py.OutOfFuel => True
    | _, _ => False
    end.

(** A store that leaves a field alone. *)
Definition keeps {X} (field : Stats.t -> X) (store : Stats.t -> Stats.t) : Prop :=
  forall s, field (store s) = field s.

(** Two stores that both leave a field alone, or both give it the same
    value. *)
Definition same_on {X} (field : Stats.t -> X) (store store' : Stats.t -> Stats.t) : Prop :=
  (keeps field store /\ keeps field store') \/
  (exists c, forall s, field (store s) = c /\ field (store' s) = c).

Definition apply_stores (stores : list (Stats.t -> Stats.t)) (self : Stats.t) : Stats.t :=
  fold_left (fun s store => store s) stores self.

(** The stores of the statements of a body that run before it is left. *)
Fixpoint stores_of (body : list statement) (w : Py.world) : list (Stats.t -> Stats.t) :=
  match body with
  | [] => []
  | stmt :: rest =>
      match stmt w with
      | (Py.Return store, w') => store :: stores_of rest w'
      | _ => []
      end
  end.

(** A statement that, run in any two worlds, ends the same way and treats
    the field the same way. *)
Definition repeatable {X} (field : Stats.t -> X) (stmt : statement) : Prop :=
  forall w w',
    match fst (stmt w), fst (stmt w') with
    | Py.Return store, Py.Return store' => same_on field store store'
    | Py.Raise _, Py.Raise _
    | Py.OutOfFuel, Py.OutOfFuel => True
    | _, _ => False
    end.

Definition stmt_keeps {X} (field : Stats.t -> X) (stmt : statement) : Prop :=
  forall w store, fst (stmt w) = Py.Return store -> keeps field store.

(** At most one statement of the body stores the field. *)
Fixpoint stored_once {X} (field : Stats.t -> X) (body : list statement) : Prop :=
  match body with
  | [] => True
  | stmt :: rest =>
      (stmt_keeps field stmt /\ stored_once field rest) \/
      Forall (stmt_keeps field) rest
  end.

(** ** Sample data *)

Module Sample.
Import Py.

Definition route (prefix : string) (version : Z) (peer origin : option Z)
    (path : option (list Z)) (communities : list string) : Route.entry :=
  {| Route.prefix := prefix; Route.ip_version := version;
     Route.origin_as := origin; Route.next_hop_asn := peer;
     Route.nexthop := "192.0.2.1"; Route.as_path := path;
     Route.communities := communities; Route.med := 0; Route.local_pref := 100;
     Route.timestamp := 1500000000 |}.

(** An IPv6 host route, and the table that holds nothing else. *)
Definition host_route : Route.entry :=
  route "2001:db8::1/128" 6 (Some 100) (Some 200) (Some [100; 200]) [].

(** Two IPv4 routes around 10.1.2.3. *)
Definition wide_route : Route.entry :=
  route "10.1.0.0/16" 4 (Some 100) (Some 200) (Some [100; 200]) [].
Definition narrow_route : Route.entry :=
  route "10.1.2.0/30" 4 (Some 100) (Some 300) (Some [100; 300]) [].

(** One route whose path repeats its first AS. *)
Definition prepended_route : Route.entry :=
  route "203.0.113.0/24" 4 (Some 100) (Some 200) (Some [100; 100; 200]) ["3701:370"].

(** Two routes whose communities overlap as strings. *)
Definition overlapping_table : list Route.entry :=
  [ route "203.0.113.0/24" 4 (Some 100) (Some 200) (Some [100; 200]) ["3701:370"];
    route "198.51.100.0/24" 4 (Some 100) (Some 300) (Some [100; 300]) ["3701:3700"] ].

(** A table before and after the feeder added a route from a new peer. *)
Definition table_before : list Route.entry :=
  [ route "203.0.113.0/24" 4 (Some 100) (Some 200) (Some [100; 200]) ["3701:370"] ].
Definition table_after : list Route.entry :=
  table_before ++
  [ route "198.51.100.0/24" 4 (Some 300) (Some 300) (Some [300]) [] ].

(** A resolver that answers one record for every name, one that answers
    nothing, one that is down. *)
Definition quote : string := String (ascii_of_nat 34) "".
Definition dns_answering (qname rdtype : string) : res (list string) :=
  Ok [quote +:+ "15169 | US | arin | 2000-03-30 | GOOGLE, US" +:+ quote].
Definition dns_empty (qname rdtype : string) : res (list string) := Ok [].
Definition dns_down (qname rdtype : string) : res (list string) :=
  Err (LibraryError "Timeout").

(** An engine that takes every pattern literally. *)
Definition literal_engine (pattern : string) : res (string -> bool) :=
  Ok (contains pattern).

(** A collection that is down. *)
Definition db_down (key : string) : res (option Route.entry) :=
  Err (LibraryError "ServerSelectionTimeoutError").

Definition at_time (now : Z) : world := {| calls := []; clock := now |}.

(** The float that the decimal literal [n/d] denotes, for small [n], [d]. *)
Definition decimal (n d : Z) : PyFloat.float :=
  SFdiv PyFloat.prec PyFloat.emax
        (binary_normalize PyFloat.prec PyFloat.emax n 0 false)
        (binary_normalize PyFloat.prec PyFloat.emax d 0 false).

(** The object as [__init__] leaves it at 2017-07-14 02:40:00. *)
Definition startup : Stats.t := Stats_new "2017-07-14 02:40:00 UTC".

End Sample.

(** ** The rest of the program: the other lookups and the routes *)

Module PyStr.
Import Py.

(** [s.split()] without argument: the runs of characters that are not
    white space. *)
Fixpoint words (s : string) : list string :=
  match s with
  | EmptyString => []
  | String c s' =>
      if isspace c then words s'
      else
        match s' with
        | EmptyString => [String c EmptyString]
        | String c' _ =>
            if isspace c' then String c EmptyString :: words s'
            else
              match words s' with
              | w :: ws => String c w :: ws
              | [] => [String c EmptyString]
              end
        end
  end.

(** [s.lower()] on the ASCII range. *)
Definition lower_char (c : ascii) : ascii :=
  let n := nat_of_ascii c in
  if ((65 <=? n) && (n <=? 90))%nat then ascii_of_nat (n + 32) else c.

Fixpoint lower (s : string) : string :=
  match s with
  | EmptyString => EmptyString
  | String c s' => String (lower_char c) (lower s')
  end.

(** [s[:-1]]: all but the last character. *)
Fixpoint drop_last (s : string) : string :=
  match s with
  | EmptyString => EmptyString
  | String c EmptyString => EmptyString
  | String c s' => String c (drop_last s')
  end.

End PyStr.

(** The JSON objects the routes answer with, key for key. *)
Record RouteJson : Type := {
  js_origin_as : option Z;
  js_nexthop : string;
  js_as_path : option (list Z);
  js_prefix : string;
  js_next_hop_asn : option Z;
  js_updated : string;
  js_name : option string;
  js_med : Z;
  js_local_pref : Z;
  js_communities : list string
}.

(** What [get_ip] and [search_index] hand to [jsonify]: [{}], the object of
    one route, or [{'prefixes': [...]}]. *)
Inductive LookupResponse : Type :=
  | NoRoute
  | OneRoute (r : RouteJson)
  | Prefixes (rows : list RouteJson).

Record AsnPrefixRow : Type := {
  ap_prefix : string;
  ap_origin_as : option Z;
  ap_nexthop_ip : string;
  ap_nexthop_ip_dns : string;
  ap_nexthop_asn : option Z;
  ap_as_path : option (list Z);
  ap_updated : string;
  ap_name : option string
}.

Record AsnResponse : Type := {
  ar_asn : Z;
  ar_name : option string;
  ar_origin_prefix_count : Z;
  ar_is_peer : bool;
  ar_origin_prefix_list : list AsnPrefixRow
}.

Record PeerDetail : Type := {
  pd_asn : Z;
  pd_name : option string;
  pd_next_hop_ips : list string;
  pd_origin_prefix_count : Z;
  pd_nexthop_prefix_count : Z;
  pd_transit_provider : bool
}.

Record TransitResponse : Type := {
  tr_asn : Z;
  tr_name : option string;
  tr_transit_prefix_count : Z;
  tr_transit_prefix_list : list string
}.

Section Routes.
Import Py ipaddress.

Variable ip_address : string -> res address.
Variable str_network : network -> string.

(** The documents of [db.bgp]; the collection answers every query. *)
Variable docs : list Route.entry.

Variable resolver_query : string -> string -> res (list string).

(** [dns.reversename.from_address(text)]: the name to ask for, or the
    exception for a text that is no address. *)
Variable from_address : string -> res string.

Variable regex : string -> res (string -> bool).
Variable zone : string.

(** [is_peer(asn)]. *)
Definition is_peer (asn : Z) : M bool :=
  if bool_decide (Some asn ∈ Mongo.distinct (fun e => [Route.next_hop_asn e]) docs)
  then ret true
  else ret false.

(** [reverse_dns_query(ip)]. *)
Definition reverse_dns_query (ip : string) : M string :=
  try_except
    (addr ← lift (from_address ip);
     answers ← dns_query resolver_query addr "PTR";
     first ← lift (index answers 0);
     ret (PyStr.drop_last first))
    (ret "(DNS Error)").

(** The object built for one route by [get_ip] and [search_index]. *)
Definition route_json (network : Route.entry) : M RouteJson :=
  let updated := epoch_to_date zone (Route.timestamp network) in
  name ← asn_name_query resolver_query (Route.origin_as network);
  ret {| js_origin_as := Route.origin_as network;
         js_nexthop := Route.nexthop network;
         js_as_path := Route.as_path network;
         js_prefix := Route.prefix network;
         js_next_hop_asn := Route.next_hop_asn network;
         js_updated := updated;
         js_name := name;
         js_med := Route.med network;
         js_local_pref := Route.local_pref network;
         js_communities := Route.communities network |}.

(** [get_ip(ip)]. *)
Definition get_ip (ip : string) : M LookupResponse :=
  network ← find_network ip_address str_network (find_one_in docs) ip 32;
  match network with
  | None => ret NoRoute
  | Some network =>
      r ← route_json network;
      ret (OneRoute r)
  end.

(** [search_index(query)]. *)
Definition search_index (query : string) : M LookupResponse :=
  let number := 0 in
  number ←
    for_each (PyStr.words query)
      (fun number t => try_except (lift (int t)) (ret number))
      number;
  let query := PyStr.lower query in
  network ← find_network ip_address str_network (find_one_in docs) query 32;
  match network with
  | None =>
      matcher ← lift (regex query);
      let result :=
        Mongo.find (fun e => bool_decide (Route.next_hop_asn e = Some number)
                             || matcher (Route.prefix e)) docs in
      prefixes ←
        for_each result
          (fun prefixes network =>
             r ← route_json network;
             ret (prefixes ++ [r]))
          [];
      ret (Prefixes prefixes)
  | Some network =>
      r ← route_json network;
      ret (OneRoute r)
  end.

(** [get_asn_prefixes(asn)]. *)
Definition get_asn_prefixes (asn : Z) : M AsnResponse :=
  let routes :=
    if asn =? _DEFAULT_ASN
    then Mongo.find (fun e => bool_decide (Route.origin_as e = None)) docs
    else Mongo.find (fun e => bool_decide (Route.origin_as e = Some asn)) docs in
  prefixes ←
    for_each routes
      (fun prefixes prefix =>
         nexthop_ip_dns ← reverse_dns_query (Route.nexthop prefix);
         let updated := epoch_to_date zone (Route.timestamp prefix) in
         name ← asn_name_query resolver_query (Some asn);
         ret (prefixes ++
              [{| ap_prefix := Route.prefix prefix;
                  ap_origin_as := Route.origin_as prefix;
                  ap_nexthop_ip := Route.nexthop prefix;
                  ap_nexthop_ip_dns := nexthop_ip_dns;
                  ap_nexthop_asn := Route.next_hop_asn prefix;
                  ap_as_path := Route.as_path prefix;
                  ap_updated := updated;
                  ap_name := name |}]))
      [];
  name ← asn_name_query resolver_query (Some asn);
  let origin_prefix_count := Mongo.count routes in
  peer ← is_peer asn;
  ret {| ar_asn := asn;
         ar_name := name;
         ar_origin_prefix_count := origin_prefix_count;
         ar_is_peer := peer;
         ar_origin_prefix_list := prefixes |}.

(** [get_peers()]. *)
Definition get_peers : M (list PeerDetail) :=
  let peer_asns := Mongo.distinct (fun e => [Route.next_hop_asn e]) docs in
  for_each peer_asns
    (fun peers asn =>
       let next_hop_ips :=
         Mongo.distinct (fun e => [Route.nexthop e]) (Mongo.find (of_peer asn) docs) in
       let asn := match asn with None => _DEFAULT_ASN | Some n => n end in
       let isp_origin_as :=
         Mongo.find (fun e => bool_decide (Route.origin_as e = Some asn)) docs in
       let isp_nexthop_as :=
         Mongo.find (fun e => bool_decide (Route.next_hop_asn e = Some asn)) docs in
       let transit_provider :=
         if Mongo.count isp_origin_as <? Mongo.count isp_nexthop_as then true else false in
       name ← asn_name_query resolver_query (Some asn);
       ret (peers ++
            [{| pd_asn := asn;
                pd_name := name;
                pd_next_hop_ips := next_hop_ips;
                pd_origin_prefix_count := Mongo.count isp_origin_as;
                pd_nexthop_prefix_count := Mongo.count isp_nexthop_as;
                pd_transit_provider := transit_provider |}]))
    [].

(** [get_transit_prefixes(asn)]. *)
Definition get_transit_prefixes (asn : Z) : M TransitResponse :=
  let all_asns := Mongo.find (fun _ => true) docs in
  prefixes ←
    for_each all_asns
      (fun prefixes prefix =>
         match Route.as_path prefix with
         | Some (hop :: path) =>
             if bool_decide (asn ∈ hop :: path)
             then ret (prefixes ++ [Route.prefix prefix])
             else ret prefixes
         | _ => ret prefixes
         end)
      [];
  name ← asn_name_query resolver_query (Some asn);
  ret {| tr_asn := asn;
         tr_name := name;
         tr_transit_prefix_count := Z.of_nat (List.length prefixes);
         tr_transit_prefix_list := prefixes |}.

End Routes.

(** ** More of the design document's vocabulary, for the facts below *)

(** The world after further calls. *)
Definition extend (w : Py.world) (cs : list Py.call) : Py.world :=
  {| Py.calls := Py.calls w ++ cs; Py.clock := Py.clock w |}.

(** The number an ASN argument stands for. *)
Definition asn_number (asn : option Z) : Z :=
  match asn with None => _DEFAULT_ASN | Some n => n end.

Definition private_use (n : Z) : bool := (64512 <=? n) && (n <=? 65534).

Definition name_qname (n : Z) : string := "as" +:+ Py.str_int n +:+ ".asn.cymru.com".

(** The queries [asn_name_query] sends for an ASN. *)
Definition name_calls (asn : option Z) : list Py.call :=
  if private_use (asn_number asn) then []
  else [Py.DnsQuery (name_qname (asn_number asn)) "TXT"].

(** The name [asn_name_query] gives for an ASN, read off a run. *)
Definition name_of (resolver_query : string -> string -> Py.res (list string))
    (asn : option Z) : option string :=
  match fst (asn_name_query resolver_query asn (Py.World [] 0)) with
  | Py.Return name => name
  | _ => None
  end.

(** The characters of a string. *)
Definition chars (s : string) : list ascii := list_ascii_of_string s.

(** A string with no white space at either end. *)
Definition trimmed (s : string) : Prop :=
  (forall c rest, chars s = c :: rest -> Py.isspace c = false) /\
  (forall init c, chars s = init ++ [c] -> Py.isspace c = false).

(** The query [reverse_dns_query] sends for an address text. *)
Definition reverse_calls (from_address : string -> Py.res string) (ip : string)
  : list Py.call :=
  match from_address ip with
  | Py.Ok addr => [Py.DnsQuery addr "PTR"]
  | Py.Err _ => []
  end.

(** The row [peers()] and [customers()] build for a peer, and the query
    that costs. *)
Definition peer_row (docs : list Route.entry)
    (resolver_query : string -> string -> Py.res (list string)) (asn : option Z) : PeerRow :=
  {| peer_asn := asn_number asn;
     peer_name := name_of resolver_query (Some (asn_number asn));
     peer_ipv4_count :=
       Mongo.count (Mongo.find (fun e => of_peer asn e && (Route.ip_version e =? 4)) docs);
     peer_ipv6_count :=
       Mongo.count (Mongo.find (fun e => of_peer asn e && (Route.ip_version e =? 6)) docs) |}.

Definition peer_calls (asn : option Z) : list Py.call :=
  name_calls (Some (asn_number asn)).

(** The peers that announce a route tagged as a customer's. *)
Definition customer_set (docs : list Route.entry) : gset (option Z) :=
  next_hop_set
    (Mongo.find (fun e => bool_decide ("3701:370" ∈ Route.communities e)) docs).

(** The pairs [top_peers] sorts, and the row it builds from a pair. *)
Definition peer_totals (docs : list Route.entry) : list (option Z * Z) :=
  (fun peer => (peer, Mongo.count (Mongo.find (of_peer peer) docs)))
    <$> Mongo.distinct (fun e => [Route.next_hop_asn e]) docs.

Definition top_row (resolver_query : string -> string -> Py.res (list string))
    (asn : option Z * Z) : TopPeerRow :=
  {| top_asn := fst asn; top_count := snd asn;
     top_name := name_of resolver_query (fst asn) |}.

(** A list in the order [sorted(..., reverse=True)] gives: no element
    has a larger key than one before it. *)
Definition descending {A} (key : A -> Z) (l : list A) : Prop :=
  forall (i j : nat) x y, (i <= j)%nat -> l !! i = Some x -> l !! j = Some y -> key y <= key x.

(** The exception an entry makes the loop of [cidr_breakdown] raise, if
    any: a prefix without a mask or with one that is no number, or a null
    [origin_as] on an IPv4 route longer than /24. *)
Definition cidr_fault (prefix : Route.entry) : option Py.exn :=
  if Route.ip_version prefix =? 4 then
    match mask_of prefix with
    | Py.Err e => Some e
    | Py.Ok mask =>
        if 24 <? mask then
          match int_origin_as prefix with Py.Err e => Some e | Py.Ok _ => None end
        else None
    end
  else if Route.ip_version prefix =? 6 then
    match mask_of prefix with Py.Err e => Some e | Py.Ok _ => None end
  else None.

(** The masks of the routes of one IP version, in the order of the table. *)
Definition masks_of (version : Z) (docs : list Route.entry) : list Z :=
  omap (fun e => if Route.ip_version e =? version
                 then match mask_of e with Py.Ok mask => Some mask | Py.Err _ => None end
                 else None) docs.

(** The number of times a value occurs in a list. *)
Definition occurrences (x : Z) (xs : list Z) : Z :=
  Z.of_nat (List.length (List.filter (Z.eqb x) xs)).

(** The rows of [cidr_breakdown] for one IP version. *)
Definition cidr_rows (version : Z) (rows : list CidrRow) : list CidrRow :=
  List.filter (fun r => cidr_ip_version r =? version) rows.

(** The answer of [reverse_dns_query] for an address text. *)
Definition reverse_name_of (resolver_query : string -> string -> Py.res (list string))
    (from_address : string -> Py.res string) (ip : string) : string :=
  match from_address ip with
  | Py.Ok addr =>
      match resolver_query addr "PTR" with
      | Py.Ok (first :: _) => PyStr.drop_last first
      | _ => "(DNS Error)"
      end
  | Py.Err _ => "(DNS Error)"
  end.

(** The object of a route, with the name its origin resolves to. *)
Definition route_object (resolver_query : string -> string -> Py.res (list string))
    (zone : string) (network : Route.entry) : RouteJson :=
  {| js_origin_as := Route.origin_as network;
     js_nexthop := Route.nexthop network;
     js_as_path := Route.as_path network;
     js_prefix := Route.prefix network;
     js_next_hop_asn := Route.next_hop_asn network;
     js_updated := epoch_to_date zone (Route.timestamp network);
     js_name := name_of resolver_query (Route.origin_as network);
     js_med := Route.med network;
     js_local_pref := Route.local_pref network;
     js_communities := Route.communities network |}.

(** The routes whose AS path goes through an AS. *)
Definition on_path (asn : Z) (e : Route.entry) : Prop :=
  exists path, Route.as_path e = Some path /\ asn ∈ path.

(** The number a query stands for: its last token that reads as an
    integer, [0] when there is none. *)
Definition query_number (query : string) : Z :=
  fold_left (fun number t => match Py.int t with Py.Ok n => n | Py.Err _ => number end)
            (PyStr.words query) 0.

(** The [origin_as] that [get_asn_prefixes] looks for: null for 3701. *)
Definition origin_of (asn : Z) : option Z :=
  if asn =? _DEFAULT_ASN then None else Some asn.

(** The object [get_peers] builds for a value of [next_hop_asn]. *)
Definition peer_detail (docs : list Route.entry)
    (resolver_query : string -> string -> Py.res (list string)) (asn : option Z)
  : PeerDetail :=
  let origin :=
    Mongo.count
      (Mongo.find (fun e => bool_decide (Route.origin_as e = Some (asn_number asn))) docs) in
  let nexthop :=
    Mongo.count
      (Mongo.find (fun e => bool_decide (Route.next_hop_asn e = Some (asn_number asn))) docs) in
  {| pd_asn := asn_number asn;
     pd_name := name_of resolver_query (Some (asn_number asn));
     pd_next_hop_ips :=
       Mongo.distinct (fun e => [Route.nexthop e]) (Mongo.find (of_peer asn) docs);
     pd_origin_prefix_count := origin;
     pd_nexthop_prefix_count := nexthop;
     pd_transit_provider := origin <? nexthop |}.

(** ** More sample data *)

Module Sample2.
Import Py.

(** A reverse-name function that knows one address, and a resolver that
    answers its pointer record. *)
Definition reverse_name (ip : string) : res string :=
  if String.eqb ip "192.0.2.1" then Ok "1.2.0.192.in-addr.arpa."
  else Err ValueError.

Definition dns_ptr (qname rdtype : string) : res (list string) :=
  if String.eqb rdtype "PTR" then Ok ["edge1.example.net."]
  else Sample.dns_answering qname rdtype.

(** An engine that takes a pattern without metacharacter literally and
    rejects every other one. *)
Definition strict_engine (pattern : string) : res (string -> bool) :=
  if plain pattern then Ok (contains pattern)
  else Err (LibraryError "OperationFailure").

(** A route longer than /24 without origin, and one with a null next hop. *)
Definition unoriginated_route : Route.entry :=
  Sample.route "198.51.100.128/25" 4 (Some 100) None (Some [100]) [].
Definition local_route : Route.entry :=
  Sample.route "192.0.2.0/24" 4 None None None [].

(** A route with a community that is no regular expression. *)
Definition odd_route : Route.entry :=
  Sample.route "203.0.113.0/24" 4 (Some 100) (Some 200) (Some [100; 200])
    ["3701:370"; "65000:1("; "3701:380"].

End Sample2.

(** * Facts *)

(** ** The runtime model on known values *)

Section RuntimeExamples.
Import Py.

Example split_maxsplit : split "/" (Some 1%nat) "10.0.0.0/24" = ["10.0.0.0"; "24"].
Proof. reflexivity. Qed.

Example split_every : split "|" None "a|b||c" = ["a"; "b"; ""; "c"].
Proof. reflexivity. Qed.

Example split_twice : split "," (Some 2%nat) "a,b,c,d" = ["a"; "b"; "c,d"].
Proof. reflexivity. Qed.

Example strip_blanks : strip "  GOOGLE " = "GOOGLE".
Proof. reflexivity. Qed.

Example int_mask : int "24" = Ok 24 /\ int " -7 " = Ok (-7) /\ int "2_4" = Ok 24.
Proof. repeat split. Qed.

Example int_refuses : int "" = Err ValueError /\ int "24a" = Err ValueError.
Proof. repeat split. Qed.

Example strftime_2023 :
  PyTime.strftime_gmtime "UTC" 1700000000 = "2023-11-14 22:13:20 UTC".
Proof. reflexivity. Qed.

Example strftime_leap_day :
  PyTime.strftime_gmtime "UTC" 951782400 = "2000-02-29 00:00:00 UTC".
Proof. reflexivity. Qed.

(** [round(2.675, 2) == 2.67], [round(0.0005, 3) == 0.001] (the float is
    above the tie), [round(0.0625, 3) == 0.062] (an exact tie, to even). *)
Example round_2_675 : PyFloat.round (Sample.decimal 2675 1000) 2 = Sample.decimal 267 100.
Proof. reflexivity. Qed.

Example round_0_0005 : PyFloat.round (Sample.decimal 5 10000) 3 = Sample.decimal 1 1000.
Proof. reflexivity. Qed.

Example round_0_0625 : PyFloat.round (Sample.decimal 625 10000) 3 = Sample.decimal 62 1000.
Proof. reflexivity. Qed.

Example supernet_24 :
  IpText.str_network <$> (match ipaddress.supernet
                                  (ipaddress.ip_network (ipaddress.IPv4Address 167838211)) 24 with
                          | Ok net => Some net
                          | Err _ => None
                          end) = Some "10.1.2.0/24".
Proof. reflexivity. Qed.

Example str_network_compressed :
  IpText.str_network (covering (ipaddress.IPv6Address
                                  42540766411282592856903984951653826561) 32) =
  "2001:db8::/32".
Proof. reflexivity. Qed.

Example sorted_reverse_stable :
  sorted_reverse snd [("A", 10); ("B", 7); ("C", 7); ("D", 1); ("E", 10)] =
  [("A", 10); ("E", 10); ("B", 7); ("C", 7); ("D", 1)].
Proof. reflexivity. Qed.

Example Counter_items_order : Counter_items [24; 24; 16; 24] = [(24, 3); (16, 1)].
Proof. reflexivity. Qed.

Example cidr_breakdown_three :
  fst (cidr_breakdown
         [ Sample.route "10.0.0.0/24" 4 (Some 100) (Some 200) None [];
           Sample.route "10.0.1.0/24" 4 (Some 100) (Some 200) None [];
           Sample.route "192.168.0.0/16" 4 (Some 100) (Some 200) None [] ]
         (Sample.at_time 0)) =
  Return [ {| cidr_mask := 24; cidr_count := 2; cidr_ip_version := 4 |};
           {| cidr_mask := 16; cidr_count := 1; cidr_ip_version := 4 |} ].
Proof. reflexivity. Qed.

Example asn_name_query_parses :
  fst (asn_name_query Sample.dns_answering (Some 15169) (Sample.at_time 0)) =
  Return (Some "GOOGLE").
Proof. reflexivity. Qed.

Example asn_name_query_dns_error :
  fst (asn_name_query Sample.dns_down None (Sample.at_time 0)) =
  Return (Some "(DNS Error)").
Proof. reflexivity. Qed.

End RuntimeExamples.

(** ** PrefixResolver *)

Section PrefixResolverFacts.
Import Py ipaddress.

Variable ip_address : string -> res address.
Variable str_network : network -> string.
Variable find_one : string -> res (option Route.entry).

Local Abbreviation find_network_fuel' := (find_network_fuel ip_address str_network find_one).
Local Abbreviation find_network' := (find_network ip_address str_network find_one).
Local Abbreviation resolve' := (resolve ip_address str_network find_one).
Local Abbreviation scan' := (scan find_one).
Local Abbreviation probe_key' := (probe_key str_network).

Ltac split_ltb :=
  repeat match goal with
         | |- context [?x <? ?y] => destruct (Z.ltb_spec0 x y)
         end.

Lemma host_prefixlen a : prefixlen (ip_network a) = max_prefixlen (version a).
Proof. reflexivity. Qed.

(** [supernet] on a host network: the covering network for a length the
    family has, [ValueError] beyond. *)
Lemma supernet_covering a len :
  0 <= len <= max_prefixlen (version a) ->
  supernet (ip_network a) len = Ok (covering a len).
Proof.
  intros Hlen. unfold supernet, covering. rewrite host_prefixlen.
  destruct a; cbn [version max_prefixlen Z.eqb] in *; split_ltb; try lia;
    do 2 f_equal; lia.
Qed.

Lemma supernet_negative a len :
  len < 0 -> supernet (ip_network a) len = Err ValueError.
Proof.
  intros Hlen. unfold supernet. rewrite host_prefixlen.
  destruct a; cbn [version max_prefixlen Z.eqb] in *; split_ltb; try lia; reflexivity.
Qed.

Lemma step_length a netmask :
  (if version a =? 4 then netmask else netmask + 32) = netmask + offset a.
Proof. unfold offset. destruct (version a =? 4); lia. Qed.

Lemma offset_bounds a : 0 <= offset a <= 32.
Proof. unfold offset. destruct (version a =? 4); lia. Qed.

(** One level of the recursion, when the address does not parse. *)
Lemma find_network_fuel_unparsed fuel ip netmask w e :
  ip_address ip = Err e ->
  find_network_fuel' (S fuel) ip netmask w = (Return None, w).
Proof.
  intros Hip. cbn [find_network_fuel]. unfold try_except, mbind, M_bind, bind.
  rewrite Hip. reflexivity.
Qed.

(** One level of the recursion, when it does: the [try] and the two
    branches of the source folded into what they do. *)
Lemma find_network_fuel_step fuel ip a netmask w :
  ip_address ip = Ok a ->
  find_network_fuel' (S fuel) ip netmask w =
  match supernet (ip_network a) (if version a =? 4 then netmask else netmask + 32) with
  | Err _ => (Return None, w)
  | Ok net =>
      let key := str_network net in
      match find_one key with
      | Err _ => (Return None, log (DbFindOne key) w)
      | Ok (Some r) => (Return (Some r), log (DbFindOne key) w)
      | Ok None =>
          if netmask =? 0 then (Return None, log (DbFindOne key) w)
          else match find_network_fuel' fuel ip (netmask - 1) (log (DbFindOne key) w) with
               | (Raise _, w') => (Return None, w')
               | r => r
               end
      end
  end.
Proof.
  intros Hip. cbn [find_network_fuel].
  unfold try_except, mbind, M_bind, bind, db_find_one, external.
  rewrite Hip. cbn [lift ret raise].
  destruct a; cbn [version Z.eqb Pos.eqb];
    (destruct (supernet _ _) as [net | e]; cbn [lift ret raise]; [| reflexivity]);
    (destruct (find_one _) as [[r |] | e]; cbn [lift ret raise]; try reflexivity);
    (destruct (netmask =? 0); [reflexivity |]);
    destruct (find_network_fuel _ _ _ _ _ _ _) as [[? | ? |] ?]; reflexivity.
Qed.

(** With the depth [find_network] gives it, the recursion returns. *)
Lemma find_network_fuel_returns fuel : forall ip netmask w,
  (Z.to_nat (netmask + 33) < fuel)%nat ->
  exists r w', find_network_fuel' fuel ip netmask w = (Return r, w').
Proof.
  induction fuel as [| fuel IH]; intros ip netmask w Hfuel; [lia |].
  destruct (ip_address ip) as [a | e] eqn:Hip.
  2: { erewrite find_network_fuel_unparsed by eassumption. eauto. }
  rewrite (find_network_fuel_step _ _ a) by assumption. rewrite step_length.
  pose proof (offset_bounds a) as Hoff.
  destruct (Z_lt_dec (netmask + offset a) 0) as [Hneg | Hpos].
  { rewrite supernet_negative by assumption. eauto. }
  destruct (supernet _ _) as [net | e]; [| eauto]. cbn zeta.
  destruct (find_one _) as [[r |] | e]; eauto.
  destruct (netmask =? 0); eauto.
  destruct (IH ip (netmask - 1) (log (DbFindOne (str_network net)) w)) as (r & w' & Hrec);
    [lia |].
  rewrite Hrec. eauto.
Qed.

(** More depth changes nothing. *)
Lemma find_network_fuel_enough fuel1 : forall fuel2 ip netmask w,
  (Z.to_nat (netmask + 33) < fuel1)%nat ->
  (Z.to_nat (netmask + 33) < fuel2)%nat ->
  find_network_fuel' fuel1 ip netmask w = find_network_fuel' fuel2 ip netmask w.
Proof.
  induction fuel1 as [| fuel1 IH]; intros fuel2 ip netmask w H1 H2; [lia |].
  destruct fuel2 as [| fuel2]; [lia |].
  destruct (ip_address ip) as [a | e] eqn:Hip.
  2: { erewrite !find_network_fuel_unparsed by eassumption. reflexivity. }
  rewrite !(find_network_fuel_step _ _ a) by assumption. rewrite step_length.
  pose proof (offset_bounds a) as Hoff.
  destruct (Z_lt_dec (netmask + offset a) 0) as [Hneg | Hpos].
  { rewrite supernet_negative by assumption. reflexivity. }
  destruct (supernet _ _) as [net | e]; [| reflexivity]. cbn zeta.
  destruct (find_one _) as [[r |] | e]; try reflexivity.
  destruct (netmask =? 0); [reflexivity |].
  rewrite (IH fuel2) by lia. reflexivity.
Qed.

Lemma lengths_down_S hi count :
  lengths_down hi (S count) = hi :: lengths_down (hi - 1) count.
Proof.
  unfold lengths_down. cbn [seq fmap list_fmap]. f_equal; [lia |].
  rewrite <- seq_shift, <- list_fmap_compose.
  apply list_fmap_ext. intros _ i _. cbn. lia.
Qed.

Lemma firstn_lengths_down (f : Z -> string) hi n count :
  firstn n (f <$> lengths_down hi count) = f <$> lengths_down hi (Nat.min n count).
Proof.
  unfold lengths_down. rewrite <- !list_fmap_compose.
  rewrite <- fmap_take. f_equal. apply take_seq.
Qed.

Lemma logged_log w key keys :
  logged (log (DbFindOne key) w) keys = logged w (key :: keys).
Proof. unfold logged, log. cbn. rewrite <- app_assoc. reflexivity. Qed.

Lemma logged_nil w : logged w [] = w.
Proof. unfold logged. cbn. rewrite app_nil_r. destruct w; reflexivity. Qed.

Lemma new_calls_logged w keys : new_calls w (logged w keys) = DbFindOne <$> keys.
Proof. unfold new_calls, logged. cbn [calls]. apply drop_app_length. Qed.

(** The recursion from [netmask] down is the scan of the keys of the
    lengths [netmask + offset], [netmask + offset - 1], ..., [offset]. *)
Lemma find_network_fuel_scan fuel : forall ip a netmask w,
  ip_address ip = Ok a ->
  0 <= netmask ->
  netmask + offset a <= max_prefixlen (version a) ->
  (Z.to_nat netmask < fuel)%nat ->
  find_network_fuel' fuel ip netmask w =
  (Return (fst (scan' (probe_key' a <$>
                         lengths_down (netmask + offset a) (S (Z.to_nat netmask))))),
   logged w (snd (scan' (probe_key' a <$>
                           lengths_down (netmask + offset a) (S (Z.to_nat netmask)))))).
Proof.
  induction fuel as [| fuel IH]; intros ip a netmask w Hip Hlo Hhi Hfuel; [lia |].
  rewrite (find_network_fuel_step _ _ a) by assumption. rewrite step_length.
  pose proof (offset_bounds a) as Hoff.
  rewrite supernet_covering by lia. cbn zeta.
  rewrite lengths_down_S. cbn [fmap list_fmap scan]. fold (probe_key' a (netmask + offset a)).
  change (list_fmap _ _ (probe_key' a)) with (fmap (M := list) (probe_key' a)).
  destruct (find_one _) as [[r |] | e]; try reflexivity.
  destruct (Z.eqb_spec netmask 0) as [-> | Hnz].
  { reflexivity. }
  rewrite (IH ip a (netmask - 1)) by (assumption || lia).
  replace (Z.to_nat netmask) with (S (Z.to_nat (netmask - 1))) by lia.
  replace (netmask - 1 + offset a) with (netmask + offset a - 1) by lia.
  destruct (scan' _) as [r probed]. cbn [fst snd]. rewrite logged_log. reflexivity.
Qed.

Lemma resolve_scan ip a w :
  ip_address ip = Ok a ->
  resolve' ip w =
  (Return (fst (scan' (probe_key' a <$> probed_lengths a))),
   logged w (snd (scan' (probe_key' a <$> probed_lengths a)))).
Proof.
  intros Hip. unfold resolve, find_network, find_network_depth, probed_lengths.
  rewrite (find_network_fuel_scan _ ip a) by
    (try assumption; unfold offset; destruct a; cbn; lia).
  unfold offset. destruct a; reflexivity.
Qed.

(** What a scan looks up is a beginning of the list of keys. *)
Lemma scan_probed_prefix keys :
  exists n, (n <= List.length keys)%nat /\ snd (scan' keys) = firstn n keys.
Proof.
  induction keys as [| key keys IH].
  - exists O. split; [cbn; lia | reflexivity].
  - cbn [scan]. destruct (find_one key) as [[r |] | e].
    + exists 1%nat. split; [cbn; lia | reflexivity].
    + destruct IH as (n & Hn & Hprobed). destruct (scan' keys) as [r probed].
      exists (S n). split; [cbn; lia |]. cbn in *. congruence.
    + exists 1%nat. split; [cbn; lia | reflexivity].
Qed.

(** A scan stops at the first key that is stored. *)
Lemma scan_first_hit before key after r :
  (forall k, In k before -> find_one k = Ok None) ->
  find_one key = Ok (Some r) ->
  scan' (before ++ key :: after) = (Some r, before ++ [key]).
Proof.
  intros Hmiss Hhit. induction before as [| k before IH]; cbn [app scan].
  - rewrite Hhit. reflexivity.
  - rewrite (Hmiss k) by (left; reflexivity).
    rewrite IH by (intros; apply Hmiss; right; assumption). reflexivity.
Qed.

(** A scan that finds no key stored has looked them all up. *)
Lemma scan_all_missed keys :
  (forall k, In k keys -> find_one k = Ok None) -> scan' keys = (None, keys).
Proof.
  intros Hmiss. induction keys as [| k keys IH]; cbn [scan]; [reflexivity |].
  rewrite (Hmiss k) by (left; reflexivity).
  rewrite IH by (intros; apply Hmiss; right; assumption). reflexivity.
Qed.

(** The log of a run, and what a failed lookup in it entails. *)
Lemma find_network_trace fuel : forall ip netmask w,
  (Z.to_nat (netmask + 33) < fuel)%nat ->
  exists probed,
    snd (find_network_fuel' fuel ip netmask w) = logged w probed /\
    forall key e, In key probed -> find_one key = Err e ->
      fst (find_network_fuel' fuel ip netmask w) = Return None.
Proof.
  induction fuel as [| fuel IH]; intros ip netmask w Hfuel; [lia |].
  destruct (ip_address ip) as [a | e] eqn:Hip.
  2: { erewrite find_network_fuel_unparsed by eassumption.
       exists []. rewrite logged_nil. split; [reflexivity | intros ? ? []]. }
  rewrite (find_network_fuel_step _ _ a) by assumption. rewrite step_length.
  pose proof (offset_bounds a) as Hoff.
  destruct (Z_lt_dec (netmask + offset a) 0) as [Hneg | Hpos].
  { rewrite supernet_negative by assumption.
    exists []. rewrite logged_nil. split; [reflexivity | intros ? ? []]. }
  destruct (supernet _ _) as [net | e].
  2: { exists []. rewrite logged_nil. split; [reflexivity | intros ? ? []]. }
  cbn zeta. set (k := str_network net).
  destruct (find_one k) as [[r |] | e] eqn:Hk.
  - exists [k]. split; [reflexivity |]. intros key e [<- | []]. congruence.
  - destruct (netmask =? 0).
    { exists [k]. split; [reflexivity |]. intros key e [<- | []]. congruence. }
    destruct (IH ip (netmask - 1) (log (DbFindOne k) w)) as (probed & Hlog & Hfail); [lia |].
    destruct (find_network_fuel_returns fuel ip (netmask - 1) (log (DbFindOne k) w))
      as (r & w' & Hrec); [lia |].
    rewrite Hrec in *. cbn [fst snd] in *. subst w'.
    exists (k :: probed). rewrite logged_log. split; [reflexivity |].
    intros key e [<- | Hin]; [congruence | eauto].
  - exists [k]. split; [reflexivity |]. reflexivity.
Qed.

(** C2.  [find_network] never raises and never runs short: it always
    returns.  It returns [None], having asked nothing, when the address
    does not parse; and it returns [None] when a lookup it made on the
    collection failed. *)
Theorem find_network_swallows_errors ip netmask w :
  (exists r, fst (find_network' ip netmask w) = Return r) /\
  (forall e, ip_address ip = Err e -> find_network' ip netmask w = (Return None, w)) /\
  (forall key e,
     In (DbFindOne key) (new_calls w (snd (find_network' ip netmask w))) ->
     find_one key = Err e ->
     fst (find_network' ip netmask w) = Return None).
Proof.
  unfold find_network, find_network_depth. repeat split.
  - destruct (find_network_fuel_returns (S (Z.to_nat (netmask + 33))) ip netmask w)
      as (r & w' & Hrun); [lia |].
    exists r. rewrite Hrun. reflexivity.
  - intros e Hip. eapply find_network_fuel_unparsed; eassumption.
  - intros key e Hin Herr.
    destruct (find_network_trace (S (Z.to_nat (netmask + 33))) ip netmask w)
      as (probed & Hlog & Hfail); [lia |].
    rewrite Hlog, new_calls_logged in Hin.
    apply (Hfail key e); [| assumption].
    apply list_elem_of_In, list_elem_of_fmap in Hin.
    destruct Hin as (k & [= ->] & Hin). apply list_elem_of_In. assumption.
Qed.

(** C3.  [find_network] terminates for every address and every [netmask]:
    with the depth it is given it returns, and more depth changes nothing.
    From [netmask = 32] the lookups are those of consecutive lengths, each
    one less than the one before, and there are at most 33 of them for an
    IPv4 address and at most 129 for an IPv6 address (none for a string
    that is no address). *)
Theorem find_network_terminates ip w :
  (forall netmask, exists r w', find_network' ip netmask w = (Return r, w')) /\
  (forall netmask fuel, (find_network_depth netmask <= fuel)%nat ->
     find_network_fuel' fuel ip netmask w = find_network' ip netmask w) /\
  match ip_address ip with
  | Ok a =>
      exists n, (n <= 33)%nat /\
        new_calls w (snd (resolve' ip w)) =
        DbFindOne <$> (probe_key' a <$> lengths_down (if version a =? 4 then 32 else 64) n)
  | Err _ => new_calls w (snd (resolve' ip w)) = []
  end /\
  (List.length (new_calls w (snd (resolve' ip w))) <=
   match ip_address ip with
   | Ok a => if (version a =? 4)%Z then 33 else 129
   | Err _ => 0
   end)%nat.
Proof.
  assert (Hprobes :
    match ip_address ip with
    | Ok a =>
        exists n, (n <= 33)%nat /\
          new_calls w (snd (resolve' ip w)) =
          DbFindOne <$> (probe_key' a <$> lengths_down (if version a =? 4 then 32 else 64) n)
    | Err _ => new_calls w (snd (resolve' ip w)) = []
    end).
  { destruct (ip_address ip) as [a | e] eqn:Hip.
    - rewrite (resolve_scan ip a) by assumption. cbn [snd]. rewrite new_calls_logged.
      destruct (scan_probed_prefix (probe_key' a <$> probed_lengths a)) as (n & Hn & ->).
      unfold probed_lengths. rewrite firstn_lengths_down.
      exists (Nat.min n 33). split; [lia | reflexivity].
    - unfold resolve, find_network, find_network_depth.
      erewrite find_network_fuel_unparsed by eassumption.
      cbn [snd]. unfold new_calls. apply drop_all. }
  repeat split.
  - intros netmask. apply find_network_fuel_returns. unfold find_network_depth. lia.
  - intros netmask fuel Hfuel. unfold find_network.
    apply find_network_fuel_enough; unfold find_network_depth in *; lia.
  - exact Hprobes.
  - destruct (ip_address ip) as [a | e].
    + destruct Hprobes as (n & Hn & ->). rewrite !length_fmap. unfold lengths_down.
      rewrite length_fmap, length_seq. destruct (version a =? 4); lia.
    + rewrite Hprobes. cbn. lia.
Qed.

End PrefixResolverFacts.

(** The lengths gone through and the lengths of the design document are
    the same for an IPv4 address. *)
Lemma probed_lengths_ipv4 a :
  ipaddress.version a = 4 -> probed_lengths a = specified_lengths a.
Proof. intros Hv. unfold probed_lengths, specified_lengths. rewrite Hv. reflexivity. Qed.




Lemma find_network_swallows_errors_witness :
  IpText.ip_address "not an address" = Py.Err Py.ValueError /\
  find_network IpText.ip_address IpText.str_network Sample.db_down
               "not an address" 32 (Sample.at_time 0) =
    (Py.Return None, Sample.at_time 0) /\
  Sample.db_down "10.1.2.3/32" = Py.Err (Py.LibraryError "ServerSelectionTimeoutError") /\
  fst (find_network IpText.ip_address IpText.str_network Sample.db_down
                    "10.1.2.3" 32 (Sample.at_time 0)) = Py.Return None.
Proof.
  pose proof (find_network_swallows_errors IpText.ip_address IpText.str_network
                Sample.db_down) as H.
  split; [reflexivity |]. split.
  - apply (proj1 (proj2 (H "not an address" 32 (Sample.at_time 0))) Py.ValueError).
    reflexivity.
  - split; [reflexivity |].
    apply (proj2 (proj2 (H "10.1.2.3" 32 (Sample.at_time 0)))
             "10.1.2.3/32" (Py.LibraryError "ServerSelectionTimeoutError")).
    + left. reflexivity.
    + reflexivity.
Defined.

Lemma find_network_terminates_witness :
  (find_network_depth 32 <= 100)%nat /\
  find_network_fuel IpText.ip_address IpText.str_network
                    (find_one_in [Sample.wide_route]) 100 "10.1.2.3" 32 (Sample.at_time 0) =
  find_network IpText.ip_address IpText.str_network
               (find_one_in [Sample.wide_route]) "10.1.2.3" 32 (Sample.at_time 0).
Proof.
  split; [vm_compute; lia |].
  apply (proj1 (proj2 (find_network_terminates IpText.ip_address IpText.str_network
                         (find_one_in [Sample.wide_route]) "10.1.2.3" (Sample.at_time 0)))).
  vm_compute. lia.
Defined.

(** ** NameResolver *)

Section NameResolverFacts.
Import Py.

Variable resolver_query : string -> string -> res (list string).

(** C4.  For an ASN from 64512 to 65534, [asn_name_query] returns the
    fixed label and the world is as before: no call was logged, whatever
    the resolver would have answered. *)
Theorem asn_name_query_private_use asn w :
  64512 <= asn <= 65534 ->
  asn_name_query resolver_query (Some asn) w =
  (Return (Some "RFC6996 - Private Use ASN"), w).
Proof.
  intros [Hlo Hhi]. unfold asn_name_query.
  apply Z.leb_le in Hlo, Hhi. rewrite Hlo, Hhi. reflexivity.
Qed.

(** C10.  For an ASN outside the private range (the default one when the
    argument is [None]), when the resolver answers without error and the
    answer holds no record, [asn_name_query] returns Python's [None]:
    neither a name nor ["(DNS Error)"]. *)
Theorem asn_name_query_empty_answer asn w :
  let number := match asn with None => _DEFAULT_ASN | Some n => n end in
  let qname := "as" +:+ str_int number +:+ ".asn.cymru.com" in
  ~ (64512 <= number <= 65534) ->
  resolver_query qname "TXT" = Ok [] ->
  asn_name_query resolver_query asn w = (Return None, log (DnsQuery qname "TXT") w).
Proof.
  intros number qname Hout Hanswer. unfold asn_name_query. fold number.
  destruct ((64512 <=? number) && (number <=? 65534)) eqn:Hrange.
  { apply andb_true_iff in Hrange as [Hlo Hhi]. apply Z.leb_le in Hlo, Hhi. lia. }
  unfold try_except, mbind, M_bind, bind, dns_query, external. fold qname.
  rewrite Hanswer. reflexivity.
Qed.

End NameResolverFacts.

Lemma asn_name_query_private_use_witness :
  64512 <= 65000 <= 65534 /\
  asn_name_query Sample.dns_down (Some 65000) (Sample.at_time 0) =
  (Py.Return (Some "RFC6996 - Private Use ASN"), Sample.at_time 0).
Proof. split; [lia |]. apply asn_name_query_private_use. lia. Defined.

Lemma asn_name_query_empty_answer_witness :
  ~ (64512 <= 15169 <= 65534) /\
  Sample.dns_empty "as15169.asn.cymru.com" "TXT" = Py.Ok [] /\
  asn_name_query Sample.dns_empty (Some 15169) (Sample.at_time 0) =
  (Py.Return None,
   {| Py.calls := [Py.DnsQuery "as15169.asn.cymru.com" "TXT"]; Py.clock := 0 |}).
Proof.
  split; [lia |]. split; [reflexivity |].
  apply (asn_name_query_empty_answer Sample.dns_empty (Some 15169) (Sample.at_time 0));
    [lia | reflexivity].
Defined.

(** ** StatsAggregator *)

(** *** Floats: a positive integer times 1.0 is not zero

    The mantissa of a float is shifted right by fewer bits than it has, as
    long as the value is not below the smallest float; what is left is
    positive, and rounding does not make it smaller. *)

Section FloatFacts.
Import Py.

Local Abbreviation prec := PyFloat.prec.
Local Abbreviation emax := PyFloat.emax.

Lemma digits2_pos_size p : digits2_pos p = Pos.size p.
Proof. induction p; cbn; congruence. Qed.

Lemma digits2_log2 p : Zpos (digits2_pos p) = Z.log2 (Zpos p) + 1.
Proof.
  rewrite digits2_pos_size. destruct p; cbn; lia.
Qed.

Lemma shr_1_m mrs : 0 <= shr_m mrs -> shr_m (shr_1 mrs) = Z.div2 (shr_m mrs).
Proof. destruct mrs as [[| [p | p |] | p] r s]; cbn; intros H; try reflexivity; lia. Qed.

Lemma iter_shr_1_m n : forall mrs,
  0 <= shr_m mrs ->
  shr_m (SpecFloat.iter_pos shr_1 n mrs) = Z.shiftr (shr_m mrs) (Zpos n).
Proof.
  assert (Hnn : forall m k, 0 <= m -> 0 <= Z.shiftr m k)
    by (intros; apply Z.shiftr_nonneg; assumption).
  induction n as [n IH | n IH |]; intros mrs Hm; cbn [SpecFloat.iter_pos].
  - assert (H1 : 0 <= shr_m (shr_1 mrs))
      by (rewrite shr_1_m by assumption; apply Z.div2_nonneg; assumption).
    assert (E1 := IH (shr_1 mrs) H1).
    assert (H2 : 0 <= shr_m (SpecFloat.iter_pos shr_1 n (shr_1 mrs)))
      by (rewrite E1; auto).
    rewrite (IH _ H2), E1, shr_1_m, Z.div2_spec, !Z.shiftr_shiftr by lia. f_equal. lia.
  - assert (E1 := IH mrs Hm).
    assert (H2 : 0 <= shr_m (SpecFloat.iter_pos shr_1 n mrs)) by (rewrite E1; auto).
    rewrite (IH _ H2), E1, Z.shiftr_shiftr by lia. f_equal. lia.
  - rewrite shr_1_m by assumption. apply Z.div2_spec.
Qed.

(** Shifting a positive mantissa by fewer bits than it has leaves it
    positive. *)
Lemma shr_fexp_positive m e l :
  - 1074 < e + Zpos (digits2_pos m) ->
  0 < shr_m (fst (shr_fexp prec emax (Zpos m) e l)) /\
  e <= snd (shr_fexp prec emax (Zpos m) e l) /\
  (- 1074 <= e \/ - 1074 <= snd (shr_fexp prec emax (Zpos m) e l)).
Proof.
  intros Hbig. unfold shr_fexp, shr. cbn [Zdigits2].
  set (n := fexp prec emax (Zpos (digits2_pos m) + e) - e).
  assert (Hn : n < Zpos (digits2_pos m)).
  { unfold n, fexp, emin, PyFloat.prec, PyFloat.emax. lia. }
  assert (Hm0 : shr_m (shr_record_of_loc (Zpos m) l) = Zpos m)
    by (destruct l as [| []]; reflexivity).
  destruct n as [| p | p] eqn:Hp; cbn [fst snd].
  - rewrite Hm0. split; [lia |]. split; [lia |]. unfold n in Hp.
    unfold fexp, emin, PyFloat.prec, PyFloat.emax in Hp. lia.
  - rewrite iter_shr_1_m by (rewrite Hm0; lia). rewrite Hm0.
    split; [| split; [lia |]].
    + rewrite Z.shiftr_div_pow2 by lia. apply Z.div_str_pos. split; [lia |].
      rewrite digits2_log2 in Hn.
      apply Z.le_trans with (2 ^ Z.log2 (Zpos m)).
      * apply Z.pow_le_mono_r; lia.
      * apply Z.log2_spec. lia.
    + right. unfold n in Hp. unfold fexp, emin, PyFloat.prec, PyFloat.emax in Hp. lia.
  - rewrite Hm0. split; [lia |]. split; [lia |]. unfold n in Hp.
    unfold fexp, emin, PyFloat.prec, PyFloat.emax in Hp. lia.
Qed.

Lemma round_nearest_even_positive m l : 0 < m -> 0 < round_nearest_even m l.
Proof. intros Hm. unfold round_nearest_even. destruct l as [| []]; try destruct (Z.even m); lia. Qed.

(** Rounding a positive mantissa that is not below the smallest float
    gives a finite float, of exponent at least -1074, or an infinity. *)
Lemma binary_round_aux_positive s m e :
  - 1074 < e + Zpos (digits2_pos m) ->
  match binary_round_aux prec emax s (Zpos m) e loc_Exact with
  | S754_finite _ _ e' => - 1074 <= e'
  | S754_infinity _ => True
  | _ => False
  end.
Proof.
  intros Hbig. unfold binary_round_aux.
  destruct (shr_fexp_positive m e loc_Exact Hbig) as (Hm1 & He1 & Hlo1).
  destruct (shr_fexp prec emax (Zpos m) e loc_Exact) as [mrs1 e1]. cbn [fst snd] in *.
  pose proof (round_nearest_even_positive (shr_m mrs1) (loc_of_shr_record mrs1) Hm1) as Hm2.
  destruct (round_nearest_even (shr_m mrs1) (loc_of_shr_record mrs1)) as [| m2 | m2];
    try lia.
  destruct (shr_fexp_positive m2 e1 loc_Exact) as (Hm3 & He3 & Hlo3); [lia |].
  destruct (shr_fexp prec emax (Zpos m2) e1 loc_Exact) as [mrs3 e3]. cbn [fst snd] in *.
  destruct (shr_m mrs3) as [| m3 | m3]; try lia.
  destruct (e3 <=? emax - prec); [lia | exact I].
Qed.

Lemma of_int_positive p :
  match PyFloat.of_int (Zpos p) with
  | Ok (S754_finite _ _ e) => - 1074 <= e
  | Ok _ => False
  | Err _ => True
  end.
Proof.
  unfold PyFloat.of_int, binary_normalize, binary_round, shl_align.
  set (target := fexp prec emax (Zpos (digits2_pos p) + 0)).
  assert (Htarget : - 1074 <= target)
    by (unfold target, fexp, emin, PyFloat.prec, PyFloat.emax; lia).
  destruct (target - 0) as [| d | d] eqn:Hd.
  - pose proof (binary_round_aux_positive false p 0) as H.
    destruct (binary_round_aux _ _ _ _ _ _); try exact I; apply H; lia.
  - pose proof (binary_round_aux_positive false p 0) as H.
    destruct (binary_round_aux _ _ _ _ _ _); try exact I; apply H; lia.
  - pose proof (binary_round_aux_positive false (Pos.iter xO p d) target) as H.
    destruct (binary_round_aux _ _ _ _ _ _); try exact I; apply H; lia.
Qed.

Lemma digits2_times_one m : 53 <= Zpos (digits2_pos (m * 4503599627370496)).
Proof.
  rewrite digits2_log2.
  assert (52 <= Z.log2 (Zpos (m * 4503599627370496))); [| lia].
  change 52 with (Z.log2 (2 ^ 52)). apply Z.log2_le_mono. lia.
Qed.

(** [n * 1.0] is not zero for a positive integer [n]. *)
Lemma int_mul_one_nonzero p :
  match PyFloat.int_mul (Zpos p) PyFloat.one with
  | Ok divisor => PyFloat.is_zero divisor = false
  | Err _ => True
  end.
Proof.
  unfold PyFloat.int_mul. pose proof (of_int_positive p) as Hx.
  destruct (PyFloat.of_int (Zpos p)) as [[| | | s m e] | err]; try exact I; try (exfalso; exact Hx).
  unfold PyFloat.one, SFmul.
  pose proof (binary_round_aux_positive (xorb s false) (m * 4503599627370496) (e + -52)) as H.
  pose proof (digits2_times_one m) as Hd.
  destruct (binary_round_aux _ _ _ _ _ _); cbn; try reflexivity; exfalso; apply H; lia.
Qed.
End FloatFacts.

Section AverageFacts.
Import Py.

(** [len(set(path))] is the number of distinct elements of the path. *)
Lemma size_set_distinct (path : list Z) :
  size (list_to_set path : gset Z) = List.length (remove_dups path).
Proof.
  rewrite <- (size_list_to_set (C := gset Z) (remove_dups path)) by apply NoDup_remove_dups.
  f_equal. apply set_eq. intros x.
  rewrite !elem_of_list_to_set, elem_of_remove_dups. reflexivity.
Qed.

(** The loop over the entries adds up their distinct counts, the entries
    without path going through the handler. *)
Lemma as_path_loop docs : forall acc w,
  for_each docs
    (fun as_path_counter prefix =>
       try_except
         (path ← lift (as_path_of prefix);
          ret (as_path_counter + Z.of_nat (size (list_to_set path : gset Z))))
         (ret as_path_counter))
    acc w =
  (Return (acc + sum_Z (distinct_as_count <$> docs)), w).
Proof.
  induction docs as [| e docs IH]; intros acc w.
  - cbn. rewrite Z.add_0_r. reflexivity.
  - cbn [for_each fmap list_fmap sum_Z fold_right].
    unfold bind at 1. unfold try_except, mbind, M_bind, bind, as_path_of, distinct_as_count.
    destruct (Route.as_path e) as [path |]; cbn [lift ret raise].
    + rewrite IH. rewrite size_set_distinct.
      unfold sum_Z, distinct_as_count. do 2 f_equal. lia.
    + rewrite IH. unfold sum_Z, distinct_as_count. do 2 f_equal.
Qed.

Lemma filter_all {A} (l : list A) : List.filter (fun _ => true) l = l.
Proof. induction l; cbn; congruence. Qed.

Lemma avg_as_path_length_formula docs w :
  avg_as_path_length docs w =
  (match rounded_quotient (sum_Z (distinct_as_count <$> docs))
                          (Z.of_nat (List.length docs)) with
   | Ok f => Return f
   | Err e => Raise e
   end, w).
Proof.
  unfold avg_as_path_length, Mongo.find, Mongo.count. rewrite filter_all.
  unfold mbind, M_bind. unfold bind at 1. rewrite as_path_loop. rewrite Z.add_0_l.
  unfold rounded_quotient, bind.
  destruct (PyFloat.int_mul _ _) as [divisor | e]; cbn [lift ret raise]; [| reflexivity].
  destruct (PyFloat.int_truediv _ _) as [quotient | e]; reflexivity.
Qed.


(** On a table with an entry the divisor is not zero. *)
Lemma avg_as_path_length_divisor docs w :
  docs <> [] -> fst (avg_as_path_length docs w) <> Raise ZeroDivisionError.
Proof.
  intros Hdocs. rewrite avg_as_path_length_formula. cbn [fst]. unfold rounded_quotient.
  destruct docs as [| e docs]; [congruence |].
  cbn [List.length]. rewrite Nat2Z.inj_succ, <- Z.add_1_r.
  destruct (Z.of_nat (List.length docs) + 1) as [| p | p] eqn:Hp; try lia.
  pose proof (int_mul_one_nonzero p) as Hdiv.
  destruct (PyFloat.int_mul (Zpos p) PyFloat.one) as [divisor | err] eqn:Hmul.
  - unfold PyFloat.int_truediv. rewrite Hdiv.
    unfold PyFloat.of_int.
    destruct (binary_normalize _ _ _ _ _); discriminate.
  - unfold PyFloat.int_mul, PyFloat.of_int in Hmul.
    destruct (binary_normalize _ _ _ _ _); try discriminate.
    injection Hmul as <-. discriminate.
Qed.

(** C9.  On the empty table the division raises [ZeroDivisionError], out
    of reach of the handler inside the loop, and on no other table does it
    raise that; so whenever [avg_as_path_length] returns a value the table
    was not empty. *)
Theorem avg_as_path_length_needs_entries :
  (forall w, avg_as_path_length [] w = (Raise ZeroDivisionError, w)) /\
  (forall docs w, fst (avg_as_path_length docs w) = Raise ZeroDivisionError <-> docs = []) /\
  (forall docs w f, fst (avg_as_path_length docs w) = Return f -> docs <> []).
Proof.
  split; [reflexivity |]. split.
  - intros docs w. split.
    + intros Hrun. destruct docs as [| e docs]; [reflexivity |].
      exfalso. revert Hrun. apply avg_as_path_length_divisor. discriminate.
    + intros ->. reflexivity.
  - intros docs w f Hrun ->. discriminate Hrun.
Qed.

End AverageFacts.

Lemma avg_as_path_length_needs_entries_witness :
  fst (avg_as_path_length [Sample.prepended_route] (Sample.at_time 0)) =
    Py.Return (S754_finite false 4503599627370496 (-51)) /\
  [Sample.prepended_route] <> [].
Proof.
  split; [reflexivity |].
  apply (proj2 (proj2 avg_as_path_length_needs_entries) [Sample.prepended_route]
           (Sample.at_time 0) (S754_finite false 4503599627370496 (-51))).
  reflexivity.
Defined.

Section CommunityFacts.
Import Py.

Lemma append_cons a c t : String a c +:+ t = String a (c +:+ t).
Proof. reflexivity. Qed.

Lemma append_empty t : "" +:+ t = t.
Proof. reflexivity. Qed.

Lemma prefix_append c : forall s,
  String.prefix c s = true <-> exists after, s = c +:+ after.
Proof.
  induction c as [| a c IH]; intros s.
  - split; [intros _; exists s; reflexivity | intros _; destruct s; reflexivity].
  - destruct s as [| b s]; cbn.
    + split; [discriminate | intros [after H]; discriminate H].
    + destruct (Ascii.ascii_dec a b) as [-> | Hne].
      * rewrite IH. split; intros [after H]; exists after; rewrite append_cons in *; congruence.
      * split; [discriminate | intros [after H]; rewrite append_cons in H; congruence].
Qed.

(** The test [contains] decides occurrence as a substring. *)
Lemma contains_substring_of c s : contains c s = true <-> substring_of c s.
Proof.
  unfold substring_of. split.
  - induction s as [| a s IH]; cbn [contains]; rewrite orb_true_iff.
    + intros [H | H]; [| discriminate].
      apply prefix_append in H as [after ->]. exists "", after. reflexivity.
    + intros [H | H].
      * apply prefix_append in H as [after ->]. exists "", after. reflexivity.
      * destruct (IH H) as (before & after & ->).
        exists (String a before), after. reflexivity.
  - intros (before & after & ->). induction before as [| a before IH].
    + rewrite append_empty.
      assert (Hp : String.prefix c (c +:+ after) = true)
        by (apply prefix_append; exists after; reflexivity).
      destruct (c +:+ after); cbn [contains]; rewrite Hp; reflexivity.
    + rewrite append_cons. cbn [contains]. rewrite IH. apply orb_true_r.
Qed.

Lemma contains_refl c : contains c c = true.
Proof.
  apply contains_substring_of. exists "", "". rewrite append_empty.
  induction c as [| a c IH]; [reflexivity | rewrite append_cons; congruence].
Qed.

Lemma filter_length_le {A} (p q : A -> bool) (l : list A) :
  (forall x, p x = true -> q x = true) ->
  (List.length (List.filter p l) <= List.length (List.filter q l))%nat.
Proof.
  intros Hpq. induction l as [| x l IH]; cbn; [lia |].
  destruct (p x) eqn:Hp.
  - rewrite (Hpq x Hp). cbn. lia.
  - destruct (q x); cbn; lia.
Qed.

Lemma exact_le_substring docs c : exact_count docs c <= substring_count docs c.
Proof.
  unfold exact_count, substring_count. apply inj_le, filter_length_le.
  intros e He. apply bool_decide_eq_true in He.
  apply existsb_exists. exists c. split; [apply list_elem_of_In, He | apply contains_refl].
Qed.

Variable docs : list Route.entry.
Variable regex : string -> res (string -> bool).

Lemma matching_count matcher c :
  (forall s, matcher s = contains c s) ->
  Mongo.count (Mongo.find (matching matcher) docs) = substring_count docs c.
Proof.
  intros Hm. unfold Mongo.count, Mongo.find, substring_count, matching.
  do 2 f_equal. apply List.filter_ext. intros e.
  induction (Route.communities e) as [| s l IH]; cbn; congruence.
Qed.

Lemma communities_loop comms : forall acc w,
  (forall c, In c comms -> exists matcher,
      regex c = Ok matcher /\ forall s, matcher s = contains c s) ->
  for_each comms
    (fun json_data comm =>
       matcher ← lift (regex comm);
       ret (json_data ++
            [{| comm_community := comm;
                comm_count := Mongo.count (Mongo.find (matching matcher) docs) |}]))
    acc w =
  (Return (acc ++ (community_row docs <$> comms)), w).
Proof.
  induction comms as [| c comms IH]; intros acc w Hregex.
  - cbn. rewrite app_nil_r. reflexivity.
  - destruct (Hregex c (or_introl eq_refl)) as (matcher & Hc & Hm).
    cbn [for_each]. unfold bind at 1. unfold mbind, M_bind, bind. rewrite Hc.
    cbn [lift ret]. rewrite IH by (intros; apply Hregex; right; assumption).
    rewrite (matching_count matcher c Hm), <- app_assoc. reflexivity.
Qed.

Lemma communities_count_rows w :
  (forall c, In c (Mongo.distinct Route.communities docs) -> exists matcher,
      regex c = Ok matcher /\ forall s, matcher s = contains c s) ->
  communities_count docs regex w =
  (Return (community_row docs <$> Mongo.distinct Route.communities docs), w).
Proof. intros Hregex. unfold communities_count. rewrite communities_loop; auto. Qed.

Lemma elem_of_distinct_communities c :
  c ∈ Mongo.distinct Route.communities docs <->
  exists e, e ∈ docs /\ c ∈ Route.communities e.
Proof.
  unfold Mongo.distinct. rewrite elem_of_remove_dups, list_elem_of_In, in_concat.
  split.
  - intros (l & Hl & Hc). apply list_elem_of_In, list_elem_of_fmap in Hl as (e & -> & He).
    exists e. split; [assumption | apply list_elem_of_In; assumption].
  - intros (e & He & Hc). exists (Route.communities e).
    split; [apply list_elem_of_In, list_elem_of_fmap; eauto | apply list_elem_of_In; assumption].
Qed.

End CommunityFacts.



(** ** StatsCache *)

Section TimelessFacts.
Import Py.

(** The outcome of every aggregator is the same in every world: the log
    and the clock do not enter it. *)
Lemma timeless_ret {A} (a : A) : timeless (ret a).
Proof. intros w w'. reflexivity. Qed.

Lemma timeless_mret {A} (a : A) : timeless (mret (M := M) a).
Proof. intros w w'. reflexivity. Qed.

Lemma timeless_raise {A} e : timeless (raise (A := A) e).
Proof. intros w w'. reflexivity. Qed.

Lemma timeless_lift {A} (r : res A) : timeless (lift r).
Proof. destruct r; intros w w'; reflexivity. Qed.

Lemma timeless_external {A} c (r : res A) : timeless (external c r).
Proof. unfold external. intros w w'. apply timeless_lift. Qed.

Lemma timeless_bind {A B} (m : M A) (k : A -> M B) :
  timeless m -> (forall a, timeless (k a)) -> timeless (bind m k).
Proof.
  intros Hm Hk w w'. unfold bind. specialize (Hm w w').
  destruct (m w) as [[a | e |] w1], (m w') as [[a' | e' |] w1']; cbn in Hm;
    try discriminate; try (injection Hm as ->); try reflexivity.
  apply Hk.
Qed.

Lemma timeless_mbind {A B} (m : M A) (k : A -> M B) :
  timeless m -> (forall a, timeless (k a)) -> timeless (mbind k m).
Proof. apply timeless_bind. Qed.

Lemma timeless_try_except {A} (body handler : M A) :
  timeless body -> timeless handler -> timeless (try_except body handler).
Proof.
  intros Hb Hh w w'. unfold try_except. specialize (Hb w w').
  destruct (body w) as [[a | e |] w1], (body w') as [[a' | e' |] w1']; cbn in Hb;
    try discriminate; try (injection Hb as ->); try reflexivity.
  apply Hh.
Qed.

Lemma timeless_for_each {A S} (xs : list A) (body : S -> A -> M S) :
  (forall acc x, timeless (body acc x)) -> forall acc, timeless (for_each xs body acc).
Proof.
  intros Hbody. induction xs as [| x xs IH]; intros acc; cbn [for_each].
  - apply timeless_ret.
  - apply timeless_bind; auto.
Qed.

Lemma timeless_comprehension {A B} (f : A -> M B) (xs : list A) :
  (forall x, timeless (f x)) -> timeless (comprehension f xs).
Proof.
  intros Hf. induction xs as [| x xs IH]; cbn [comprehension].
  - apply timeless_ret.
  - apply timeless_bind; [apply Hf |]. intros y.
    apply timeless_bind; [apply IH |]. intros ys. apply timeless_ret.
Qed.

End TimelessFacts.

(** One step of a proof that a computation is timeless, by its shape. *)
Ltac timeless_step :=
  first
    [ apply timeless_ret | apply timeless_mret | apply timeless_raise
    | apply timeless_lift | apply timeless_external
    | apply timeless_try_except | apply timeless_for_each | apply timeless_comprehension
    | apply timeless_mbind | apply timeless_bind
    | progress intros
    | match goal with
      | |- context [match ?p with (_, _) => _ end] => is_var p; destruct p
      | |- timeless (if ?b then _ else _) => destruct b
      | |- timeless (match ?x with _ => _ end) => destruct x
      end ].

Section RefreshMachinery.
Import Py.

Lemma timeless_asn_name_query resolver_query asn :
  timeless (asn_name_query resolver_query asn).
Proof. unfold asn_name_query, dns_query. repeat timeless_step. Qed.

Lemma timeless_peer_rows docs resolver_query myset :
  timeless (peer_rows docs resolver_query myset).
Proof.
  unfold peer_rows.
  repeat first [apply timeless_asn_name_query | timeless_step].
Qed.

Lemma timeless_customers docs resolver_query : timeless (customers docs resolver_query).
Proof. apply timeless_peer_rows. Qed.

Lemma timeless_peers docs resolver_query : timeless (peers docs resolver_query).
Proof. unfold peers. repeat first [apply timeless_peer_rows | timeless_step]. Qed.

Lemma timeless_top_peers docs resolver_query count :
  timeless (top_peers docs resolver_query count).
Proof.
  unfold top_peers. repeat first [apply timeless_asn_name_query | timeless_step].
Qed.

Lemma timeless_avg_as_path_length docs : timeless (avg_as_path_length docs).
Proof. unfold avg_as_path_length. repeat timeless_step. Qed.

Lemma timeless_cidr_breakdown docs : timeless (cidr_breakdown docs).
Proof. unfold cidr_breakdown. repeat timeless_step. Qed.

Lemma timeless_communities_count docs regex : timeless (communities_count docs regex).
Proof. unfold communities_count. repeat timeless_step. Qed.

Lemma timeless_same_kind {A} (m : M A) : timeless m -> same_kind m.
Proof.
  intros Hm w w'. specialize (Hm w w').
  destruct (fst (m w)), (fst (m w')); try discriminate; exact I.
Qed.

Lemma same_kind_clock zone :
  same_kind (now ← time_time; ret (epoch_to_date zone now)).
Proof. intros w w'. exact I. Qed.

(** The outcome of one assignment. *)
Lemma assign_outcome {A} (expression : M A) (store : A -> Stats.t -> Stats.t) w :
  fst (assign expression store w) =
  match fst (expression w) with
  | Return v => Return (store v)
  | Raise e => Raise e
  | OutOfFuel => OutOfFuel
  end.
Proof.
  unfold assign, mbind, M_bind, bind.
  destruct (expression w) as [[v | e |] w1]; reflexivity.
Qed.

Lemma repeatable_keeps {X A} (field : Stats.t -> X) (expression : M A) store :
  same_kind expression -> (forall v, keeps field (store v)) ->
  repeatable field (assign expression store).
Proof.
  intros Hkind Hkeeps w w'. rewrite !assign_outcome. specialize (Hkind w w').
  destruct (fst (expression w)), (fst (expression w')); try exact Hkind.
  left. split; apply Hkeeps.
Qed.

Lemma repeatable_sets {X A} (field : Stats.t -> X) (expression : M A) store :
  timeless expression -> (forall v, exists c, forall s, field (store v s) = c) ->
  repeatable field (assign expression store).
Proof.
  intros Htimeless Hsets w w'. rewrite !assign_outcome. specialize (Htimeless w w').
  destruct (fst (expression w)) as [v | e |], (fst (expression w')) as [v' | e' |];
    try discriminate; try exact I.
  injection Htimeless as ->. destruct (Hsets v') as [c Hc].
  right. exists c. intros s. split; apply Hc.
Qed.

Lemma stmt_keeps_assign {X A} (field : Stats.t -> X) (expression : M A) store :
  (forall v, keeps field (store v)) -> stmt_keeps field (assign expression store).
Proof.
  intros Hkeeps w f. rewrite assign_outcome.
  destruct (fst (expression w)); try discriminate. intros [= <-]. apply Hkeeps.
Qed.

(** Running a body is applying the stores of the statements that returned. *)
Lemma run_body_stores body : forall self w,
  snd (fst (run_body body self w)) = apply_stores (stores_of body w) self.
Proof.
  induction body as [| stmt rest IH]; intros self w; cbn [run_body stores_of].
  - reflexivity.
  - destruct (stmt w) as [[store | e |] w1]; [apply IH | reflexivity | reflexivity].
Qed.

Lemma stores_repeatable {X} (field : Stats.t -> X) body :
  Forall (repeatable field) body ->
  forall w w', Forall2 (same_on field) (stores_of body w) (stores_of body w').
Proof.
  induction 1 as [| stmt rest Hstmt _ IH]; intros w w'; cbn [stores_of].
  - constructor.
  - specialize (Hstmt w w').
    destruct (stmt w) as [[store | e |] w1], (stmt w') as [[store' | e' |] w1'];
      cbn [fst] in Hstmt; try (exfalso; exact Hstmt); constructor; auto.
Qed.

Lemma apply_stores_snoc stores store self :
  apply_stores (stores ++ [store]) self = store (apply_stores stores self).
Proof. unfold apply_stores. rewrite fold_left_app. reflexivity. Qed.

(** Applying the same stores again does not move a field they agree on. *)
Lemma rerun_field {X} (field : Stats.t -> X) stores stores' :
  Forall2 (same_on field) stores stores' ->
  forall s t, field t = field (apply_stores stores s) ->
              field (apply_stores stores' t) = field (apply_stores stores s).
Proof.
  revert stores'. induction stores as [| store stores IH] using rev_ind;
    intros stores' Hsame s t Ht.
  - apply Forall2_nil_inv_l in Hsame as ->. exact Ht.
  - apply Forall2_app_inv_l in Hsame as (stores0' & last' & Hsame & Hlast & ->).
    apply Forall2_cons_inv_l in Hlast as (store' & nil' & Hstore & Hnil & ->).
    apply Forall2_nil_inv_l in Hnil as ->.
    rewrite !apply_stores_snoc in *.
    destruct Hstore as [[Hk Hk'] | [c Hc]].
    + rewrite Hk, Hk' in *. apply IH; assumption.
    + destruct (Hc (apply_stores stores0' t)) as [_ ->].
      destruct (Hc (apply_stores stores s)) as [-> _]. reflexivity.
Qed.

Lemma refreshed_twice_field {X} (field : Stats.t -> X) body self w1 w2 :
  Forall (repeatable field) body ->
  field (refreshed body (refreshed body self w1) w2) = field (refreshed body self w1).
Proof.
  intros Hbody. unfold refreshed. rewrite !run_body_stores.
  apply rerun_field; [| reflexivity]. apply stores_repeatable, Hbody.
Qed.


Lemma sampled_cons stmt rest k self w :
  sampled (stmt :: rest) (S k) self w =
  match stmt w with
  | (Return store, w') => sampled rest k (store self) w'
  | _ => self
  end.
Proof.
  unfold sampled. cbn [firstn run_body].
  destruct (stmt w) as [[store | e |] w1]; reflexivity.
Qed.

Lemma refreshed_cons stmt rest self w :
  refreshed (stmt :: rest) self w =
  match stmt w with
  | (Return store, w') => refreshed rest (store self) w'
  | _ => self
  end.
Proof.
  unfold refreshed. cbn [run_body].
  destruct (stmt w) as [[store | e |] w1]; reflexivity.
Qed.

Lemma refreshed_keeps {X} (field : Stats.t -> X) body :
  Forall (stmt_keeps field) body ->
  forall self w, field (refreshed body self w) = field self.
Proof.
  induction 1 as [| stmt rest Hstmt _ IH]; intros self w; [reflexivity |].
  rewrite refreshed_cons. specialize (Hstmt w).
  destruct (stmt w) as [[store | e |] w1]; try reflexivity.
  rewrite IH. apply Hstmt. reflexivity.
Qed.

Lemma sampled_refreshed body k self w :
  sampled body k self w = refreshed (firstn k body) self w.
Proof. reflexivity. Qed.

Lemma sampled_all body self w :
  sampled body (List.length body) self w = refreshed body self w.
Proof. unfold sampled, refreshed. rewrite firstn_all. reflexivity. Qed.

(** A field stored by at most one statement of a body is, at every moment
    of a run, the one from before the run or the one the run leaves. *)
Lemma sampled_field {X} (field : Stats.t -> X) body :
  stored_once field body ->
  forall k self w,
    field (sampled body k self w) = field self \/
    field (sampled body k self w) = field (refreshed body self w).
Proof.
  induction body as [| stmt rest IH]; intros Honce k self w.
  - left. destruct k; reflexivity.
  - destruct k as [| k]; [left; reflexivity |].
    rewrite sampled_cons, refreshed_cons.
    destruct (stmt w) as [[store | e |] w1] eqn:Hstmt; try (left; reflexivity).
    destruct Honce as [[Hkeeps Honce] | Hrest].
    + destruct (IH Honce k (store self) w1) as [H | H]; [left | right; exact H].
      rewrite H. apply (Hkeeps w). rewrite Hstmt. reflexivity.
    + right. rewrite sampled_refreshed, !refreshed_keeps; try assumption; try reflexivity.
      apply Forall_take. assumption.
Qed.

End RefreshMachinery.

(** The statements of the two bodies, attribute by attribute. *)
Ltac timeless_expression :=
  repeat first
    [ apply timeless_customers | apply timeless_peers | apply timeless_top_peers
    | apply timeless_avg_as_path_length | apply timeless_cidr_breakdown
    | apply timeless_communities_count | timeless_step ].

Ltac repeatable_statement :=
  first
    [ apply repeatable_keeps;
      [ first [ apply same_kind_clock | apply timeless_same_kind; timeless_expression ]
      | intros v []; reflexivity ]
    | apply repeatable_sets;
      [ timeless_expression
      | intros v; eexists; intros []; cbn; reflexivity ] ].

Ltac repeatable_body :=
  unfold update_stats_body, update_advanced_stats_body, peer_count, prefix_count,
    nexthop_ip_count;
  repeat (apply List.Forall_cons; [repeatable_statement |]); apply List.Forall_nil.

Ltac stored_once_body :=
  unfold update_stats_body, update_advanced_stats_body; cbn [stored_once];
  repeat first
    [ exact I
    | left; split; [solve [apply stmt_keeps_assign; intros v []; reflexivity] |]
    | right; repeat (apply List.Forall_cons;
                     [apply stmt_keeps_assign; intros v []; reflexivity |]);
      apply List.Forall_nil ].

Section RefreshFacts.
Import Py.

Variable docs : list Route.entry.
Variable resolver_query : string -> string -> res (list string).
Variable regex : string -> res (string -> bool).
Variable zone : string.

Local Abbreviation fast := (update_stats_body docs resolver_query zone).
Local Abbreviation slow := (update_advanced_stats_body docs resolver_query regex zone).

(** A second run of either body moves no attribute but the timestamp. *)
Lemma refreshed_twice body self w1 w2 :
  body = fast \/ body = slow ->
  same_but_timestamp (refreshed body self w1) (refreshed body (refreshed body self w1) w2).
Proof.
  intros Hbody.
  assert (H1 := refreshed_twice_field Stats.peer_counter body self w1 w2).
  assert (H2 := refreshed_twice_field Stats.ipv4_table_size body self w1 w2).
  assert (H3 := refreshed_twice_field Stats.ipv6_table_size body self w1 w2).
  assert (H4 := refreshed_twice_field Stats.nexthop_ip_counter body self w1 w2).
  assert (H5 := refreshed_twice_field Stats.avg_as_path_length body self w1 w2).
  assert (H6 := refreshed_twice_field Stats.top_n_peers body self w1 w2).
  assert (H7 := refreshed_twice_field Stats.cidr_breakdown body self w1 w2).
  assert (H8 := refreshed_twice_field Stats.communities body self w1 w2).
  assert (H9 := refreshed_twice_field Stats.peers body self w1 w2).
  assert (H10 := refreshed_twice_field Stats.customers body self w1 w2).
  assert (H11 := refreshed_twice_field Stats.customer_count body self w1 w2).
  assert (H12 := refreshed_twice_field Stats.customer_ipv4_prefixes body self w1 w2).
  assert (H13 := refreshed_twice_field Stats.customer_ipv6_prefixes body self w1 w2).
  unfold same_but_timestamp.
  destruct (refreshed body (refreshed body self w1) w2), (refreshed body self w1).
  cbn in *.
  rewrite H1, H2, H3, H4, H5, H6, H7, H8, H9, H10, H11, H12, H13;
    try reflexivity; destruct Hbody as [-> | ->]; repeatable_body.
Qed.

(** Both bodies store each attribute at most once. *)
Lemma sampled_old_or_new body k self w :
  body = fast \/ body = slow ->
  old_or_new self (refreshed body self w) (sampled body k self w).
Proof.
  intros Hbody. unfold old_or_new.
  repeat split; apply sampled_field; destruct Hbody as [-> | ->]; stored_once_body.
Qed.

Lemma assign_ret {A} (v : A) store w : assign (ret v) store w = (Return (store v), w).
Proof. reflexivity. Qed.

Lemma assign_clock store w :
  assign (now ← time_time; ret (epoch_to_date zone now)) store w =
  (Return (store (epoch_to_date zone (clock w))), w).
Proof. reflexivity. Qed.

(** The fast refresh always reaches its fifth statement, so it leaves the
    time at which it ran in [timestamp]. *)
Lemma update_stats_timestamp self w :
  Stats.timestamp (snd (fst (update_stats docs resolver_query zone self w))) =
  epoch_to_date zone (clock w).
Proof.
  change (snd (fst (update_stats docs resolver_query zone self w)))
    with (refreshed (update_stats_body docs resolver_query zone) self w).
  unfold update_stats_body, peer_count, prefix_count, nexthop_ip_count.
  do 4 (rewrite refreshed_cons, assign_ret).
  rewrite refreshed_cons, assign_clock.
  rewrite refreshed_keeps.
  - destruct self. reflexivity.
  - repeat (apply List.Forall_cons; [apply stmt_keeps_assign; intros v []; reflexivity |]).
    apply List.Forall_nil.
Qed.

End RefreshFacts.

Lemma same_but_timestamp_set s s' :
  same_but_timestamp s s' -> s' = Stats.set_timestamp (Stats.timestamp s') s.
Proof.
  unfold same_but_timestamp. destruct s, s'. cbn. intros H. injection H as <-. congruence.
Qed.





(** * Further facts: the rest of the program *)

(** ** Running computations whose calls are known *)

Section RunFacts.
Import Py.

Lemma extend_nil w : extend w [] = w.
Proof. unfold extend. rewrite app_nil_r. destruct w; reflexivity. Qed.

Lemma extend_extend w cs cs' : extend (extend w cs) cs' = extend w (cs ++ cs').
Proof. unfold extend. cbn. rewrite app_assoc. reflexivity. Qed.

Lemma new_calls_extend w cs : new_calls w (extend w cs) = cs.
Proof. unfold new_calls, extend. cbn [calls]. apply drop_app_length. Qed.

(** A loop whose body returns in every world, adding calls that depend on
    the element only, returns the fold of its steps and adds the calls of
    its elements in order. *)
Lemma for_each_run {A S} (body : S -> A -> M S) (step : S -> A -> S)
    (cost : A -> list call) (xs : list A) :
  (forall acc x w, In x xs -> body acc x w = (Return (step acc x), extend w (cost x))) ->
  forall acc w,
    for_each xs body acc w =
    (Return (fold_left step xs acc), extend w (concat (cost <$> xs))).
Proof.
  induction xs as [| x xs IH]; intros Hbody acc w.
  - cbn. rewrite extend_nil. reflexivity.
  - cbn [for_each fold_left fmap list_fmap concat]. unfold bind.
    rewrite Hbody by (left; reflexivity).
    rewrite IH by (intros; apply Hbody; right; assumption).
    rewrite extend_extend. reflexivity.
Qed.

Lemma comprehension_run {A B} (f : A -> M B) (g : A -> B) (cost : A -> list call)
    (xs : list A) :
  (forall x w, In x xs -> f x w = (Return (g x), extend w (cost x))) ->
  forall w,
    comprehension f xs w = (Return (g <$> xs), extend w (concat (cost <$> xs))).
Proof.
  induction xs as [| x xs IH]; intros Hf w.
  - cbn. rewrite extend_nil. reflexivity.
  - cbn [comprehension fmap list_fmap concat]. unfold bind.
    rewrite Hf by (left; reflexivity).
    rewrite IH by (intros; apply Hf; right; assumption).
    unfold ret. rewrite extend_extend. reflexivity.
Qed.

(** A loop does not return when the body cannot return on one of its
    elements. *)
Lemma for_each_stuck {A S} (body : S -> A -> M S) (xs : list A) x :
  In x xs ->
  (forall acc w r, fst (body acc x w) <> Return r) ->
  forall acc w r, fst (for_each xs body acc w) <> Return r.
Proof.
  intros Hin Hstuck. induction xs as [| y xs IH]; intros acc w r; [destruct Hin |].
  cbn [for_each]. unfold bind.
  destruct Hin as [-> | Hin].
  - specialize (Hstuck acc w). destruct (body acc x w) as [[a | e |] w1]; cbn in *;
      [exfalso; eapply Hstuck; reflexivity | discriminate | discriminate].
  - destruct (body acc y w) as [[a | e |] w1]; cbn; [apply IH; assumption | discriminate | discriminate].
Qed.

End RunFacts.

(** ** NameResolver, further *)

Section NameFacts.
Import Py.

Variable resolver_query : string -> string -> res (list string).

(** [asn_name_query] in closed form: the name, and the calls. *)
Lemma asn_name_query_run asn w :
  asn_name_query resolver_query asn w =
  (Return (name_of resolver_query asn), extend w (name_calls asn)).
Proof.
  unfold name_of, name_calls, asn_name_query, private_use, asn_number, name_qname.
  destruct asn as [n |];
    (destruct ((64512 <=? _) && (_ <=? 65534));
     [cbn; rewrite extend_nil; reflexivity |]);
    unfold try_except, mbind, M_bind, bind, dns_query, external;
    (destruct (resolver_query _ _) as [[| rdata rest] | e]; cbn [lift ret raise log fst snd];
     try reflexivity);
    (destruct (index_last _) as [last | e]; cbn [lift ret raise]; try reflexivity);
    (destruct (index _ _) as [first | e]; cbn [lift ret raise]; reflexivity).
Qed.
End NameFacts.

(** *** Pieces of strings *)

Section StringFacts.
Import Py.

Lemma substring_of_refl s : substring_of s s.
Proof.
  exists "", "". rewrite append_empty.
  induction s as [| a s IH]; [reflexivity | rewrite append_cons; congruence].
Qed.

Lemma append_assoc (r s t : string) : (r +:+ s) +:+ t = r +:+ (s +:+ t).
Proof.
  induction r as [| a r IH]; [reflexivity |]. rewrite !append_cons. congruence.
Qed.

Lemma append_empty_r s : s +:+ "" = s.
Proof. induction s as [| a s IH]; [reflexivity | rewrite append_cons; congruence]. Qed.

Lemma substring_of_trans r s t : substring_of r s -> substring_of s t -> substring_of r t.
Proof.
  intros (b1 & a1 & ->) (b2 & a2 & ->).
  exists (b2 +:+ b1), (a1 +:+ a2). rewrite !append_assoc. reflexivity.
Qed.

Lemma substring_of_cons c r s : substring_of r s -> substring_of r (String c s).
Proof. intros (b & a & ->). exists (String c b), a. reflexivity. Qed.

Lemma prefix_substring p s after : s = p +:+ after -> substring_of p s.
Proof. intros ->. exists "", after. reflexivity. Qed.

Lemma chars_append r s : chars (r +:+ s) = chars r ++ chars s.
Proof.
  induction r as [| a r IH]; [reflexivity |]. rewrite append_cons. cbn. f_equal. exact IH.
Qed.

Lemma substring_chars r s c : substring_of r s -> In c (chars r) -> In c (chars s).
Proof.
  intros (b & a & ->) Hin. rewrite !chars_append. apply in_or_app. right.
  apply in_or_app. left. assumption.
Qed.

(** [split] always gives a piece; the first one begins the string. *)
Lemma split_head sep : forall s m,
  exists p ps after, split sep m s = p :: ps /\ s = p +:+ after.
Proof.
  induction s as [| c s IH]; intros m.
  - exists "", [], "". split; reflexivity.
  - cbn [split]. destruct (Ascii.eqb c sep && negb (bool_decide (m = Some O))).
    + exists "", (split sep (Nat.pred <$> m) s), (String c s). split; reflexivity.
    + destruct (IH m) as (p & ps & after & -> & Hs).
      exists (String c p), ps, after. split; [reflexivity |].
      rewrite append_cons. congruence.
Qed.

(** Every piece occurs in the string. *)
Lemma split_pieces_occur sep : forall s m piece,
  In piece (split sep m s) -> substring_of piece s.
Proof.
  induction s as [| c s IH]; intros m piece Hin.
  - destruct Hin as [<- | []]. apply substring_of_refl.
  - cbn [split] in Hin. destruct (Ascii.eqb c sep && negb (bool_decide (m = Some O))).
    + destruct Hin as [<- | Hin].
      * exists "", (String c s). reflexivity.
      * apply substring_of_cons. eapply IH. eassumption.
    + destruct (split_head sep s m) as (p & ps & after & Hsplit & Hs).
      pose proof (IH m) as IHm. rewrite Hsplit in Hin, IHm.
      destruct Hin as [<- | Hin].
      * apply (prefix_substring _ _ after). rewrite append_cons. congruence.
      * apply substring_of_cons, IHm. right. assumption.
Qed.

(** Split without limit, no piece holds the separator. *)
Lemma split_pieces_clean sep : forall s piece,
  In piece (split sep None s) -> ~ In sep (chars piece).
Proof.
  induction s as [| c s IH]; intros piece Hin.
  - destruct Hin as [<- | []]. intros [].
  - cbn [split] in Hin. cbn [bool_decide fmap option_fmap option_map] in Hin.
    destruct (Ascii.eqb_spec c sep) as [-> | Hne]; cbn [andb negb] in Hin.
    + destruct Hin as [<- | Hin]; [intros [] | apply IH; assumption].
    + destruct (split_head sep s None) as (p & ps & after & Hsplit & Hs).
      pose proof IH as IH'. rewrite Hsplit in Hin, IH'.
      destruct Hin as [<- | Hin].
      * intros [Hc | Hp]; [congruence |]. apply (IH' p); [left; reflexivity | assumption].
      * apply IH'. right. assumption.
Qed.

(** Split with room for a cut, the first piece does not hold the
    separator. *)
Lemma split_first_clean sep : forall s m p ps,
  m <> Some O -> split sep m s = p :: ps -> ~ In sep (chars p).
Proof.
  induction s as [| c s IH]; intros m p ps Hm Hsplit.
  - injection Hsplit as <- <-. intros [].
  - cbn [split] in Hsplit.
    rewrite (bool_decide_eq_false_2 _ Hm) in Hsplit. cbn [negb] in Hsplit.
    rewrite andb_true_r in Hsplit.
    destruct (Ascii.eqb_spec c sep) as [-> | Hne].
    + injection Hsplit as <- <-. intros [].
    + destruct (split_head sep s m) as (p' & ps' & after & Hsplit' & Hs).
      rewrite Hsplit' in Hsplit. injection Hsplit as <- <-.
      intros [Hc | Hp]; [congruence |]. exact (IH m p' ps' Hm Hsplit' Hp).
Qed.

Lemma index_last_split sep m s :
  exists last, index_last (split sep m s) = Ok last /\ In last (split sep m s).
Proof.
  unfold index_last. destruct (split_head sep s m) as (p & ps & after & Hsplit & _).
  destruct (List.rev (split sep m s)) as [| x l] eqn:Hrev.
  - apply (f_equal (@List.length _)) in Hrev. rewrite length_rev, Hsplit in Hrev.
    discriminate Hrev.
  - exists x. split; [reflexivity |]. apply in_rev. rewrite Hrev. left. reflexivity.
Qed.

Lemma index_first_split sep m s :
  exists first rest, index (split sep m s) 0 = Ok first /\ split sep m s = first :: rest.
Proof.
  destruct (split_head sep s m) as (p & ps & after & Hsplit & _).
  exists p, ps. rewrite Hsplit. split; reflexivity.
Qed.

(** [lstrip] cuts a beginning off, [rstrip] an end. *)
Lemma lstrip_suffix s : exists before, s = before +:+ lstrip s.
Proof.
  induction s as [| c s IH].
  - exists "". reflexivity.
  - cbn [lstrip]. destruct (isspace c).
    + destruct IH as [before IH]. exists (String c before). rewrite append_cons. congruence.
    + exists "". reflexivity.
Qed.

Lemma lstrip_first s c rest : lstrip s = String c rest -> isspace c = false.
Proof.
  induction s as [| a s IH]; cbn [lstrip]; [discriminate |].
  destruct (isspace a) eqn:Ha; [exact IH |]. intros [= <- _]. exact Ha.
Qed.

Lemma rstrip_prefix s : exists after, s = rstrip s +:+ after.
Proof.
  induction s as [| c s IH].
  - exists "". reflexivity.
  - cbn [rstrip]. destruct IH as [after IH]. destruct (rstrip s) as [| b r].
    + destruct (isspace c).
      * exists (String c s). reflexivity.
      * exists s. reflexivity.
    + exists after. rewrite append_cons. congruence.
Qed.

Lemma rstrip_last s : forall init c, chars (rstrip s) = init ++ [c] -> isspace c = false.
Proof.
  induction s as [| a s IH]; intros init c; cbn [rstrip].
  - destruct init; discriminate.
  - destruct (rstrip s) as [| b r] eqn:Hr.
    + destruct (isspace a) eqn:Ha.
      * destruct init; discriminate.
      * destruct init as [| x [| y init]]; cbn; try discriminate. intros [= <-]. exact Ha.
    + cbn [chars list_ascii_of_string]. destruct init as [| x init]; cbn [app].
      * intros H. injection H as _ H. destruct (list_ascii_of_string r); discriminate.
      * intros H. injection H as _ H. apply (IH init c). exact H.
Qed.

Lemma strip_occurs s : substring_of (strip s) s.
Proof.
  unfold strip. destruct (lstrip_suffix s) as [before Hs].
  destruct (rstrip_prefix (lstrip s)) as [after Hl].
  exists before, after. rewrite <- Hl. exact Hs.
Qed.

Lemma strip_trimmed s : trimmed (strip s).
Proof.
  unfold trimmed, strip. split.
  - intros c rest Hc. destruct (rstrip_prefix (lstrip s)) as [after Hl].
    destruct (rstrip (lstrip s)) as [| b r] eqn:Hr; [discriminate |].
    cbn in Hc. injection Hc as <- _. rewrite append_cons in Hl.
    eapply lstrip_first. exact Hl.
  - apply rstrip_last.
Qed.

End StringFacts.

Section NameResolverMore.
Import Py.

Variable resolver_query : string -> string -> res (list string).
Variable from_address : string -> res string.

(** X1.  [asn_name_query] never raises: for every ASN and every resolver
    it returns, having sent at most one query; and when that query raises
    it returns ["(DNS Error)"]. *)
Theorem asn_name_query_never_raises asn w :
  (exists name,
     asn_name_query resolver_query asn w = (Return name, extend w (name_calls asn))) /\
  (List.length (name_calls asn) <= 1)%nat /\
  (forall e,
     private_use (asn_number asn) = false ->
     resolver_query (name_qname (asn_number asn)) "TXT" = Err e ->
     fst (asn_name_query resolver_query asn w) = Return (Some "(DNS Error)")).
Proof.
  split; [| split].
  - eexists. apply asn_name_query_run.
  - unfold name_calls. destruct (private_use _); cbn; lia.
  - intros e Hpub Herr. unfold asn_name_query. fold (asn_number asn).
    unfold private_use in Hpub. rewrite Hpub.
    unfold try_except, mbind, M_bind, bind, dns_query, external. fold (name_qname (asn_number asn)).
    rewrite Herr. reflexivity.
Qed.

(** X2.  When the resolver answers, the name returned is a piece of the
    first record: it occurs in it, holds neither a pipe nor a comma, and
    has no white space at either end. *)
Theorem asn_name_query_name_is_clean asn w rdata rest :
  private_use (asn_number asn) = false ->
  resolver_query (name_qname (asn_number asn)) "TXT" = Ok (rdata :: rest) ->
  exists name,
    fst (asn_name_query resolver_query asn w) = Return (Some name) /\
    substring_of name rdata /\
    ~ In "|"%char (chars name) /\
    ~ In ","%char (chars name) /\
    trimmed name.
Proof.
  intros Hpub Hanswer. unfold asn_name_query. fold (asn_number asn).
  unfold private_use in Hpub. rewrite Hpub.
  unfold try_except, mbind, M_bind, bind, dns_query, external. fold (name_qname (asn_number asn)).
  rewrite Hanswer. cbn [lift ret raise].
  destruct (index_last_split "|" None rdata) as (last & -> & Hlast). cbn [lift ret].
  destruct (index_first_split "," (Some 2%nat) last) as (first & others & -> & Hfirst).
  cbn [lift ret fst].
  assert (Hfl : substring_of first last).
  { apply (split_pieces_occur "," last (Some 2%nat)). rewrite Hfirst. left. reflexivity. }
  assert (Hlr : substring_of last rdata) by (eapply split_pieces_occur; eassumption).
  exists (strip first). split; [reflexivity |]. split; [| split; [| split]].
  - eapply substring_of_trans; [apply strip_occurs |].
    eapply substring_of_trans; eassumption.
  - intros Hin. apply (split_pieces_clean "|" rdata last Hlast).
    eapply substring_chars; [exact Hfl |].
    eapply substring_chars; [apply strip_occurs | exact Hin].
  - intros Hin. apply (split_first_clean "," last (Some 2%nat) first others); try assumption.
    + discriminate.
    + eapply substring_chars; [apply strip_occurs | exact Hin].
  - apply strip_trimmed.
Qed.

(** X3.  [reverse_dns_query] never raises and always returns a string.
    It answers ["(DNS Error)"] without a query when the text is no
    address, and after its query when the resolver raises or answers no
    record (where [asn_name_query] returns [None]); otherwise it answers
    the first record less its last character. *)
Theorem reverse_dns_query_never_raises ip w :
  (exists name,
     reverse_dns_query resolver_query from_address ip w =
     (Return name, extend w (reverse_calls from_address ip))) /\
  (forall e, from_address ip = Err e ->
     reverse_dns_query resolver_query from_address ip w = (Return "(DNS Error)", w)) /\
  (forall addr, from_address ip = Ok addr ->
     fst (reverse_dns_query resolver_query from_address ip w) =
     Return match resolver_query addr "PTR" with
            | Ok (first :: _) => PyStr.drop_last first
            | _ => "(DNS Error)"
            end).
Proof.
  unfold reverse_dns_query, reverse_calls, try_except, mbind, M_bind, bind, dns_query, external.
  split; [| split].
  - destruct (from_address ip) as [addr | e]; cbn [lift ret raise].
    + destruct (resolver_query addr "PTR") as [[| first rest] | e];
        cbn [lift ret raise index nth_error]; eexists; reflexivity.
    + rewrite extend_nil. eexists. reflexivity.
  - intros e ->. reflexivity.
  - intros addr ->. cbn [lift ret raise].
    destruct (resolver_query addr "PTR") as [[| first rest] | e]; reflexivity.
Qed.

End NameResolverMore.

Lemma asn_name_query_never_raises_witness :
  private_use (asn_number (Some 15169)) = false /\
  Sample.dns_down (name_qname (asn_number (Some 15169))) "TXT" =
    Py.Err (Py.LibraryError "Timeout") /\
  fst (asn_name_query Sample.dns_down (Some 15169) (Sample.at_time 0)) =
    Py.Return (Some "(DNS Error)").
Proof.
  split; [reflexivity |]. split; [reflexivity |].
  apply (proj2 (proj2 (asn_name_query_never_raises Sample.dns_down (Some 15169)
                         (Sample.at_time 0))) (Py.LibraryError "Timeout"));
    reflexivity.
Defined.

Lemma asn_name_query_name_is_clean_witness :
  private_use (asn_number (Some 15169)) = false /\
  exists name,
    fst (asn_name_query Sample.dns_answering (Some 15169) (Sample.at_time 0)) =
      Py.Return (Some name) /\
    substring_of name
      (Sample.quote +:+ "15169 | US | arin | 2000-03-30 | GOOGLE, US" +:+ Sample.quote) /\
    ~ In "|"%char (chars name) /\
    ~ In ","%char (chars name) /\
    trimmed name.
Proof.
  split; [reflexivity |].
  apply (asn_name_query_name_is_clean Sample.dns_answering (Some 15169) (Sample.at_time 0)
           (Sample.quote +:+ "15169 | US | arin | 2000-03-30 | GOOGLE, US" +:+ Sample.quote)
           []);
    reflexivity.
Defined.

Lemma reverse_dns_query_never_raises_witness :
  Sample2.reverse_name "192.0.2.1" = Py.Ok "1.2.0.192.in-addr.arpa." /\
  fst (reverse_dns_query Sample2.dns_ptr Sample2.reverse_name "192.0.2.1" (Sample.at_time 0)) =
    Py.Return "edge1.example.net" /\
  fst (reverse_dns_query Sample.dns_empty Sample2.reverse_name "192.0.2.1" (Sample.at_time 0)) =
    Py.Return "(DNS Error)".
Proof.
  split; [reflexivity |]. split.
  - rewrite (proj2 (proj2 (reverse_dns_query_never_raises Sample2.dns_ptr Sample2.reverse_name
                             "192.0.2.1" (Sample.at_time 0)))
               "1.2.0.192.in-addr.arpa." eq_refl).
    reflexivity.
  - rewrite (proj2 (proj2 (reverse_dns_query_never_raises Sample.dns_empty Sample2.reverse_name
                             "192.0.2.1" (Sample.at_time 0)))
               "1.2.0.192.in-addr.arpa." eq_refl).
    reflexivity.
Defined.

(** ** PrefixResolver, further *)

Section PrefixResolverMore.
Import Py ipaddress.

Variable ip_address : string -> res address.
Variable str_network : network -> string.

Lemma supernet_too_long a len :
  max_prefixlen (version a) < len -> supernet (ip_network a) len = Err ValueError.
Proof.
  intros Hlen. unfold supernet. rewrite host_prefixlen.
  destruct a; cbn [version max_prefixlen Z.eqb] in *;
    repeat match goal with
           | |- context [?x <? ?y] => destruct (Z.ltb_spec0 x y)
           end; try lia; reflexivity.
Qed.

(** X6.  A [netmask] out of the family's range, below or above, makes
    [find_network] return [None] at once, without a lookup: for IPv4 the
    range is 0..32, for IPv6 (where 32 is added) it is -32..96. *)
Theorem find_network_netmask_out_of_range find_one ip a netmask w :
  ip_address ip = Ok a ->
  netmask + offset a < 0 \/ max_prefixlen (version a) < netmask + offset a ->
  find_network ip_address str_network find_one ip netmask w = (Return None, w).
Proof.
  intros Hip Hout. unfold find_network, find_network_depth.
  rewrite (find_network_fuel_step _ _ _ _ _ a) by assumption. rewrite step_length.
  destruct Hout as [Hlow | Hhigh].
  - rewrite supernet_negative by assumption. reflexivity.
  - rewrite supernet_too_long by assumption. reflexivity.
Qed.

Variable docs : list Route.entry.

Local Abbreviation lookup := (find_one_in docs).
Local Abbreviation resolve'' := (resolve ip_address str_network (find_one_in docs)).

(** What a scan found was stored under the first key that was. *)
Lemma scan_found find_one keys r :
  fst (scan find_one keys) = Some r ->
  exists before key after,
    keys = before ++ key :: after /\
    (forall k, In k before -> find_one k = Ok None) /\
    find_one key = Ok (Some r).
Proof.
  induction keys as [| k keys IH]; cbn [scan]; [discriminate |].
  destruct (find_one k) as [[r' |] | e] eqn:Hk.
  - intros [= ->]. exists [], k, keys. repeat split; [intros ? [] | assumption].
  - destruct (scan find_one keys) as [r' probed]. cbn [fst] in *. intros Hr.
    destruct (IH Hr) as (before & key & after & -> & Hmiss & Hhit).
    exists (k :: before), key, after. repeat split; [| assumption].
    intros k' [<- | Hin]; [assumption | apply Hmiss; assumption].
  - discriminate.
Qed.

Lemma scan_missed find_one keys :
  (forall k e, find_one k <> Err e) ->
  fst (scan find_one keys) = None ->
  forall k, In k keys -> find_one k = Ok None.
Proof.
  intros Hok. induction keys as [| k keys IH]; cbn [scan]; [intros _ ? [] |].
  destruct (find_one k) as [[r' |] | e] eqn:Hk.
  - discriminate.
  - destruct (scan find_one keys) as [r' probed]. cbn [fst] in *. intros Hr k' [<- | Hin].
    + assumption.
    + apply IH; assumption.
  - exfalso. eapply Hok. eassumption.
Qed.

Lemma find_one_in_miss key :
  lookup key = Ok None <-> forall e, In e docs -> Route.prefix e <> key.
Proof.
  unfold find_one_in. split.
  - intros [= Hfind] e He Heq.
    apply (find_none _ _ Hfind e) in He. apply String.eqb_neq in He. contradiction.
  - intros Hnone. f_equal. destruct (List.find _ docs) as [e |] eqn:Hfind; [| reflexivity].
    apply find_some in Hfind as [He Heq]. apply String.eqb_eq in Heq.
    exfalso. eapply Hnone; eassumption.
Qed.

Lemma find_one_in_hit key r :
  lookup key = Ok (Some r) -> In r docs /\ Route.prefix r = key.
Proof.
  unfold find_one_in. intros [= Hfind]. apply find_some in Hfind as [He Heq].
  apply String.eqb_eq in Heq. split; assumption.
Qed.

Lemma lengths_down_split hi count before (key : string) after (f : Z -> string) :
  f <$> lengths_down hi count = before ++ key :: after ->
  (List.length before < count)%nat /\
  key = f (hi - Z.of_nat (List.length before)) /\
  before = f <$> lengths_down hi (List.length before).
Proof.
  intros Hsplit.
  assert (Hlen : (List.length before < count)%nat).
  { apply (f_equal (@List.length _)) in Hsplit.
    rewrite length_fmap, length_app in Hsplit. unfold lengths_down in Hsplit.
    rewrite length_fmap, length_seq in Hsplit. cbn in Hsplit. lia. }
  split; [assumption |]. split.
  - assert (H : (f <$> lengths_down hi count) !! List.length before = Some key).
    { rewrite Hsplit. rewrite lookup_app_r by lia. rewrite Nat.sub_diag. reflexivity. }
    unfold lengths_down in H. rewrite <- list_fmap_compose, list_lookup_fmap in H.
    rewrite lookup_seq_lt in H by assumption. cbn in H. congruence.
  - assert (H : firstn (List.length before) (f <$> lengths_down hi count) = before).
    { rewrite Hsplit. rewrite take_app_length. reflexivity. }
    rewrite <- H at 1. rewrite firstn_lengths_down. f_equal. f_equal. lia.
Qed.

(** X4.  On a table that answers, the entry that [resolve] returns is
    stored under the key of a covering network of the address, of a length
    within the window (32..0 for IPv4, 64..32 for IPv6), and no entry is
    stored under the key of a longer length of the window: it is the
    longest match there. *)
Theorem resolve_longest_match ip a w r :
  ip_address ip = Ok a ->
  fst (resolve'' ip w) = Return (Some r) ->
  let top := if version a =? 4 then 32 else 64 in
  In r docs /\
  exists i, (i < 33)%nat /\
    Route.prefix r = probe_key str_network a (top - Z.of_nat i) /\
    forall j e, (j < i)%nat -> In e docs ->
      Route.prefix e <> probe_key str_network a (top - Z.of_nat j).
Proof.
  intros Hip Hrun top. rewrite (resolve_scan _ _ _ ip a) in Hrun by assumption.
  cbn [fst] in Hrun.
  remember (fst (scan lookup (probe_key str_network a <$> probed_lengths a))) as found
    eqn:Hfound.
  injection Hrun as ->. symmetry in Hfound.
  apply scan_found in Hfound as (before & key & after & Hkeys & Hmiss & Hhit).
  unfold probed_lengths in Hkeys. fold top in Hkeys.
  apply lengths_down_split in Hkeys as (Hlen & Hkey & Hbefore).
  apply find_one_in_hit in Hhit as [Hin Hprefix].
  split; [assumption |]. exists (List.length before). split; [assumption |].
  split; [congruence |].
  intros j e Hj He. apply (proj1 (find_one_in_miss _)); [| assumption].
  apply Hmiss. rewrite Hbefore. apply list_elem_of_In, list_elem_of_fmap.
  exists (top - Z.of_nat j). split; [reflexivity |].
  unfold lengths_down. apply list_elem_of_fmap. exists j. split; [reflexivity |].
  apply elem_of_seq. lia.
Qed.

(** X5.  On a table that answers, [resolve] returns [None] for an address
    exactly when no entry is stored under the key of any length of the
    window. *)
Theorem resolve_none_iff_window_empty ip a w :
  ip_address ip = Ok a ->
  fst (resolve'' ip w) = Return None <->
  forall len e, In len (probed_lengths a) -> In e docs ->
    Route.prefix e <> probe_key str_network a len.
Proof.
  intros Hip. rewrite (resolve_scan _ _ _ ip a) by assumption. cbn [fst]. split.
  - remember (fst (scan lookup (probe_key str_network a <$> probed_lengths a))) as found
      eqn:Hfound.
    intros Hscan len e Hlen He. injection Hscan as ->. symmetry in Hfound.
    rename Hfound into Hscan.
    apply (proj1 (find_one_in_miss _)); [| assumption].
    apply (scan_missed lookup (probe_key str_network a <$> probed_lengths a));
      [intros k err; discriminate | assumption |].
    apply in_map. assumption.
  - intros Hnone. f_equal. rewrite scan_all_missed; [reflexivity |].
    intros k Hk. apply in_map_iff in Hk as (len & <- & Hlen).
    apply find_one_in_miss. intros e He. apply Hnone; assumption.
Qed.

End PrefixResolverMore.

Section CoveringFacts.
Import Py ipaddress.

Lemma land_shifted_ones n m d :
  0 <= n < 2 ^ m -> 0 <= d <= m ->
  Z.land n (Z.shiftl (2 ^ m - 1) d) = n - n mod 2 ^ d.
Proof.
  intros Hn Hd.
  replace (2 ^ m - 1) with (Z.ones m) by (rewrite Z.ones_equiv; lia).
  replace (n - n mod 2 ^ d) with (Z.shiftl (Z.shiftr n d) d).
  2: { rewrite Z.shiftl_mul_pow2, Z.shiftr_div_pow2 by lia.
       pose proof (Z.div_mod n (2 ^ d)). lia. }
  apply Z.bits_inj'. intros i Hi.
  rewrite Z.land_spec, !Z.shiftl_spec by assumption.
  destruct (Z_lt_dec i d) as [Hlt | Hge].
  - rewrite !(Z.testbit_neg_r _ (i - d)) by lia. apply andb_false_r.
  - rewrite Z.shiftr_spec by lia. replace (i - d + d) with i by lia.
    destruct (Z_lt_dec (i - d) m) as [Hin | Hout].
    + rewrite Z.ones_spec_low by lia. apply andb_true_r.
    + rewrite Z.ones_spec_high by lia. rewrite andb_false_r.
      symmetry. destruct (Z.eq_dec n 0) as [-> | Hnz]; [apply Z.bits_0 |].
      apply Z.bits_above_log2; [lia |].
      apply Z.log2_lt_pow2; [lia |].
      apply Z.lt_le_trans with (2 ^ m); [lia |]. apply Z.pow_le_mono_r; lia.
Qed.

Lemma host_netmask a : netmask (ip_network a) = 2 ^ max_prefixlen (version a) - 1.
Proof. destruct a; reflexivity. Qed.

(** X7.  For an address within its family's range, the network that
    [find_network] asks [supernet] for at a length is the one of that
    length holding the address: the address with its host bits cleared. *)
Theorem supernet_holds_address a len :
  let bits := max_prefixlen (version a) in
  0 <= int_of a < 2 ^ bits ->
  0 <= len <= bits ->
  exists net,
    supernet (ip_network a) len = Ok net /\
    prefixlen net = len /\
    network_address net mod 2 ^ (bits - len) = 0 /\
    network_address net <= int_of a < network_address net + 2 ^ (bits - len).
Proof.
  intros bits Hrange Hlen. exists (covering a len).
  split; [apply supernet_covering; assumption |]. split; [reflexivity |].
  unfold covering. cbn [network_address]. rewrite host_netmask. fold bits.
  rewrite land_shifted_ones by lia.
  assert (Hpow : 0 < 2 ^ (bits - len)) by (apply Z.pow_pos_nonneg; lia).
  pose proof (Z.mod_pos_bound (int_of a) _ Hpow) as Hmod.
  pose proof (Z.div_mod (int_of a) (2 ^ (bits - len))) as Hdiv.
  split.
  - replace (int_of a - int_of a mod 2 ^ (bits - len))
      with (int_of a / 2 ^ (bits - len) * 2 ^ (bits - len)) by lia.
    apply Z.mod_mul. lia.
  - lia.
Qed.

End CoveringFacts.

(** ** StatsAggregator, further *)

Section PeerFacts.
Import Py.

Variable docs : list Route.entry.
Variable resolver_query : string -> string -> res (list string).

Lemma peer_rows_fold (rows0 : list PeerRow) (a0 b0 : Z) (asns : list (option Z)) :
  fold_left
    (fun (acc : list PeerRow * Z * Z) asn =>
       (fst (fst acc) ++ [peer_row docs resolver_query asn],
        snd (fst acc) + peer_ipv4_count (peer_row docs resolver_query asn),
        snd acc + peer_ipv6_count (peer_row docs resolver_query asn)))
    asns (rows0, a0, b0) =
  (rows0 ++ (peer_row docs resolver_query <$> asns),
   a0 + sum_Z (peer_ipv4_count <$> (peer_row docs resolver_query <$> asns)),
   b0 + sum_Z (peer_ipv6_count <$> (peer_row docs resolver_query <$> asns))).
Proof.
  revert rows0 a0 b0. induction asns as [| asn asns IH]; intros rows0 a0 b0.
  - cbn. rewrite app_nil_r, !Z.add_0_r. reflexivity.
  - cbn [fold_left fst snd fmap list_fmap sum_Z fold_right]. rewrite IH.
    rewrite <- app_assoc. cbn [app]. unfold sum_Z. f_equal; [f_equal |]; lia.
Qed.

(** [peer_rows] in closed form. *)
Lemma peer_rows_run myset w :
  peer_rows docs resolver_query myset w =
  (Return (peer_row docs resolver_query <$> elements myset,
           sum_Z (peer_ipv4_count <$> (peer_row docs resolver_query <$> elements myset)),
           sum_Z (peer_ipv6_count <$> (peer_row docs resolver_query <$> elements myset))),
   extend w (concat (peer_calls <$> elements myset))).
Proof.
  unfold peer_rows.
  rewrite (for_each_run _
             (fun (acc : list PeerRow * Z * Z) asn =>
                (fst (fst acc) ++ [peer_row docs resolver_query asn],
                 snd (fst acc) + peer_ipv4_count (peer_row docs resolver_query asn),
                 snd acc + peer_ipv6_count (peer_row docs resolver_query asn)))
             peer_calls).
  - rewrite peer_rows_fold. reflexivity.
  - intros [[rows a] b] asn w' _. unfold mbind, M_bind, bind.
    rewrite asn_name_query_run. reflexivity.
Qed.

Lemma elem_of_next_hop_set cursor asn :
  asn ∈ next_hop_set cursor <-> exists e, In e cursor /\ Route.next_hop_asn e = asn.
Proof.
  unfold next_hop_set.
  assert (H : forall (acc : gset (option Z)),
             asn ∈ fold_left (fun myset prefix => myset ∪ {[Route.next_hop_asn prefix]})
                             cursor acc <->
             asn ∈ acc \/ exists e, In e cursor /\ Route.next_hop_asn e = asn).
  { induction cursor as [| e cursor IH]; intros acc; cbn [fold_left].
    - split; [auto | intros [H | (e & [] & _)]; exact H].
    - rewrite IH, elem_of_union, elem_of_singleton. split.
      + intros [[H | ->] | (e' & He & Heq)]; eauto.
        * right. exists e. split; [left |]; reflexivity.
        * right. exists e'. split; [right |]; assumption.
      + intros [H | (e' & [<- | He] & Heq)]; eauto. }
  rewrite H. split; [intros [Hempty | Hex]; [set_solver | exact Hex] | auto].
Qed.

Lemma sum_Z_app xs ys : sum_Z (xs ++ ys) = sum_Z xs + sum_Z ys.
Proof. induction xs as [| x xs IH]; cbn; [reflexivity |]. unfold sum_Z in *. cbn. lia. Qed.

(** Among distinct values, exactly one equals a given member. *)
Lemma sum_indicator {K} `{EqDecision K} (x : K) (l : list K) :
  NoDup l -> x ∈ l ->
  sum_Z ((fun a => if bool_decide (x = a) then 1 else 0) <$> l) = 1.
Proof.
  induction 1 as [| a l Hnotin Hnd IH]; intros Hin; [inversion Hin |].
  cbn [fmap list_fmap sum_Z fold_right]. fold (sum_Z ((fun a => if bool_decide (x = a) then 1 else 0) <$> l)).
  destruct (bool_decide_reflect (x = a)) as [-> | Hne].
  - assert (Hzero : sum_Z ((fun a0 => if bool_decide (a = a0) then 1 else 0) <$> l) = 0).
    { clear IH Hin Hnd. induction l as [| b l IHl]; [reflexivity |].
      cbn [fmap list_fmap sum_Z fold_right].
      fold (sum_Z ((fun a0 => if bool_decide (a = a0) then 1 else 0) <$> l)).
      rewrite bool_decide_eq_false_2 by (intros ->; apply Hnotin; left).
      rewrite IHl; [reflexivity |]. intros H. apply Hnotin. right. exact H. }
    lia.
  - apply elem_of_cons in Hin as [-> | Hin]; [contradiction |].
    rewrite IH by assumption. lia.
Qed.

Lemma sum_indicator_none {K} `{EqDecision K} (l : list K) :
  sum_Z ((fun _ => 0) <$> l) = 0.
Proof. induction l as [| a l IH]; [reflexivity |]. cbn in *. unfold sum_Z in *. cbn. lia. Qed.

Lemma sum_Z_pointwise {K} (f g : K -> Z) (l : list K) :
  sum_Z ((fun a => f a + g a) <$> l) = sum_Z (f <$> l) + sum_Z (g <$> l).
Proof. induction l as [| a l IH]; [reflexivity |]. cbn in *. unfold sum_Z in *. cbn. lia. Qed.

(** Counting the documents group by group, over groups that are distinct
    and cover them, is counting them. *)
Lemma count_by_group {K} `{EqDecision K} (group : Route.entry -> K)
    (p : Route.entry -> bool) (groups : list K) (cursor : list Route.entry) :
  NoDup groups ->
  (forall e, In e cursor -> group e ∈ groups) ->
  sum_Z ((fun a => Mongo.count
                     (Mongo.find (fun e => bool_decide (group e = a) && p e) cursor))
           <$> groups) =
  Mongo.count (Mongo.find p cursor).
Proof.
  intros Hnd. unfold Mongo.count, Mongo.find.
  induction cursor as [| e cursor IH]; intros Hcover.
  - cbn. apply sum_indicator_none.
  - rewrite (list_fmap_ext _
               (fun a => (if bool_decide (group e = a) then (if p e then 1 else 0) else 0) +
                         Z.of_nat (List.length
                           (List.filter (fun e => bool_decide (group e = a) && p e) cursor)))).
    2: { intros _ a _. cbn [List.filter].
         destruct (bool_decide (group e = a)), (p e); cbn [andb List.length]; lia. }
    rewrite sum_Z_pointwise, IH by (intros; apply Hcover; right; assumption).
    cbn [List.filter]. destruct (p e); cbn [List.length].
    + rewrite sum_indicator; [lia | assumption | apply Hcover; left; reflexivity].
    + rewrite (list_fmap_ext _ (fun _ => 0)) by (intros _ a _; destruct (bool_decide _); reflexivity).
      rewrite sum_indicator_none. lia.
Qed.
End PeerFacts.

Section PeerTables.
Import Py.

Variable docs : list Route.entry.
Variable resolver_query : string -> string -> res (list string).

Local Abbreviation row := (peer_row docs resolver_query).

Lemma next_hop_set_list cursor :
  next_hop_set cursor = list_to_set (Route.next_hop_asn <$> cursor).
Proof.
  apply set_eq. intros asn.
  rewrite elem_of_next_hop_set, elem_of_list_to_set, list_elem_of_fmap.
  split; intros (e & H1 & H2).
  - exists e. split; [symmetry; assumption | apply list_elem_of_In; assumption].
  - exists e. split; [apply list_elem_of_In; assumption | symmetry; assumption].
Qed.

Lemma size_list_distinct {K} `{Countable K} (l : list K) :
  size (list_to_set l : gset K) = List.length (remove_dups l).
Proof.
  rewrite <- (size_list_to_set (C := gset K) (remove_dups l)) by apply NoDup_remove_dups.
  f_equal. apply set_eq. intros x.
  rewrite !elem_of_list_to_set, elem_of_remove_dups. reflexivity.
Qed.

Lemma concat_singletons {A B} (f : A -> B) (l : list A) :
  concat ((fun e => [f e]) <$> l) = f <$> l.
Proof. induction l as [| a l IH]; cbn; [reflexivity | rewrite IH; reflexivity]. Qed.

Lemma peers_run w :
  peers docs resolver_query w =
  (Return (row <$> elements (next_hop_set docs)),
   extend w (concat (peer_calls <$> elements (next_hop_set docs)))).
Proof.
  unfold peers, Mongo.find. unfold mbind, M_bind, bind. rewrite filter_all, peer_rows_run.
  reflexivity.
Qed.

Lemma peer_counts_sum (version : Z) :
  sum_Z ((fun asn => Mongo.count
            (Mongo.find (fun e => of_peer asn e && (Route.ip_version e =? version)) docs))
           <$> elements (next_hop_set docs)) =
  Mongo.count (Mongo.find (fun e => Route.ip_version e =? version) docs).
Proof.
  unfold of_peer.
  apply (count_by_group Route.next_hop_asn (fun e => Route.ip_version e =? version)).
  - apply NoDup_elements.
  - intros e He. apply elem_of_elements, elem_of_next_hop_set. exists e. auto.
Qed.

(** X8.  [peers()] returns, and its rows split the table: the IPv4 counts
    of the rows add up to [prefix_count(4)], the IPv6 counts to
    [prefix_count(6)]. *)
Theorem peers_counts_add_up w :
  exists rows,
    fst (peers docs resolver_query w) = Return rows /\
    fst (prefix_count docs 4 w) = Return (sum_Z (peer_ipv4_count <$> rows)) /\
    fst (prefix_count docs 6 w) = Return (sum_Z (peer_ipv6_count <$> rows)).
Proof.
  exists (row <$> elements (next_hop_set docs)). rewrite peers_run.
  split; [reflexivity |]. unfold prefix_count, ret. cbn [fst].
  rewrite <- !list_fmap_compose. unfold compose. cbn [peer_ipv4_count peer_ipv6_count peer_row].
  rewrite (peer_counts_sum 4), (peer_counts_sum 6). split; reflexivity.
Qed.

(** X9.  [peers()] has one row per peer: as many rows as [peer_count()]
    counts, with the ASN [3701] standing for a null next hop. *)
Theorem peers_has_peer_count_rows w :
  exists rows,
    fst (peers docs resolver_query w) = Return rows /\
    fst (peer_count docs w) = Return (Z.of_nat (List.length rows)) /\
    forall r, r ∈ rows <->
      exists e, e ∈ docs /\ r = row (Route.next_hop_asn e).
Proof.
  exists (row <$> elements (next_hop_set docs)). rewrite peers_run.
  split; [reflexivity |]. split.
  - unfold peer_count, ret, Mongo.distinct. cbn [fst]. do 2 f_equal.
    rewrite length_fmap, concat_singletons, <- size_list_distinct, next_hop_set_list.
    reflexivity.
  - intros r. rewrite list_elem_of_fmap. split.
    + intros (asn & -> & Hasn).
      apply elem_of_elements, elem_of_next_hop_set in Hasn as (e & He & <-).
      exists e. split; [apply list_elem_of_In; assumption | reflexivity].
    + intros (e & He & ->). exists (Route.next_hop_asn e). split; [reflexivity |].
      apply elem_of_elements, elem_of_next_hop_set. exists e.
      split; [apply list_elem_of_In; assumption | reflexivity].
Qed.

Lemma customers_run w :
  customers docs resolver_query w =
  (Return (row <$> elements (customer_set docs),
           sum_Z (peer_ipv4_count <$> (row <$> elements (customer_set docs))),
           sum_Z (peer_ipv6_count <$> (row <$> elements (customer_set docs)))),
   extend w (concat (peer_calls <$> elements (customer_set docs)))).
Proof. unfold customers. rewrite peer_rows_run. reflexivity. Qed.

Lemma elem_of_customer_set asn :
  asn ∈ customer_set docs <->
  exists e, e ∈ docs /\ "3701:370" ∈ Route.communities e /\ Route.next_hop_asn e = asn.
Proof.
  unfold customer_set, Mongo.find. rewrite elem_of_next_hop_set. split.
  - intros (e & He & Heq). apply filter_In in He as [He Htag].
    apply bool_decide_eq_true in Htag. exists e.
    split; [apply list_elem_of_In; assumption | auto].
  - intros (e & He & Htag & Heq). exists e. split; [| assumption].
    apply filter_In. split; [apply list_elem_of_In; assumption |].
    apply bool_decide_eq_true. assumption.
Qed.

(** X10.  [customers()] returns the rows of the peers that announce a
    route tagged ['3701:370'], each counting all of the peer's routes, tagged
    or not, so each row is a row of [peers()]; the two totals it returns are
    the sums of the rows' counts. *)
Theorem customers_rows_and_totals w :
  exists rows ipv4_total ipv6_total all_rows,
    fst (customers docs resolver_query w) = Return (rows, ipv4_total, ipv6_total) /\
    fst (peers docs resolver_query w) = Return all_rows /\
    ipv4_total = sum_Z (peer_ipv4_count <$> rows) /\
    ipv6_total = sum_Z (peer_ipv6_count <$> rows) /\
    (forall r, r ∈ rows <->
       exists e, e ∈ docs /\ "3701:370" ∈ Route.communities e /\
                 r = row (Route.next_hop_asn e)) /\
    (forall r, r ∈ rows -> r ∈ all_rows).
Proof.
  eexists _, _, _, _. rewrite customers_run, peers_run. cbn [fst].
  split; [reflexivity |]. split; [reflexivity |]. split; [reflexivity |].
  split; [reflexivity |].
  assert (Hrows : forall r, r ∈ row <$> elements (customer_set docs) <->
            exists e, e ∈ docs /\ "3701:370" ∈ Route.communities e /\
                      r = row (Route.next_hop_asn e)).
  { intros r. rewrite list_elem_of_fmap. split.
    - intros (asn & -> & Hasn).
      apply elem_of_elements, elem_of_customer_set in Hasn as (e & He & Htag & <-).
      exists e. auto.
    - intros (e & He & Htag & ->). exists (Route.next_hop_asn e). split; [reflexivity |].
      apply elem_of_elements, elem_of_customer_set. exists e. auto. }
  split; [exact Hrows |].
  intros r Hr. apply Hrows in Hr as (e & He & _ & ->).
  apply list_elem_of_fmap. exists (Route.next_hop_asn e). split; [reflexivity |].
  apply elem_of_elements, elem_of_next_hop_set. exists e.
  split; [apply list_elem_of_In; assumption | reflexivity].
Qed.
End PeerTables.

(** ** Sorting and [top_peers] *)

Section SortFacts.
Context {A : Type} (key : A -> Z).

Lemma insert_desc_perm x l : insert_desc key x l ≡ₚ x :: l.
Proof.
  induction l as [| y l IH]; cbn [insert_desc]; [reflexivity |].
  destruct (key y <=? key x); [reflexivity |].
  rewrite IH. apply Permutation_swap.
Qed.

Lemma sorted_reverse_perm l : sorted_reverse key l ≡ₚ l.
Proof.
  induction l as [| x l IH]; cbn [sorted_reverse fold_right]; [reflexivity |].
  fold (sorted_reverse key l). rewrite insert_desc_perm, IH. reflexivity.
Qed.

Local Abbreviation ge_key := (fun a b => key b <= key a).

Lemma insert_desc_sorted x l :
  StronglySorted ge_key l -> StronglySorted ge_key (insert_desc key x l).
Proof.
  induction 1 as [| y l Hsorted IH Hall]; cbn [insert_desc].
  - constructor; constructor.
  - destruct (Z.leb_spec (key y) (key x)) as [Hle | Hlt].
    + constructor; [constructor; assumption |].
      constructor; [assumption |].
      eapply List.Forall_impl; [| exact Hall]. cbn. intros; lia.
    + constructor; [assumption |].
      eapply Permutation_Forall; [symmetry; apply insert_desc_perm |].
      constructor; [lia | assumption].
Qed.

Lemma sorted_reverse_sorted l : StronglySorted ge_key (sorted_reverse key l).
Proof.
  induction l as [| x l IH]; cbn [sorted_reverse fold_right]; [constructor |].
  apply insert_desc_sorted, IH.
Qed.

Lemma sorted_descending l : StronglySorted ge_key l -> descending key l.
Proof.
  induction 1 as [| x l Hsorted IH Hall]; intros i j a b Hij Hi Hj.
  - rewrite lookup_nil in Hi. discriminate.
  - destruct i as [| i], j as [| j]; cbn in Hi, Hj; try lia.
    + injection Hi as ->. injection Hj as ->. lia.
    + injection Hi as ->. rewrite List.Forall_forall in Hall.
      apply Hall. apply list_elem_of_In. eapply list_elem_of_lookup_2. exact Hj.
    + eapply (IH i j); [lia | eassumption | eassumption].
Qed.

(** What the first [n] of a sorted list leave out is no larger than what
    they hold. *)
Lemma sorted_take_largest (n : nat) l x y :
  StronglySorted ge_key l -> x ∈ firstn n l -> y ∈ skipn n l -> key y <= key x.
Proof.
  intros Hsorted Hx Hy. apply sorted_descending in Hsorted.
  apply list_elem_of_lookup in Hx as [i Hi], Hy as [j Hj].
  assert (Hlt : (i < n)%nat).
  { apply lookup_lt_Some in Hi. rewrite length_take in Hi. lia. }
  rewrite lookup_take_lt in Hi by assumption. rewrite lookup_drop in Hj.
  eapply (Hsorted i (n + j)%nat); [lia | eassumption | eassumption].
Qed.
End SortFacts.

Section TopPeers.
Import Py.

Variable docs : list Route.entry.
Variable resolver_query : string -> string -> res (list string).

Lemma top_peers_run count w :
  top_peers docs resolver_query count w =
  (Return (top_row resolver_query <$> take count (sorted_reverse snd (peer_totals docs))),
   extend w (concat ((fun asn : option Z * Z => name_calls (fst asn))
                       <$> take count (sorted_reverse snd (peer_totals docs))))).
Proof.
  unfold top_peers. fold (peer_totals docs).
  apply comprehension_run. intros asn w' _. unfold mbind, M_bind, bind.
  rewrite asn_name_query_run. reflexivity.
Qed.

Lemma elem_of_peer_totals asn n :
  (asn, n) ∈ peer_totals docs <->
  (exists e, e ∈ docs /\ Route.next_hop_asn e = asn) /\
  n = Mongo.count (Mongo.find (of_peer asn) docs).
Proof.
  unfold peer_totals, Mongo.distinct. rewrite list_elem_of_fmap, concat_singletons. split.
  - intros (peer & Heq & Hin). injection Heq as -> ->.
    apply elem_of_remove_dups, list_elem_of_fmap in Hin as (e & -> & He).
    split; [exists e; auto | reflexivity].
  - intros [(e & He & <-) ->]. exists (Route.next_hop_asn e). split; [reflexivity |].
    apply elem_of_remove_dups, list_elem_of_fmap. exists e. auto.
Qed.

(** X11.  [top_peers(count)] returns [count] rows, or one per peer when
    there are fewer peers; each row carries a peer of the table, the number
    of its routes and its name. *)
Theorem top_peers_length_and_rows count w :
  exists rows,
    fst (top_peers docs resolver_query count w) = Return rows /\
    List.length rows =
      Nat.min count (List.length (Mongo.distinct (fun e => [Route.next_hop_asn e]) docs)) /\
    forall r, r ∈ rows ->
      (exists e, e ∈ docs /\ Route.next_hop_asn e = top_asn r) /\
      top_count r = Mongo.count (Mongo.find (of_peer (top_asn r)) docs) /\
      top_name r = name_of resolver_query (top_asn r).
Proof.
  eexists. rewrite top_peers_run. cbn [fst]. split; [reflexivity |]. split.
  - unfold take. rewrite length_fmap, length_take.
    rewrite (Permutation_length (sorted_reverse_perm snd (peer_totals docs))).
    unfold peer_totals. rewrite length_fmap. reflexivity.
  - intros r Hr. apply list_elem_of_fmap in Hr as ([asn n] & -> & Hin).
    unfold take in Hin. apply subseteq_take in Hin.
    rewrite sorted_reverse_perm in Hin.
    apply elem_of_peer_totals in Hin as [Hex ->]. cbn. auto.
Qed.

(** X12.  The rows of [top_peers(count)] are in descending order of
    count, and no peer left out has more routes than a peer listed. *)
Theorem top_peers_are_the_largest count w :
  exists rows,
    fst (top_peers docs resolver_query count w) = Return rows /\
    descending top_count rows /\
    forall e r, e ∈ docs -> r ∈ rows ->
      (forall r', r' ∈ rows -> top_asn r' <> Route.next_hop_asn e) ->
      Mongo.count (Mongo.find (of_peer (Route.next_hop_asn e)) docs) <= top_count r.
Proof.
  eexists. rewrite top_peers_run. cbn [fst]. split; [reflexivity |].
  pose proof (sorted_reverse_sorted snd (peer_totals docs)) as Hsorted.
  unfold take. split.
  - intros i j r r' Hij Hi Hj.
    rewrite list_lookup_fmap in Hi, Hj.
    destruct (firstn count _ !! i) as [p |] eqn:Hp; [| discriminate].
    destruct (firstn count _ !! j) as [p' |] eqn:Hp'; [| discriminate].
    injection Hi as <-. injection Hj as <-. cbn [top_count top_row].
    assert (Hi : (i < count)%nat).
    { apply lookup_lt_Some in Hp. rewrite length_take in Hp. lia. }
    assert (Hj : (j < count)%nat).
    { apply lookup_lt_Some in Hp'. rewrite length_take in Hp'. lia. }
    rewrite lookup_take_lt in Hp, Hp' by assumption.
    exact (sorted_descending snd _ Hsorted i j p p' Hij Hp Hp').
  - intros e r He Hr Hout.
    apply list_elem_of_fmap in Hr as (p & -> & Hp). cbn [top_count top_row].
    set (asn := Route.next_hop_asn e) in *.
    set (n := Mongo.count (Mongo.find (of_peer asn) docs)).
    assert (Hin : (asn, n) ∈ sorted_reverse snd (peer_totals docs)).
    { rewrite sorted_reverse_perm. apply elem_of_peer_totals.
      split; [exists e; auto | reflexivity]. }
    rewrite <- (take_drop count (sorted_reverse snd (peer_totals docs))) in Hin.
    apply elem_of_app in Hin as [Hin | Hin].
    + exfalso. apply (Hout (top_row resolver_query (asn, n))); [| reflexivity].
      apply list_elem_of_fmap. exists (asn, n). auto.
    + exact (sorted_take_largest snd count _ p (asn, n) Hsorted Hp Hin).
Qed.
End TopPeers.

(** ** [Counter] and [cidr_breakdown] *)

Section CounterFacts.

Lemma Counter_add_sum x counts :
  sum_Z (snd <$> Counter_add x counts) = sum_Z (snd <$> counts) + 1.
Proof.
  induction counts as [| [y n] counts IH]; cbn [Counter_add]; [reflexivity |].
  destruct (x =? y); cbn [fmap list_fmap snd] in *; unfold sum_Z in *; cbn [fold_right] in *; lia.
Qed.

Lemma Counter_fold_sum xs counts :
  sum_Z (snd <$> fold_left (fun counts x => Counter_add x counts) xs counts) =
  sum_Z (snd <$> counts) + Z.of_nat (List.length xs).
Proof.
  revert counts. induction xs as [| x xs IH]; intros counts; cbn [fold_left List.length].
  - lia.
  - rewrite IH, Counter_add_sum. lia.
Qed.

(** The counts of a [Counter] add up to the length of the list. *)
Lemma Counter_items_sum xs : sum_Z (snd <$> Counter_items xs) = Z.of_nat (List.length xs).
Proof. unfold Counter_items. rewrite Counter_fold_sum. reflexivity. Qed.

Lemma Counter_add_keys x counts :
  fst <$> Counter_add x counts =
  if bool_decide (x ∈ fst <$> counts) then fst <$> counts else (fst <$> counts) ++ [x].
Proof.
  induction counts as [| [y n] counts IH]; cbn [Counter_add]; [reflexivity |].
  destruct (Z.eqb_spec x y) as [-> | Hne]; cbn [fmap list_fmap fst] in *.
  - rewrite bool_decide_eq_true_2 by (left; reflexivity). reflexivity.
  - rewrite IH. destruct (bool_decide_reflect (x ∈ fst <$> counts)) as [Hin | Hout].
    + rewrite bool_decide_eq_true_2 by (right; assumption). reflexivity.
    + rewrite bool_decide_eq_false_2; [reflexivity |].
      intros Hin. apply elem_of_cons in Hin as [? | ?]; contradiction.
Qed.

Lemma Counter_add_NoDup x counts :
  NoDup (fst <$> counts) -> NoDup (fst <$> Counter_add x counts).
Proof.
  intros Hnd. rewrite Counter_add_keys.
  destruct (bool_decide_reflect (x ∈ fst <$> counts)) as [Hin | Hout]; [assumption |].
  apply NoDup_app. split; [assumption |]. split; [| apply NoDup_singleton].
  intros y Hy Hx. apply list_elem_of_singleton in Hx as ->. contradiction.
Qed.

Lemma Counter_add_elem x counts m n :
  NoDup (fst <$> counts) ->
  (m, n) ∈ Counter_add x counts <->
  if m =? x
  then (n = 1 /\ x ∉ fst <$> counts) \/ (n - 1 <> n /\ (m, n - 1) ∈ counts)
  else (m, n) ∈ counts.
Proof.
  induction counts as [| [y k] counts IH]; intros Hnd; cbn [Counter_add].
  - rewrite list_elem_of_singleton. destruct (Z.eqb_spec m x) as [-> | Hne].
    + split.
      * intros Heq. injection Heq as ->. left. split; [reflexivity | apply not_elem_of_nil].
      * intros [[-> _] | [_ H]]; [reflexivity | inversion H].
    + split; [intros Heq; injection Heq as -> ->; contradiction | intros H; inversion H].
  - cbn [fmap list_fmap fst] in Hnd. apply NoDup_cons in Hnd as [Hy Hnd].
    specialize (IH Hnd).
    destruct (Z.eqb_spec x y) as [-> | Hxy].
    + rewrite !elem_of_cons. destruct (Z.eqb_spec m y) as [-> | Hmy].
      * split.
        -- intros [Heq | Hin].
           ++ injection Heq as ->. right. split; [lia |]. rewrite elem_of_cons. left. f_equal. lia.
           ++ exfalso. apply Hy. apply list_elem_of_fmap. exists (y, n). auto.
        -- intros [[_ Hout] | [_ Hin]].
           ++ exfalso. apply Hout. cbn. left.
           ++ apply elem_of_cons in Hin as [Heq | Hin].
              ** injection Heq as <-. left. f_equal. lia.
              ** exfalso. apply Hy. apply list_elem_of_fmap. exists (y, n - 1). auto.
      * rewrite elem_of_cons.
        split; (intros [Heq | Hin]; [injection Heq as -> ->; contradiction | right; assumption]).
    + rewrite elem_of_cons, IH. destruct (Z.eqb_spec m x) as [-> | Hmx].
      * cbn [fmap list_fmap fst]. rewrite not_elem_of_cons, elem_of_cons. split.
        -- intros [Heq | [[-> Hout] | [Hne Hin]]].
           ++ injection Heq as -> ->. contradiction.
           ++ left. auto.
           ++ right. auto.
        -- intros [[-> [_ Hout]] | [Hne [Heq | Hin]]].
           ++ right. left. auto.
           ++ injection Heq as -> _. contradiction.
           ++ right. right. auto.
      * rewrite elem_of_cons. reflexivity.
Qed.
End CounterFacts.

Section CounterItems.

Lemma occurrences_snoc m seen x :
  occurrences m (seen ++ [x]) = occurrences m seen + (if m =? x then 1 else 0).
Proof.
  unfold occurrences. rewrite List.filter_app, length_app. cbn [List.filter].
  destruct (m =? x); cbn [List.length]; lia.
Qed.

Lemma occurrences_nonneg m xs : 0 <= occurrences m xs.
Proof. unfold occurrences. lia. Qed.

Lemma occurrences_pos m xs : 0 < occurrences m xs <-> m ∈ xs.
Proof.
  unfold occurrences. induction xs as [| x xs IH]; cbn [List.filter List.length].
  - split; [lia | intros H; inversion H].
  - rewrite elem_of_cons. destruct (Z.eqb_spec m x) as [-> | Hne]; cbn [List.length].
    + split; [auto | lia].
    + rewrite IH. split; [auto | intros [? | ?]; [contradiction | assumption]].
Qed.

(** What a [Counter] holds after counting [seen]. *)
Local Abbreviation counted counts seen :=
  (NoDup (fst <$> counts) /\
   forall m n, (m, n) ∈ counts <-> n = occurrences m seen /\ 0 < n).

Lemma Counter_add_counted x counts seen :
  counted counts seen -> counted (Counter_add x counts) (seen ++ [x]).
Proof.
  intros [Hnd Hcounts]. split; [apply Counter_add_NoDup; assumption |].
  intros m n. rewrite Counter_add_elem by assumption. rewrite occurrences_snoc.
  pose proof (occurrences_nonneg m seen) as Hnonneg.
  destruct (Z.eqb_spec m x) as [-> | Hne].
  - split.
    + intros [[-> Hout] | [_ Hin]].
      * destruct (Z.eq_dec (occurrences x seen) 0) as [-> | Hpos]; [lia |].
        exfalso. apply Hout. apply list_elem_of_fmap. exists (x, occurrences x seen).
        split; [reflexivity |]. apply Hcounts. lia.
      * apply Hcounts in Hin. lia.
    + intros [-> _]. destruct (Z.eq_dec (occurrences x seen) 0) as [Hzero | Hpos].
      * left. split; [lia |]. intros Hin.
        apply list_elem_of_fmap in Hin as ([y k] & Hy & Hin). cbn in Hy. subst y.
        apply Hcounts in Hin. lia.
      * right. split; [lia |]. apply Hcounts. lia.
  - rewrite Hcounts. lia.
Qed.

Lemma Counter_fold_counted xs counts seen :
  counted counts seen ->
  counted (fold_left (fun counts x => Counter_add x counts) xs counts) (seen ++ xs).
Proof.
  revert counts seen. induction xs as [| x xs IH]; intros counts seen Hcounted.
  - cbn [fold_left]. rewrite app_nil_r. assumption.
  - cbn [fold_left]. replace (seen ++ x :: xs) with ((seen ++ [x]) ++ xs)
      by (rewrite <- app_assoc; reflexivity).
    apply IH, Counter_add_counted, Hcounted.
Qed.

(** [Counter(xs).items()] has one pair per distinct value, with the number
    of its occurrences. *)
Lemma Counter_items_counted xs :
  NoDup (fst <$> Counter_items xs) /\
  forall m n, (m, n) ∈ Counter_items xs <-> n = occurrences m xs /\ m ∈ xs.
Proof.
  destruct (Counter_fold_counted xs [] []) as [Hnd Hcounts].
  { split; [constructor |]. intros m n. unfold occurrences. cbn.
    split; [intros H; inversion H | lia]. }
  cbn [app] in Hcounts. split; [exact Hnd |].
  intros m n. unfold Counter_items. rewrite Hcounts, <- occurrences_pos.
  split; intros [-> H]; auto.
Qed.
End CounterItems.

Section CidrFacts.
Import Py.

Variable docs : list Route.entry.

Lemma for_each_app {A S} (body : S -> A -> M S) (xs ys : list A) acc w :
  for_each (xs ++ ys) body acc w = bind (for_each xs body acc) (for_each ys body) w.
Proof.
  revert acc w. induction xs as [| x xs IH]; intros acc w; cbn [app for_each].
  - reflexivity.
  - unfold bind. destruct (body acc x w) as [[acc' | e |] w']; [| reflexivity | reflexivity].
    rewrite IH. reflexivity.
Qed.

Lemma masks_of_cons version e xs :
  masks_of version (e :: xs) = masks_of version [e] ++ masks_of version xs.
Proof.
  unfold masks_of. cbn [omap list_omap].
  destruct (Route.ip_version e =? version); [destruct (mask_of e) |]; reflexivity.
Qed.

Lemma masks_of_length version xs :
  (forall e, In e xs -> cidr_fault e = None) -> version = 4 \/ version = 6 ->
  Z.of_nat (List.length (masks_of version xs)) =
  Mongo.count (Mongo.find (fun e => Route.ip_version e =? version) xs).
Proof.
  unfold Mongo.count, Mongo.find. intros Hclean Hversion.
  induction xs as [| e xs IH]; [reflexivity |].
  rewrite masks_of_cons, length_app, Nat2Z.inj_add, IH
    by (intros; apply Hclean; right; assumption).
  specialize (Hclean e (or_introl eq_refl)). unfold cidr_fault in Hclean.
  unfold masks_of. cbn [omap list_omap List.filter].
  destruct Hversion as [-> | ->].
  - destruct (Route.ip_version e =? 4); [| cbn; lia].
    destruct (mask_of e); [cbn; lia | discriminate].
  - destruct (Z.eqb_spec (Route.ip_version e) 6) as [Heq | Hne]; [| cbn; lia].
    rewrite Heq in Hclean. cbn in Hclean.
    destruct (mask_of e); [cbn; lia | discriminate].
Qed.

(** The row [cidr_breakdown] builds from an item of a counter. *)
Local Abbreviation cidr_row version :=
  (fun item : Z * Z =>
     let '(mask, count) := item in
     {| cidr_mask := mask; cidr_count := count; cidr_ip_version := version |}).

Local Abbreviation breakdown xs :=
  ((cidr_row 4 <$> Counter_items (masks_of 4 xs)) ++
   (cidr_row 6 <$> Counter_items (masks_of 6 xs))).

(** [cidr_breakdown] over a table without faults, and over one with a
    fault. *)
Lemma cidr_breakdown_run w :
  (forall before e after,
     docs = before ++ e :: after ->
     (forall e', In e' before -> cidr_fault e' = None) ->
     forall err, cidr_fault e = Some err ->
     cidr_breakdown docs w = (Raise err, w)) /\
  ((forall e, In e docs -> cidr_fault e = None) ->
   cidr_breakdown docs w = (Return (breakdown docs), w)).
Proof.
  unfold cidr_breakdown, Mongo.find. rewrite filter_all. unfold mbind, M_bind.
  match goal with
  | |- context [bind (for_each _ ?body _) _] => set (loop := body)
  end.
  assert (Hloop : forall xs ipv4_list ipv6_list bads_list,
             (forall e, In e xs -> cidr_fault e = None) ->
             exists bads_list',
               for_each xs loop (ipv4_list, ipv6_list, bads_list) w =
               (Return (ipv4_list ++ masks_of 4 xs, ipv6_list ++ masks_of 6 xs, bads_list'), w)).
  { induction xs as [| e xs IH]; intros ipv4_list ipv6_list bads_list Hclean.
    - exists bads_list. cbn. rewrite !app_nil_r. reflexivity.
    - pose proof (Hclean e (or_introl eq_refl)) as He. unfold cidr_fault in He.
      assert (Hstep : exists bads_list',
                 loop (ipv4_list, ipv6_list, bads_list) e w =
                 (Return (ipv4_list ++ masks_of 4 [e], ipv6_list ++ masks_of 6 [e],
                          bads_list'), w)).
      { unfold loop, masks_of. cbn [omap list_omap]. unfold mbind, M_bind, bind, lift, ret, raise.
        destruct (Z.eqb_spec (Route.ip_version e) 4) as [H4 | H4].
        - rewrite H4. cbn [Z.eqb Pos.eqb].
          destruct (mask_of e) as [mask | err]; [| discriminate].
          destruct (24 <? mask).
          + destruct (int_origin_as e); [| discriminate]. eexists.
            rewrite app_nil_r. reflexivity.
          + eexists. rewrite app_nil_r. reflexivity.
        - destruct (Route.ip_version e =? 6).
          + destruct (mask_of e) as [mask | err]; [| discriminate]. eexists.
            rewrite app_nil_r. reflexivity.
          + eexists. rewrite !app_nil_r. reflexivity. }
      destruct Hstep as [bads1 Hstep].
      destruct (IH (ipv4_list ++ masks_of 4 [e]) (ipv6_list ++ masks_of 6 [e]) bads1)
        as [bads2 Hrest]; [intros; apply Hclean; right; assumption |].
      exists bads2. cbn [for_each]. unfold bind at 1. rewrite Hstep, Hrest.
      rewrite (masks_of_cons 4 e xs), (masks_of_cons 6 e xs), !app_assoc. reflexivity. }
  split.
  - intros before e after -> Hclean err Hfault.
    destruct (Hloop before [] [] [] Hclean) as [bads Hbefore].
    unfold bind at 1. rewrite for_each_app. unfold bind at 1. rewrite Hbefore.
    cbn [for_each]. unfold bind at 1.
    assert (Hstep : forall acc, loop acc e w = (Raise err, w)).
    { intros [[ipv4_list ipv6_list] bads_list]. unfold cidr_fault in Hfault.
      unfold loop. unfold mbind, M_bind, bind, lift, ret, raise.
      destruct (Z.eqb_spec (Route.ip_version e) 4) as [H4 | H4].
      - rewrite H4. cbn [Z.eqb Pos.eqb].
        destruct (mask_of e) as [mask | err']; [| congruence].
        destruct (24 <? mask); [| discriminate].
        destruct (int_origin_as e); [discriminate | congruence].
      - destruct (Route.ip_version e =? 6); [| discriminate].
        destruct (mask_of e) as [mask | err']; [discriminate | congruence]. }
    rewrite Hstep. reflexivity.
  - intros Hclean. destruct (Hloop docs [] [] [] Hclean) as [bads Hrun].
    unfold bind. rewrite Hrun. reflexivity.
Qed.

Lemma cidr_rows_same version (items : list (Z * Z)) :
  cidr_rows version (cidr_row version <$> items) = cidr_row version <$> items.
Proof.
  unfold cidr_rows. induction items as [| [mask count] items IH]; [reflexivity |].
  cbn [fmap list_fmap List.filter cidr_ip_version]. rewrite Z.eqb_refl. f_equal. exact IH.
Qed.

Lemma cidr_rows_other version version' (items : list (Z * Z)) :
  version' <> version -> cidr_rows version (cidr_row version' <$> items) = [].
Proof.
  intros Hne. unfold cidr_rows. induction items as [| [mask count] items IH]; [reflexivity |].
  cbn [fmap list_fmap List.filter cidr_ip_version].
  destruct (Z.eqb_spec version' version); [contradiction | exact IH].
Qed.

Lemma cidr_row_counts version (items : list (Z * Z)) :
  cidr_count <$> (cidr_row version <$> items) = snd <$> items.
Proof.
  induction items as [| [mask count] items IH]; [reflexivity |].
  cbn [fmap list_fmap cidr_count snd]. f_equal. exact IH.
Qed.

Lemma cidr_row_keys version (items : list (Z * Z)) :
  (fun r => (cidr_ip_version r, cidr_mask r)) <$> (cidr_row version <$> items) =
  (fun mask => (version, mask)) <$> (fst <$> items).
Proof.
  induction items as [| [mask count] items IH]; [reflexivity |].
  cbn [fmap list_fmap cidr_ip_version cidr_mask fst]. f_equal. exact IH.
Qed.

Lemma elem_of_cidr_rows version xs r :
  r ∈ cidr_row version <$> Counter_items xs <->
  cidr_ip_version r = version /\ cidr_mask r ∈ xs /\
  cidr_count r = occurrences (cidr_mask r) xs.
Proof.
  destruct (Counter_items_counted xs) as [_ Hitems]. rewrite list_elem_of_fmap. split.
  - intros ([mask count] & -> & Hin). apply Hitems in Hin as [-> Hin]. cbn. auto.
  - intros (Hversion & Hin & Hcount). exists (cidr_mask r, cidr_count r). split.
    + destruct r. cbn in *. subst. reflexivity.
    + apply Hitems. auto.
Qed.

Lemma breakdown_facts xs :
  cidr_rows 4 (breakdown xs) = cidr_row 4 <$> Counter_items (masks_of 4 xs) /\
  cidr_rows 6 (breakdown xs) = cidr_row 6 <$> Counter_items (masks_of 6 xs) /\
  (forall r, r ∈ breakdown xs <->
     (cidr_ip_version r = 4 \/ cidr_ip_version r = 6) /\
     cidr_mask r ∈ masks_of (cidr_ip_version r) xs /\
     cidr_count r = occurrences (cidr_mask r) (masks_of (cidr_ip_version r) xs)) /\
  NoDup ((fun r => (cidr_ip_version r, cidr_mask r)) <$> breakdown xs).
Proof.
  refine (conj _ (conj _ (conj _ _))).
  - unfold cidr_rows. rewrite List.filter_app. fold (cidr_rows 4 (cidr_row 4 <$> Counter_items (masks_of 4 xs))).
    fold (cidr_rows 4 (cidr_row 6 <$> Counter_items (masks_of 6 xs))).
    rewrite cidr_rows_same, cidr_rows_other by lia. apply app_nil_r.
  - unfold cidr_rows. rewrite List.filter_app. fold (cidr_rows 6 (cidr_row 4 <$> Counter_items (masks_of 4 xs))).
    fold (cidr_rows 6 (cidr_row 6 <$> Counter_items (masks_of 6 xs))).
    rewrite cidr_rows_same, cidr_rows_other by lia. reflexivity.
  - intros r. rewrite elem_of_app, !elem_of_cidr_rows. split.
    + intros [(Hv & Hin & Hcount) | (Hv & Hin & Hcount)]; rewrite Hv; auto.
    + intros ([Hv | Hv] & Hin & Hcount); rewrite Hv in Hin, Hcount; auto.
  - rewrite fmap_app, !cidr_row_keys. apply NoDup_app. split; [| split].
    + apply NoDup_fmap_2; [intros a b Heq; congruence |].
      apply (Counter_items_counted (masks_of 4 xs)).
    + intros key H4 H6. apply list_elem_of_fmap in H4 as (m4 & -> & _).
      apply list_elem_of_fmap in H6 as (m6 & Heq & _). discriminate.
    + apply NoDup_fmap_2; [intros a b Heq; congruence |].
      apply (Counter_items_counted (masks_of 6 xs)).
Qed.
End CidrFacts.



(** ** The routes *)

Section RouteFacts.
Import Py ipaddress.

Variable ip_address : string -> res address.
Variable str_network : network -> string.
Variable docs : list Route.entry.
Variable resolver_query : string -> string -> res (list string).
Variable from_address : string -> res string.
Variable regex : string -> res (string -> bool).
Variable zone : string.

Lemma reverse_dns_query_run ip w :
  reverse_dns_query resolver_query from_address ip w =
  (Return (reverse_name_of resolver_query from_address ip),
   extend w (reverse_calls from_address ip)).
Proof.
  unfold reverse_dns_query, reverse_name_of, reverse_calls, try_except, mbind, M_bind, bind,
    dns_query, external.
  destruct (from_address ip) as [addr | e]; cbn [lift ret raise].
  - destruct (resolver_query addr "PTR") as [[| first rest] | e];
      cbn [lift ret raise index nth_error]; reflexivity.
  - rewrite extend_nil. reflexivity.
Qed.

Lemma route_json_run network w :
  route_json resolver_query zone network w =
  (Return (route_object resolver_query zone network),
   extend w (name_calls (Route.origin_as network))).
Proof.
  unfold route_json, mbind, M_bind, bind. rewrite asn_name_query_run. reflexivity.
Qed.

Lemma transit_loop asn xs prefixes w :
  exists found,
    for_each xs
      (fun prefixes prefix =>
         match Route.as_path prefix with
         | Some (hop :: path) =>
             if bool_decide (asn ∈ hop :: path)
             then ret (prefixes ++ [Route.prefix prefix])
             else ret prefixes
         | _ => ret prefixes
         end) prefixes w = (Return (prefixes ++ found), w) /\
    forall p, p ∈ found <-> exists e, e ∈ xs /\ Route.prefix e = p /\ on_path asn e.
Proof.
  revert prefixes. induction xs as [| e xs IH]; intros prefixes.
  - exists []. rewrite app_nil_r. split; [reflexivity |].
    intros p. split; [intros H; inversion H | intros (e & H & _); inversion H].
  - cbn [for_each]. unfold bind at 1.
    destruct (Route.as_path e) as [[| hop path] |] eqn:Hpath.
    + destruct (IH prefixes) as (found & Hrun & Hfound). exists found.
      split; [exact Hrun |]. intros p. rewrite Hfound. split.
      * intros (e' & He' & Hrest). exists e'. split; [right; assumption | assumption].
      * intros (e' & He' & Hp & Hon). apply elem_of_cons in He' as [-> | He'].
        -- destruct Hon as (path & Heq & Hin). rewrite Hpath in Heq.
           injection Heq as <-. inversion Hin.
        -- exists e'. auto.
    + destruct (bool_decide_reflect (asn ∈ hop :: path)) as [Hin | Hout].
      * destruct (IH (prefixes ++ [Route.prefix e])) as (found & Hrun & Hfound).
        exists (Route.prefix e :: found). cbn [ret]. rewrite Hrun, <- app_assoc.
        split; [reflexivity |]. intros p. rewrite elem_of_cons, Hfound. split.
        -- intros [-> | (e' & He' & Hrest)].
           ++ exists e. split; [left |]. split; [reflexivity |]. exists (hop :: path). auto.
           ++ exists e'. split; [right; assumption | assumption].
        -- intros (e' & He' & Hp & Hon). apply elem_of_cons in He' as [-> | He'].
           ++ left. auto.
           ++ right. exists e'. auto.
      * destruct (IH prefixes) as (found & Hrun & Hfound). exists found.
        split; [exact Hrun |]. intros p. rewrite Hfound. split.
        -- intros (e' & He' & Hrest). exists e'. split; [right; assumption | assumption].
        -- intros (e' & He' & Hp & Hon). apply elem_of_cons in He' as [-> | He'].
           ++ destruct Hon as (path' & Heq & Hin). rewrite Hpath in Heq.
              injection Heq as <-. contradiction.
           ++ exists e'. auto.
    + destruct (IH prefixes) as (found & Hrun & Hfound). exists found.
      split; [exact Hrun |]. intros p. rewrite Hfound. split.
      * intros (e' & He' & Hrest). exists e'. split; [right; assumption | assumption].
      * intros (e' & He' & Hp & Hon). apply elem_of_cons in He' as [-> | He'].
        -- destruct Hon as (path & Heq & _). rewrite Hpath in Heq. discriminate.
        -- exists e'. auto.
Qed.

End RouteFacts.

Section AsnRouteFacts.
Import Py.

Variable docs : list Route.entry.
Variable resolver_query : string -> string -> res (list string).
Variable from_address : string -> res string.
Variable zone : string.

Lemma fold_left_snoc {A B} (g : A -> B) (xs : list A) (acc : list B) :
  fold_left (fun acc x => acc ++ [g x]) xs acc = acc ++ (g <$> xs).
Proof.
  revert acc. induction xs as [| x xs IH]; intros acc; cbn [fold_left fmap list_fmap].
  - rewrite app_nil_r. reflexivity.
  - rewrite IH, <- app_assoc. reflexivity.
Qed.

Lemma is_peer_run asn w :
  is_peer docs asn w =
  (Return (bool_decide (Some asn ∈ Mongo.distinct (fun e => [Route.next_hop_asn e]) docs)), w).
Proof. unfold is_peer. destruct (bool_decide _); reflexivity. Qed.

Lemma elem_of_distinct_next_hop asn :
  asn ∈ Mongo.distinct (fun e => [Route.next_hop_asn e]) docs <->
  exists e, e ∈ docs /\ Route.next_hop_asn e = asn.
Proof.
  unfold Mongo.distinct. rewrite concat_singletons, elem_of_remove_dups, list_elem_of_fmap.
  split; intros (e & H1 & H2); exists e; auto.
Qed.

(** X16.  [is_peer(asn)] answers whether some route has [asn] as its next
    hop's AS, and never raises; a null next hop makes no AS a peer, not
    even 3701. *)
Theorem is_peer_iff_next_hop asn w :
  exists answer,
    is_peer docs asn w = (Return answer, w) /\
    (answer = true <-> exists e, e ∈ docs /\ Route.next_hop_asn e = Some asn).
Proof.
  eexists. split; [apply is_peer_run |].
  rewrite bool_decide_eq_true. apply elem_of_distinct_next_hop.
Qed.

Lemma asn_routes asn :
  (if asn =? _DEFAULT_ASN
   then Mongo.find (fun e => bool_decide (Route.origin_as e = None)) docs
   else Mongo.find (fun e => bool_decide (Route.origin_as e = Some asn)) docs) =
  Mongo.find (fun e => bool_decide (Route.origin_as e = origin_of asn)) docs.
Proof.
  unfold origin_of, Mongo.find.
  destruct (asn =? _DEFAULT_ASN); apply List.filter_ext; intros e; apply bool_decide_ext;
    reflexivity.
Qed.

End AsnRouteFacts.

Section PeerRouteFacts.
Import Py.

Variable docs : list Route.entry.
Variable resolver_query : string -> string -> res (list string).

Lemma filter_none {A} (f : A -> bool) (l : list A) :
  (forall x, In x l -> f x = false) -> List.filter f l = [].
Proof.
  induction l as [| x l IH]; intros Hnone; [reflexivity |]. cbn [List.filter].
  rewrite (Hnone x (or_introl eq_refl)). apply IH. intros; apply Hnone; right; assumption.
Qed.

Lemma get_peers_run w :
  get_peers docs resolver_query w =
  (Return (peer_detail docs resolver_query
             <$> Mongo.distinct (fun e => [Route.next_hop_asn e]) docs),
   extend w (concat (peer_calls <$> Mongo.distinct (fun e => [Route.next_hop_asn e]) docs))).
Proof.
  unfold get_peers.
  rewrite (for_each_run _ (fun peers asn => peers ++ [peer_detail docs resolver_query asn])
             peer_calls).
  - rewrite fold_left_snoc. reflexivity.
  - intros acc asn w' _. unfold mbind, M_bind, bind. fold (asn_number asn).
    rewrite asn_name_query_run. unfold peer_detail.
    destruct (_ <? _); reflexivity.
Qed.

(** X18.  [get_peers()] never raises and returns one object per peer, as
    many as [peer_count()] counts.  The two counts of an object are those of
    the routes that name its ASN as origin and as next hop, and it is a
    transit provider exactly when the second is the larger. *)
Theorem get_peers_one_row_per_peer w :
  exists rows,
    fst (get_peers docs resolver_query w) = Return rows /\
    fst (peer_count docs w) = Return (Z.of_nat (List.length rows)) /\
    forall row, row ∈ rows ->
      pd_origin_prefix_count row =
        Mongo.count
          (Mongo.find (fun e => bool_decide (Route.origin_as e = Some (pd_asn row))) docs) /\
      pd_nexthop_prefix_count row =
        Mongo.count
          (Mongo.find (fun e => bool_decide (Route.next_hop_asn e = Some (pd_asn row))) docs) /\
      (pd_transit_provider row = true <->
       pd_origin_prefix_count row < pd_nexthop_prefix_count row).
Proof.
  eexists. rewrite get_peers_run. cbn [fst]. split; [reflexivity |]. split.
  - unfold peer_count, ret. cbn [fst]. rewrite length_fmap. reflexivity.
  - intros row Hrow. apply list_elem_of_fmap in Hrow as (asn & -> & _).
    cbn. split; [reflexivity |]. split; [reflexivity |]. apply Z.ltb_lt.
Qed.

(** X19.  The routes with a null next hop make a peer that [get_peers]
    shows as AS 3701, with their next-hop addresses; its route count looks
    for routes that name 3701, so when none does it is [0] and the peer is
    no transit provider, however many routes it sent. *)
Theorem get_peers_null_peer_counts_nothing w e :
  e ∈ docs -> Route.next_hop_asn e = None ->
  (forall e', e' ∈ docs -> Route.next_hop_asn e' <> Some _DEFAULT_ASN) ->
  exists rows row,
    fst (get_peers docs resolver_query w) = Return rows /\
    row ∈ rows /\
    pd_asn row = _DEFAULT_ASN /\
    Route.nexthop e ∈ pd_next_hop_ips row /\
    pd_nexthop_prefix_count row = 0 /\
    pd_transit_provider row = false.
Proof.
  intros He Hnull Hnone. eexists _, (peer_detail docs resolver_query None).
  rewrite get_peers_run. cbn [fst]. split; [reflexivity |].
  assert (Hcount : Mongo.count
            (Mongo.find (fun e => bool_decide (Route.next_hop_asn e = Some _DEFAULT_ASN)) docs)
          = 0).
  { unfold Mongo.count, Mongo.find.
    rewrite filter_none; [reflexivity |]. intros e' He'.
    apply bool_decide_eq_false. apply Hnone. apply list_elem_of_In. assumption. }
  refine (conj _ (conj eq_refl (conj _ (conj _ _)))).
  - apply list_elem_of_fmap. exists None. split; [reflexivity |].
    apply elem_of_distinct_next_hop. exists e. auto.
  - cbn [pd_next_hop_ips peer_detail]. unfold Mongo.distinct.
    rewrite concat_singletons, elem_of_remove_dups, list_elem_of_fmap.
    exists e. split; [reflexivity |]. apply list_elem_of_In, filter_In.
    split; [apply list_elem_of_In; assumption |].
    unfold of_peer. apply bool_decide_eq_true. assumption.
  - cbn [pd_nexthop_prefix_count peer_detail asn_number]. exact Hcount.
  - cbn [pd_transit_provider peer_detail asn_number]. rewrite Hcount.
    apply Z.ltb_ge. unfold Mongo.count. lia.
Qed.
End PeerRouteFacts.

Section LookupFacts.
Import Py ipaddress.

Variable ip_address : string -> res address.
Variable str_network : network -> string.
Variable docs : list Route.entry.
Variable resolver_query : string -> string -> res (list string).
Variable regex : string -> res (string -> bool).
Variable zone : string.

Local Abbreviation resolve'' := (resolve ip_address str_network (find_one_in docs)).
Local Abbreviation get_ip' := (get_ip ip_address str_network docs resolver_query zone).
Local Abbreviation search_index' :=
  (search_index ip_address str_network docs resolver_query regex zone).
Local Abbreviation object := (route_object resolver_query zone).

Lemma resolve_returns ip w : exists r w', resolve'' ip w = (Return r, w').
Proof.
  unfold resolve, find_network.
  apply find_network_fuel_returns. unfold find_network_depth. lia.
Qed.

Lemma get_ip_run ip w :
  get_ip' ip w =
  match resolve'' ip w with
  | (Return (Some e), w') => (Return (OneRoute (object e)), extend w' (name_calls (Route.origin_as e)))
  | (Return None, w') => (Return NoRoute, w')
  | (Raise err, w') => (Raise err, w')
  | (OutOfFuel, w') => (OutOfFuel, w')
  end.
Proof.
  unfold get_ip, resolve, mbind, M_bind. unfold bind at 1.
  destruct (find_network _ _ _ ip 32 w) as [[[e |] | err |] w']; try reflexivity.
  unfold bind. rewrite route_json_run. reflexivity.
Qed.


Lemma words_loop tokens : forall number w,
  for_each tokens (fun number t => try_except (lift (int t)) (ret number)) number w =
  (Return (fold_left (fun number t => match int t with Ok n => n | Err _ => number end)
                     tokens number), w).
Proof.
  induction tokens as [| t tokens IH]; intros number w; [reflexivity |].
  cbn [for_each fold_left]. unfold bind, try_except.
  destruct (int t) as [n | err]; cbn [lift ret raise]; apply IH.
Qed.

Lemma search_index_run query w :
  search_index' query w =
  match resolve'' (PyStr.lower query) w with
  | (Return (Some e), w') =>
      (Return (OneRoute (object e)), extend w' (name_calls (Route.origin_as e)))
  | (Return None, w') =>
      match regex (PyStr.lower query) with
      | Ok matcher =>
          let result :=
            Mongo.find (fun e => bool_decide (Route.next_hop_asn e = Some (query_number query))
                                 || matcher (Route.prefix e)) docs in
          (Return (Prefixes (object <$> result)),
           extend w' (concat ((fun e => name_calls (Route.origin_as e)) <$> result)))
      | Err err => (Raise err, w')
      end
  | (Raise err, w') => (Raise err, w')
  | (OutOfFuel, w') => (OutOfFuel, w')
  end.
Proof.
  unfold search_index, resolve, mbind, M_bind. unfold bind at 1.
  rewrite words_loop. fold (query_number query). unfold bind at 1.
  destruct (find_network _ _ _ (PyStr.lower query) 32 w) as [[[e |] | err |] w'];
    try reflexivity.
  - unfold bind. rewrite route_json_run. reflexivity.
  - unfold bind at 1. destruct (regex (PyStr.lower query)) as [matcher | err];
      cbn [lift ret raise]; [| reflexivity].
    unfold bind at 1.
    rewrite (for_each_run _ (fun prefixes network => prefixes ++ [object network])
               (fun e => name_calls (Route.origin_as e))).
    + rewrite fold_left_snoc. reflexivity.
    + intros acc e w'' _. unfold bind. rewrite route_json_run. reflexivity.
Qed.


End LookupFacts.

(** ** The cache, further *)

Section CacheFacts.
Import Py.

Variable docs : list Route.entry.
Variable resolver_query : string -> string -> res (list string).
Variable regex : string -> res (string -> bool).
Variable zone : string.

Local Abbreviation customer_rows := (peer_row docs resolver_query <$> elements (customer_set docs)).
Local Abbreviation customer_calls := (concat (peer_calls <$> elements (customer_set docs))).

Lemma assign_run {A} (expression : M A) (store : A -> Stats.t -> Stats.t) v w w' :
  expression w = (Return v, w') -> assign expression store w = (Return (store v), w').
Proof. intros Hrun. unfold assign, mbind, M_bind, bind. rewrite Hrun. reflexivity. Qed.

Lemma assign_raise {A} (expression : M A) (store : A -> Stats.t -> Stats.t) e w w' :
  expression w = (Raise e, w') -> assign expression store w = (Raise e, w').
Proof. intros Hrun. unfold assign, mbind, M_bind, bind. rewrite Hrun. reflexivity. Qed.

Lemma run_body_cons stmt rest self w :
  run_body (stmt :: rest) self w =
  match stmt w with
  | (Return store, w') => run_body rest (store self) w'
  | (Raise e, w') => (Raise e, self, w')
  | (OutOfFuel, w') => (OutOfFuel, self, w')
  end.
Proof. reflexivity. Qed.

(** X23.  [update_stats] never raises.  It stores the three counts of the
    table and the time, runs [customers()] three times, at three times its
    DNS queries, for the number of customers and the two sums of their route
    counts, and leaves the attributes of the slow refresh as they were. *)
Theorem update_stats_never_raises self w :
  exists self',
    update_stats docs resolver_query zone self w =
      (Return tt, self', extend w (customer_calls ++ customer_calls ++ customer_calls)) /\
    fst (peer_count docs w) = Return (Stats.peer_counter self') /\
    fst (prefix_count docs 4 w) = Return (Stats.ipv4_table_size self') /\
    fst (prefix_count docs 6 w) = Return (Stats.ipv6_table_size self') /\
    fst (nexthop_ip_count docs w) = Return (Stats.nexthop_ip_counter self') /\
    Stats.timestamp self' = epoch_to_date zone (clock w) /\
    Stats.customer_count self' = Z.of_nat (List.length customer_rows) /\
    Stats.customer_ipv4_prefixes self' = sum_Z (peer_ipv4_count <$> customer_rows) /\
    Stats.customer_ipv6_prefixes self' = sum_Z (peer_ipv6_count <$> customer_rows) /\
    Stats.avg_as_path_length self' = Stats.avg_as_path_length self /\
    Stats.top_n_peers self' = Stats.top_n_peers self /\
    Stats.cidr_breakdown self' = Stats.cidr_breakdown self /\
    Stats.communities self' = Stats.communities self /\
    Stats.peers self' = Stats.peers self /\
    Stats.customers self' = Stats.customers self.
Proof.
  eexists. split.
  - unfold update_stats, update_stats_body, peer_count, prefix_count, nexthop_ip_count.
    do 4 (rewrite run_body_cons, assign_ret).
    rewrite run_body_cons, assign_clock.
    rewrite run_body_cons,
      (assign_run _ Stats.set_customer_count (Z.of_nat (List.length customer_rows))
         w (extend w customer_calls))
      by (unfold mbind, M_bind, bind; rewrite customers_run; reflexivity).
    rewrite run_body_cons,
      (assign_run _ Stats.set_customer_ipv4_prefixes
         (sum_Z (peer_ipv4_count <$> customer_rows))
         _ (extend (extend w customer_calls) customer_calls))
      by (unfold mbind, M_bind, bind; rewrite customers_run; reflexivity).
    rewrite run_body_cons,
      (assign_run _ Stats.set_customer_ipv6_prefixes
         (sum_Z (peer_ipv6_count <$> customer_rows))
         _ (extend (extend (extend w customer_calls) customer_calls) customer_calls))
      by (unfold mbind, M_bind, bind; rewrite customers_run; reflexivity).
    cbn [run_body]. rewrite !extend_extend. reflexivity.
  - destruct self. cbn. repeat split; reflexivity.
Qed.

Lemma avg_as_path_length_empty w :
  avg_as_path_length [] w = (Raise ZeroDivisionError, w).
Proof. rewrite avg_as_path_length_formula. vm_compute. reflexivity. Qed.

(** X24.  On an empty table [update_advanced_stats] raises
    [ZeroDivisionError] in its first statement: nothing is stored, not even
    the time, and nothing is asked of the resolver. *)
Theorem update_advanced_stats_empty_table self w :
  update_advanced_stats [] resolver_query regex zone self w =
  (Raise ZeroDivisionError, self, w).
Proof.
  unfold update_advanced_stats, update_advanced_stats_body.
  rewrite run_body_cons.
  rewrite (assign_raise _ Stats.set_avg_as_path_length ZeroDivisionError w w);
    [reflexivity |].
  unfold mbind, M_bind, bind. rewrite avg_as_path_length_empty. reflexivity.
Qed.

Lemma slow_keeps_counters {X} (field : Stats.t -> X) :
  (forall v s, field (Stats.set_avg_as_path_length v s) = field s) ->
  (forall v s, field (Stats.set_top_n_peers v s) = field s) ->
  (forall v s, field (Stats.set_cidr_breakdown v s) = field s) ->
  (forall v s, field (Stats.set_peers v s) = field s) ->
  (forall v s, field (Stats.set_customers v s) = field s) ->
  (forall v s, field (Stats.set_communities v s) = field s) ->
  (forall v s, field (Stats.set_timestamp v s) = field s) ->
  forall self w,
    field (snd (fst (update_advanced_stats docs resolver_query regex zone self w))) =
    field self.
Proof.
  intros H1 H2 H3 H4 H5 H6 H7 self w.
  change (snd (fst (update_advanced_stats docs resolver_query regex zone self w)))
    with (refreshed (update_advanced_stats_body docs resolver_query regex zone) self w).
  apply refreshed_keeps. unfold update_advanced_stats_body.
  repeat (apply List.Forall_cons; [apply stmt_keeps_assign; intros v; red; auto |]).
  apply List.Forall_nil.
Qed.

(** X25.  However it ends, [update_advanced_stats] leaves the attributes
    of the fast refresh as they were: the four counts of the table and the
    three of the customers.  The timestamp is the one attribute the two
    refreshes share. *)
Theorem update_advanced_stats_keeps_counters self w :
  let self' := snd (fst (update_advanced_stats docs resolver_query regex zone self w)) in
  Stats.peer_counter self' = Stats.peer_counter self /\
  Stats.ipv4_table_size self' = Stats.ipv4_table_size self /\
  Stats.ipv6_table_size self' = Stats.ipv6_table_size self /\
  Stats.nexthop_ip_counter self' = Stats.nexthop_ip_counter self /\
  Stats.customer_count self' = Stats.customer_count self /\
  Stats.customer_ipv4_prefixes self' = Stats.customer_ipv4_prefixes self /\
  Stats.customer_ipv6_prefixes self' = Stats.customer_ipv6_prefixes self.
Proof.
  cbv zeta.
  refine (conj _ (conj _ (conj _ (conj _ (conj _ (conj _ _))))));
    apply slow_keeps_counters; intros v []; reflexivity.
Qed.

End CacheFacts.

(** ** [communities_count], further *)

(** X27.  [communities_count] hands every community string to the engine
    as a pattern, unescaped: at the first one the engine rejects it raises
    the engine's exception and returns no row. *)
Theorem communities_count_stops_at_rejected_pattern docs regex before c after err w :
  Mongo.distinct Route.communities docs = before ++ c :: after ->
  (forall c', In c' before -> exists matcher, regex c' = Py.Ok matcher) ->
  regex c = Py.Err err ->
  communities_count docs regex w = (Py.Raise err, w).
Proof.
  intros Hsplit Hbefore Hreject. unfold communities_count. rewrite Hsplit. clear Hsplit.
  match goal with
  | |- Py.for_each _ ?body ?start w = _ =>
      set (loop := body); generalize start; subst loop
  end.
  induction before as [| c' before IH]; intros acc; cbn [app Py.for_each].
  - unfold mbind, Py.M_bind, Py.bind. rewrite Hreject. reflexivity.
  - destruct (Hbefore c' (or_introl eq_refl)) as [matcher Hc'].
    unfold Py.bind at 1. unfold mbind, Py.M_bind, Py.bind at 1. rewrite Hc'.
    cbn [Py.lift Py.ret]. apply IH. intros; apply Hbefore; right; assumption.
Qed.

(** ** The further facts at sample inputs *)

Lemma resolve_longest_match_witness :
  IpText.ip_address "10.1.2.3" = Py.Ok (ipaddress.IPv4Address 167838211) /\
  fst (resolve IpText.ip_address IpText.str_network
         (find_one_in [Sample.wide_route; Sample.narrow_route]) "10.1.2.3"
         (Sample.at_time 0)) = Py.Return (Some Sample.narrow_route) /\
  In Sample.narrow_route [Sample.wide_route; Sample.narrow_route] /\
  exists i, (i < 33)%nat /\
    Route.prefix Sample.narrow_route =
      probe_key IpText.str_network (ipaddress.IPv4Address 167838211) (32 - Z.of_nat i) /\
    forall j e, (j < i)%nat -> In e [Sample.wide_route; Sample.narrow_route] ->
      Route.prefix e <>
      probe_key IpText.str_network (ipaddress.IPv4Address 167838211) (32 - Z.of_nat j).
Proof.
  split; [reflexivity |]. split; [reflexivity |].
  exact (resolve_longest_match IpText.ip_address IpText.str_network
           [Sample.wide_route; Sample.narrow_route] "10.1.2.3"
           (ipaddress.IPv4Address 167838211) (Sample.at_time 0) Sample.narrow_route
           eq_refl eq_refl).
Defined.

Lemma resolve_none_iff_window_empty_witness :
  IpText.ip_address "10.9.9.9" = Py.Ok (ipaddress.IPv4Address 168364297) /\
  (fst (resolve IpText.ip_address IpText.str_network
          (find_one_in [Sample.wide_route; Sample.narrow_route]) "10.9.9.9"
          (Sample.at_time 0)) = Py.Return None <->
   forall len e, In len (probed_lengths (ipaddress.IPv4Address 168364297)) ->
     In e [Sample.wide_route; Sample.narrow_route] ->
     Route.prefix e <>
     probe_key IpText.str_network (ipaddress.IPv4Address 168364297) len).
Proof.
  split; [reflexivity |].
  exact (resolve_none_iff_window_empty IpText.ip_address IpText.str_network
           [Sample.wide_route; Sample.narrow_route] "10.9.9.9"
           (ipaddress.IPv4Address 168364297) (Sample.at_time 0) eq_refl).
Defined.

Lemma find_network_netmask_out_of_range_witness :
  IpText.ip_address "10.1.2.3" = Py.Ok (ipaddress.IPv4Address 167838211) /\
  ipaddress.max_prefixlen (ipaddress.version (ipaddress.IPv4Address 167838211)) <
    33 + offset (ipaddress.IPv4Address 167838211) /\
  find_network IpText.ip_address IpText.str_network
    (find_one_in [Sample.wide_route; Sample.narrow_route]) "10.1.2.3" 33 (Sample.at_time 0) =
  (Py.Return None, Sample.at_time 0).
Proof.
  split; [reflexivity |]. split; [reflexivity |].
  apply (find_network_netmask_out_of_range IpText.ip_address IpText.str_network
           (find_one_in [Sample.wide_route; Sample.narrow_route]) "10.1.2.3"
           (ipaddress.IPv4Address 167838211) 33 (Sample.at_time 0) eq_refl).
  right. reflexivity.
Defined.

Lemma supernet_holds_address_witness :
  0 <= 167838211 < 2 ^ 32 /\
  exists net,
    ipaddress.supernet (ipaddress.ip_network (ipaddress.IPv4Address 167838211)) 30 =
      Py.Ok net /\
    ipaddress.prefixlen net = 30 /\
    ipaddress.network_address net mod 2 ^ (32 - 30) = 0 /\
    ipaddress.network_address net <= 167838211 <
      ipaddress.network_address net + 2 ^ (32 - 30).
Proof.
  split; [lia |].
  apply (supernet_holds_address (ipaddress.IPv4Address 167838211) 30); cbn; lia.
Defined.



Lemma get_peers_null_peer_counts_nothing_witness :
  Route.next_hop_asn Sample2.local_route = None /\
  Route.next_hop_asn Sample.wide_route = Some 100 /\
  exists rows row,
    fst (get_peers [Sample2.local_route; Sample.wide_route] Sample.dns_answering
           (Sample.at_time 0)) = Py.Return rows /\
    row ∈ rows /\
    pd_asn row = _DEFAULT_ASN /\
    Route.nexthop Sample2.local_route ∈ pd_next_hop_ips row /\
    pd_nexthop_prefix_count row = 0 /\
    pd_transit_provider row = false.
Proof.
  split; [reflexivity |]. split; [reflexivity |].
  apply (get_peers_null_peer_counts_nothing [Sample2.local_route; Sample.wide_route]
           Sample.dns_answering (Sample.at_time 0) Sample2.local_route).
  - left.
  - reflexivity.
  - intros e' He'. apply list_elem_of_In in He'.
    destruct He' as [<- | [<- | []]]; discriminate.
Defined.




Lemma communities_count_stops_at_rejected_pattern_witness :
  Mongo.distinct Route.communities [Sample2.odd_route] =
    ["3701:370"] ++ "65000:1(" :: ["3701:380"] /\
  Sample2.strict_engine "3701:370" = Py.Ok (Py.contains "3701:370") /\
  Sample2.strict_engine "65000:1(" = Py.Err (Py.LibraryError "OperationFailure") /\
  communities_count [Sample2.odd_route] Sample2.strict_engine (Sample.at_time 0) =
  (Py.Raise (Py.LibraryError "OperationFailure"), Sample.at_time 0).
Proof.
  split; [reflexivity |]. split; [reflexivity |]. split; [reflexivity |].
  apply (communities_count_stops_at_rejected_pattern [Sample2.odd_route]
           Sample2.strict_engine ["3701:370"] "65000:1(" ["3701:380"]
           (Py.LibraryError "OperationFailure") (Sample.at_time 0)).
  - reflexivity.
  - intros c' [<- | []]. eexists. reflexivity.
  - reflexivity.
Defined.
